(** * The storage registry of BoostNote.next (lib/db/store)

    A shallow embedding of [createDbStoreCreator]: the in-memory index
    ([storageMap]) kept on top of one document store per storage, and the
    timer-driven scheduler of background synchronisation.

    Conventions of the embedding.
    - Every callback of the store runs to completion before the next one
      starts and sees the latest [storageMap]: the captured [storageMap] of
      a React render and the [draft] handed to [setStorageMap] are the same
      map when an operation starts.  The two are still kept apart inside an
      operation, because the source reads some fields from the captured
      [storage] and writes others through the draft.
    - The document store ([NoteDb]), [./utils] and [./consts] are other
      modules; what the registry uses of them is the interface [NoteDb]
      below.
    - [attachmentMap], [updateFolder] and the persisted list of storage
      descriptors ([saveStorageDataList]) take no part in any statement and
      are left out. *)

From Stdlib Require Import String Ascii NArith.
From stdpp Require Import base option list strings gmap fin_maps fin_sets functions pretty.

Local Open Scope string_scope.
Local Open Scope list_scope.

(** ** JavaScript values and helpers *)

Inductive JsError : Type :=
| UnprocessableEntityError (msg : string) (* createUnprocessableEntityError *)
| Error (msg : string)                    (* new Error(msg) *)
| TypeError                               (* a property read on undefined *)
| StoreError (msg : string).              (* a rejected promise of the document store *)

Inductive Outcome (A : Type) : Type :=
| Returned (a : A)
| Threw (e : JsError).
Arguments Returned {A} a.
Arguments Threw {A} e.

(** [s.startsWith(p)] *)
Definition startsWith (s p : string) : bool := String.prefix p s.

Fixpoint string_drop (n : nat) (s : string) : string :=
  match n, s with
  | O, _ => s
  | S n', String _ s' => string_drop n' s'
  | S _, EmptyString => EmptyString
  end.

(** [s.replace(pat, rep)] for a string pattern: the first occurrence only. *)
Fixpoint replace (pat rep s : string) : string :=
  if String.prefix pat s then rep +:+ string_drop (String.length pat) s
  else match s with
       | EmptyString => EmptyString
       | String c s' => String c (replace pat rep s')
       end.

(** [GetSubstitution]: the text [String.prototype.replace] inserts for the
    replacement string [rep] when the pattern has no group.  [$$] stands for
    a dollar sign, [$&] for the matched text, [$`] for the text before the
    match and [$'] for the text after it; any other [$] stands for itself
    ([$1] names a group the pattern does not have). *)
Fixpoint getSubstitution (matched before after rep : string) : string :=
  match rep with
  | EmptyString => EmptyString
  | String c rest =>
    if Ascii.eqb c "$" then
      match rest with
      | EmptyString => String c EmptyString
      | String d rest' =>
        if Ascii.eqb d "$" then String "$" (getSubstitution matched before after rest')
        else if Ascii.eqb d "&" then matched +:+ getSubstitution matched before after rest'
        else if Ascii.eqb d "`" then before +:+ getSubstitution matched before after rest'
        else if Ascii.eqb d "'" then after +:+ getSubstitution matched before after rest'
        else String c (getSubstitution matched before after rest)
      end
    else String c (getSubstitution matched before after rest)
  end.

(** [s.replace(new RegExp('^' + escapeRegExp(pathname), 'g'), newPathname)]:
    the pattern is anchored, so it matches at most once, at position 0, with
    nothing before the match. *)
Definition replacePrefix (pathname newPathname s : string) : string :=
  if String.prefix pathname s
  then
    let rest := string_drop (String.length pathname) s in
    getSubstitution pathname "" rest newPathname +:+ rest
  else s.

Fixpoint occurrences (c : ascii) (s : string) : nat :=
  match s with
  | EmptyString => 0
  | String a s' => (if Ascii.eqb a c then 1 else 0) + occurrences c s'
  end.

(** [s.split('/').length] *)
Definition split_length (s : string) : nat := S (occurrences "/" s).

(** [l.includes(x)] *)
Definition includes (l : list string) (x : string) : bool := bool_decide (x ∈ l).

(** ramda's [difference]: the elements of the first list that are not in the
    second, without duplicates. *)
Definition difference (l k : list string) : list string :=
  remove_dups (list_difference l k).

(** A property key read from a possibly missing field: [o[undefined]] is
    [o["undefined"]]. *)
Definition propertyKey (k : option string) : string := default "undefined" k.

(** ** Documents *)

(** [NoteDoc]; [storageId] is the extra field of [PopulatedNoteDoc], absent on
    a document as the store returns it. *)
Record NoteDoc : Type := mkNoteDoc {
  _id : string;
  title : string;
  content : string;
  tags : list string;
  folderPathname : string;
  data : string;
  trashed : bool;
  storageId : option string
}.

(** [Partial<NoteDocEditibleProps>] *)
Record NoteProps : Type := mkNoteProps {
  p_title : option string;
  p_content : option string;
  p_tags : option (list string);
  p_folderPathname : option string;
  p_data : option string
}.

Record FolderDoc : Type := mkFolderDoc {
  folder_id : string;
  folder_pathname : string
}.

(** [PopulatedFolderDoc]: [pf_id] stands for the fields spread from the
    store's document, [None] when [undefined] was spread. *)
Record PopulatedFolderDoc : Type := mkFolder {
  pf_id : option string;
  pf_pathname : string;
  noteIdSet : gset string
}.

(** A tag document of the store; whether it carries a [name] property is
    decided by the store. *)
Record TagDoc : Type := mkTagDoc {
  tag_id : string;
  tag_name : option string
}.

Record PopulatedTagDoc : Type := mkTag {
  pt_id : option string;
  name : option string;
  tagNoteIdSet : gset string
}.

Record CloudNoteStorageData : Type := mkCloud {
  cloud_id : N;
  cloud_name : string;
  syncedAt : option N
}.

(** [NoteStorageData] *)
Record NoteStorageData : Type := mkStorageData {
  sd_id : string;
  sd_name : string;
  sd_cloudStorage : option CloudNoteStorageData
}.

(** [NoteStorage].  [folderMap] is the one map an operation stores
    [undefined] into, so its range is an option.  [db] is the handle of the
    storage's document store: the name of its database. *)
Record NoteStorage : Type := mkStorage {
  ns_id : string;
  ns_name : string;
  cloudStorage : option CloudNoteStorageData;
  noteMap : gmap string NoteDoc;
  folderMap : gmap string (option PopulatedFolderDoc);
  tagMap : gmap string PopulatedTagDoc;
  db : string;
  syncTimer : option nat;
  sync : option nat
}.

Record AllDocsMap : Type := mkAllDocs {
  adm_noteMap : gmap string NoteDoc;
  adm_folderMap : gmap string FolderDoc;
  adm_tagMap : gmap string TagDoc
}.

Record Toast : Type := mkToast {
  toast_title : string;
  toast_description : string
}.

(** A running replication: the storage it was started for, the [silent] flag
    and the descriptor captured when it started. *)
Record Session : Type := mkSession {
  sess_storageId : string;
  sess_silent : bool;
  sess_storage : NoteStorageData
}.

Definition autoSyncIntervalTime : N := 1000 * 60 * 60.
Definition autoSyncDebounceWaitingTime : N := 1000 * 30.

(** [{ storageId, ...doc }]: a [storageId] of the document itself wins. *)
Definition populate (sid : string) (doc : NoteDoc) : NoteDoc :=
  mkNoteDoc (_id doc) (title doc) (content doc) (tags doc) (folderPathname doc)
    (data doc) (trashed doc)
    (match storageId doc with Some s => Some s | None => Some sid end).

Definition setTrashed (b : bool) (doc : NoteDoc) : NoteDoc :=
  mkNoteDoc (_id doc) (title doc) (content doc) (tags doc) (folderPathname doc)
    (data doc) b (storageId doc).

Definition setTags (l : list string) (doc : NoteDoc) : NoteDoc :=
  mkNoteDoc (_id doc) (title doc) (content doc) l (folderPathname doc)
    (data doc) (trashed doc) (storageId doc).

(** [{ ...folderDoc, pathname, noteIdSet }] *)
Definition populateFolder (fd : option FolderDoc) (p : string) (ids : gset string)
  : PopulatedFolderDoc :=
  mkFolder (folder_id <$> fd) p ids.

(** [{ ...folder, noteIdSet }] *)
Definition withNoteIdSet (ids : gset string) (f : PopulatedFolderDoc) : PopulatedFolderDoc :=
  mkFolder (pf_id f) (pf_pathname f) ids.

Definition withTagNoteIdSet (ids : gset string) (t : PopulatedTagDoc) : PopulatedTagDoc :=
  mkTag (pt_id t) (name t) ids.

(** [folderMap[p]], with [== null] read as [None]. *)
Definition folderOf (s : NoteStorage) (p : string) : option PopulatedFolderDoc :=
  mjoin (folderMap s !! p).

(** The note ids filed under a folder path or a tag; none when there is no
    entry. *)
Definition folderNoteIds (s : NoteStorage) (p : string) : gset string :=
  from_option noteIdSet ∅ (folderOf s p).

Definition tagNoteIds (s : NoteStorage) (t : string) : gset string :=
  from_option tagNoteIdSet ∅ (tagMap s !! t).

Definition set_noteMap (m : gmap string NoteDoc) (s : NoteStorage) : NoteStorage :=
  mkStorage (ns_id s) (ns_name s) (cloudStorage s) m (folderMap s) (tagMap s)
    (db s) (syncTimer s) (sync s).

Definition set_folderMap (m : gmap string (option PopulatedFolderDoc)) (s : NoteStorage)
  : NoteStorage :=
  mkStorage (ns_id s) (ns_name s) (cloudStorage s) (noteMap s) m (tagMap s)
    (db s) (syncTimer s) (sync s).

Definition set_tagMap (m : gmap string PopulatedTagDoc) (s : NoteStorage) : NoteStorage :=
  mkStorage (ns_id s) (ns_name s) (cloudStorage s) (noteMap s) (folderMap s) m
    (db s) (syncTimer s) (sync s).

Definition set_cloudStorage (c : option CloudNoteStorageData) (s : NoteStorage)
  : NoteStorage :=
  mkStorage (ns_id s) (ns_name s) c (noteMap s) (folderMap s) (tagMap s)
    (db s) (syncTimer s) (sync s).

Definition set_syncTimer (t : option nat) (s : NoteStorage) : NoteStorage :=
  mkStorage (ns_id s) (ns_name s) (cloudStorage s) (noteMap s) (folderMap s) (tagMap s)
    (db s) t (sync s).

Definition set_sync (t : option nat) (s : NoteStorage) : NoteStorage :=
  mkStorage (ns_id s) (ns_name s) (cloudStorage s) (noteMap s) (folderMap s) (tagMap s)
    (db s) (syncTimer s) t.

(** ** The document store

    The calls [db/store] makes on [NoteDb], with the helpers it imports from
    [./utils] and the constant from [./consts].  A read returns a result; a
    write also returns the next state of the store.  Either may reject. *)
Class NoteDb (D : Type) : Type := {
  TAG_ID_PREFIX : string;
  isFolderPathnameValid : string → bool;
  getParentFolderPathname : string → string;
  getAllParentFolderPathnames : string → list string;
  db_init : D → Outcome unit * D;
  db_getAllDocsMap : D → Outcome AllDocsMap;
  db_getNote : string → D → Outcome (option NoteDoc);
  db_getFolder : string → D → Outcome (option FolderDoc);
  db_getFoldersByPathnames : list string → D → Outcome (list FolderDoc);
  db_getTag : string → D → Outcome (option TagDoc);
  db_findNotesByFolder : string → D → Outcome (list NoteDoc);
  db_createFolder : string → D → Outcome FolderDoc * D;
  db_removeFolder : string → D → Outcome unit * D;
  db_createNote : NoteProps → D → Outcome NoteDoc * D;
  db_updateNote : string → NoteProps → D → Outcome (option NoteDoc) * D;
  db_trashNote : string → D → Outcome (option NoteDoc) * D;
  db_untrashNote : string → D → Outcome (option NoteDoc) * D;
  db_purgeNote : string → D → Outcome unit * D;
  db_removeTag : string → D → Outcome unit * D
}.

(** ** Asynchronous code: state passing with exceptions *)

Definition M (S A : Type) : Type := S → Outcome A * S.

Definition ret {S A : Type} (a : A) : M S A := λ w, (Returned a, w).

Definition throw {S A : Type} (e : JsError) : M S A := λ w, (Threw e, w).

Definition bind {S A B : Type} (m : M S A) (k : A → M S B) : M S B := λ w,
  match m w with
  | (Returned a, w') => k a w'
  | (Threw e, w') => (Threw e, w')
  end.

Notation "'let*' x ':=' m 'in' k" := (bind m (λ x, k))
  (at level 10, x pattern, m at level 100, k at level 200).
Notation "m ;;; k" := (bind m (λ _, k))
  (at level 100, k at level 200, right associativity).

(** [try { m } catch (error) { handler }] *)
Definition tryCatch {S A : Type} (m : M S A) (handler : JsError → M S A) : M S A := λ w,
  match m w with
  | (Returned a, w') => (Returned a, w')
  | (Threw e, w') => handler e w'
  end.

(** [await Promise.all(l.map(f))].  Every callback is started before any of
    them is awaited, and a rejection cancels none of the others: all of them
    run, here one after the other in the order of the list.  When more than
    one callback is rejected, JavaScript reports the rejection that comes
    first in time, which depends on the number of awaits each callback has
    passed by then; time is not counted here, and the rejection reported is
    the first of the list.  What is stated below about a rejected call
    names the error only where a single callback is rejected. *)
Fixpoint promiseAll {S A B : Type} (f : A → M S B) (l : list A) : M S (list B) := λ w,
  match l with
  | [] => (Returned [], w)
  | a :: l' =>
    let '(r, w1) := f a w in
    let '(rs, w2) := promiseAll f l' w1 in
    (match r, rs with
     | Returned b, Returned bs => Returned (b :: bs)
     | Threw e, _ => Threw e
     | Returned _, Threw e => Threw e
     end, w2)
  end.

(** Synchronous code that may throw. *)
Definition obind {A B : Type} (o : Outcome A) (k : A → Outcome B) : Outcome B :=
  match o with
  | Returned a => k a
  | Threw e => Threw e
  end.

(** A recipe handed to immer's [produce] for the storage map. *)
Definition Draft : Type := gmap string NoteStorage → Outcome (gmap string NoteStorage).

(** A statement on [draft[sid]!]. *)
Definition draftAt (sid : string) (f : NoteStorage → NoteStorage) : Draft := λ m,
  match m !! sid with
  | Some s => Returned (<[sid := f s]> m)
  | None => Threw TypeError
  end.

Definition draftSeq (d1 d2 : Draft) : Draft := λ m, obind (d1 m) d2.

Definition draftSkip : Draft := λ m, Returned m.

Section Registry.
Context {D : Type} `{!NoteDb D}.

(** ** The process-wide state

    [storageMap] is the React state; [stores] are the document stores, by
    database name; [timers] are the armed [setTimeout] handles, each with the
    storage its callback was created for and its delay; [sessions] are the
    replications in flight; [location] is [currentPathnameWithoutNoteId]. *)
Record World : Type := mkWorld {
  storageMap : gmap string NoteStorage;
  stores : string → D;
  timers : gmap nat (string * N);
  sessions : gmap nat Session;
  nextHandle : nat;
  toasts : list Toast;
  enableAutoSync : bool;
  user : option string;
  location : string
}.

Definition set_storageMap (m : gmap string NoteStorage) (w : World) : World :=
  mkWorld m (stores w) (timers w) (sessions w) (nextHandle w) (toasts w)
    (enableAutoSync w) (user w) (location w).

Definition set_stores (f : string → D) (w : World) : World :=
  mkWorld (storageMap w) f (timers w) (sessions w) (nextHandle w) (toasts w)
    (enableAutoSync w) (user w) (location w).

Definition set_timers (t : gmap nat (string * N)) (w : World) : World :=
  mkWorld (storageMap w) (stores w) t (sessions w) (nextHandle w) (toasts w)
    (enableAutoSync w) (user w) (location w).

Definition set_sessions (t : gmap nat Session) (w : World) : World :=
  mkWorld (storageMap w) (stores w) (timers w) t (nextHandle w) (toasts w)
    (enableAutoSync w) (user w) (location w).

Definition set_nextHandle (n : nat) (w : World) : World :=
  mkWorld (storageMap w) (stores w) (timers w) (sessions w) n (toasts w)
    (enableAutoSync w) (user w) (location w).

Definition set_toasts (t : list Toast) (w : World) : World :=
  mkWorld (storageMap w) (stores w) (timers w) (sessions w) (nextHandle w) t
    (enableAutoSync w) (user w) (location w).

Definition set_location (l : string) (w : World) : World :=
  mkWorld (storageMap w) (stores w) (timers w) (sessions w) (nextHandle w) (toasts w)
    (enableAutoSync w) (user w) l.

(** [await storage.db.read(...)] and [await storage.db.write(...)] *)
Definition awaitRead {A : Type} (h : string) (op : D → Outcome A) : M World A := λ w,
  (op (stores w h), w).

Definition awaitWrite {A : Type} (h : string) (op : D → Outcome A * D) : M World A := λ w,
  let '(r, d) := op (stores w h) in
  (r, set_stores (<[h := d]> (stores w)) w).

(** [setStorageMap(updater)]; an updater that throws commits nothing. *)
Definition setStorageMap (d : Draft) : M World unit := λ w,
  match d (storageMap w) with
  | Returned m => (Returned tt, set_storageMap m w)
  | Threw e => (Threw e, w)
  end.

Definition pushMessage (t : Toast) : M World unit := λ w,
  (Returned tt, set_toasts (toasts w ++ [t]) w).

Definition routerReplace (l : string) : M World unit := λ w,
  (Returned tt, set_location l w).

Definition clearTimeout (h : nat) : M World unit := λ w,
  (Returned tt, set_timers (delete h (timers w)) w).

(** [setTimeout(callback, delay)]: every callback armed by the store is
    [() => { syncStorage(storageId, true); queueSyncingStorage(storageId) }],
    so a timer is recorded by its [storageId]. *)
Definition setTimeout (storageId : string) (delay : N) : M World nat := λ w,
  let h := nextHandle w in
  (Returned h, set_nextHandle (S h) (set_timers (<[h := (storageId, delay)]> (timers w)) w)).

(** ** The scheduler *)

Definition unlinkStorage (storageId : string) : M World unit :=
  setStorageMap (λ prevStorageMap,
    match prevStorageMap !! storageId with
    | None => Returned prevStorageMap
    | Some existingStorage =>
      Returned (<[storageId := set_cloudStorage None existingStorage]> prevStorageMap)
    end).

Definition linkStorage (storageId : string) (cs : CloudNoteStorageData) : M World unit :=
  setStorageMap (λ prevStorageMap,
    match prevStorageMap !! storageId with
    | None => Returned prevStorageMap
    | Some existingStorage =>
      Returned (<[storageId := set_cloudStorage (Some cs) existingStorage]> prevStorageMap)
    end).

(** [storage.db.sync(user, storage.cloudStorage)]: a new session in flight. *)
Definition startSession (s : Session) : M World nat := λ w,
  let h := nextHandle w in
  (Returned h, set_nextHandle (S h) (set_sessions (<[h := s]> (sessions w)) w)).

Definition syncStorage (storageId : string) (silent : bool) : M World unit := λ w,
  match user w with
  | None => (Returned tt, w)
  | Some _ =>
    match storageMap w !! storageId with
    | None => (Returned tt, w)
    | Some storage =>
      match cloudStorage storage with
      | None => (Returned tt, w)
      | Some _ =>
        match sync storage with
        | Some _ => (Returned tt, w)
        | None =>
          (let* h := startSession
             (mkSession storageId silent
                (mkStorageData (ns_id storage) (ns_name storage) (cloudStorage storage))) in
           setStorageMap (draftAt storageId (set_sync (Some h)))) w
        end
      end
    end
  end.

Definition queueSyncingStorage (storageId : string) (delay : N) : M World unit := λ w,
  if negb (enableAutoSync w) then (Returned tt, w)
  else
    match storageMap w !! storageId with
    | None => (Returned tt, w)
    | Some storage =>
      ((match syncTimer storage with
        | Some h => clearTimeout h
        | None => ret tt
        end);;;
       let* h := setTimeout storageId delay in
       setStorageMap (λ prevStorageMap,
         Returned (<[storageId := set_syncTimer (Some h) storage]> prevStorageMap))) w
    end.

Definition cancelSyncingStorageQueue (storageId : string) : M World unit := λ w,
  match storageMap w !! storageId with
  | None => (Returned tt, w)
  | Some storage =>
    match syncTimer storage with
    | None => (Returned tt, w)
    | Some h =>
      (clearTimeout h;;;
       setStorageMap (λ prevStorageMap,
         Returned (<[storageId := set_syncTimer None storage]> prevStorageMap))) w
    end
  end.

(** An armed timer expires: its callback runs, and the handle is spent. *)
Definition fireTimer (h : nat) : M World unit := λ w,
  match timers w !! h with
  | None => (Returned tt, w)
  | Some (storageId, _) =>
    (clearTimeout h;;;
     syncStorage storageId true;;;
     queueSyncingStorage storageId autoSyncIntervalTime) w
  end.

(** ** Opening a storage *)

(** The loop of [prepareStorage] over the notes: [noteIdSet.add] on the
    folder and on every tag of a note that is not trashed. *)
Definition indexNote (acc : Outcome NoteStorage) (noteDoc : NoteDoc) : Outcome NoteStorage :=
  obind acc (λ storage,
    if trashed noteDoc then Returned storage
    else
      match folderOf storage (folderPathname noteDoc) with
      | None => Threw TypeError
      | Some f =>
        foldl (λ acc tagName,
                 obind acc (λ storage,
                   match tagMap storage !! tagName with
                   | None => Threw TypeError
                   | Some t =>
                     Returned (set_tagMap
                       (<[tagName := withTagNoteIdSet (tagNoteIdSet t ∪ {[_id noteDoc]}) t]>
                          (tagMap storage)) storage)
                   end))
          (Returned (set_folderMap
             (<[folderPathname noteDoc :=
                  Some (withNoteIdSet (noteIdSet f ∪ {[_id noteDoc]}) f)]> (folderMap storage))
             storage))
          (tags noteDoc)
      end).

Definition prepareStorage (sd : NoteStorageData) : M World NoteStorage :=
  awaitWrite (sd_id sd) db_init;;;
  let* docs := awaitRead (sd_id sd) db_getAllDocsMap in
  let storage :=
    mkStorage (sd_id sd) (sd_name sd) (sd_cloudStorage sd)
      (adm_noteMap docs)
      (map_imap (λ pathname folderDoc,
                   Some (Some (populateFolder (Some folderDoc) pathname ∅)))
         (adm_folderMap docs))
      (map_imap (λ name tagDoc, Some (mkTag (Some (tag_id tagDoc)) (Some name) ∅))
         (adm_tagMap docs))
      (sd_id sd) None None in
  match foldl indexNote (Returned storage) (map_to_list (adm_noteMap docs)).*2 with
  | Returned s => ret s
  | Threw e => throw e
  end.

(** ** The events of a replication in flight *)

Definition endSession (h : nat) : M World unit := λ w,
  (Returned tt, set_sessions (delete h (sessions w)) w).

(** The bodies of the [switch] on [error.status]. *)
Definition case409 (storageId : string) (silent : bool) : M World unit :=
  (if negb silent
   then pushMessage (mkToast "Size Limit"
          "You have reached your usage limit. Please upgrade your subscription.")
   else ret tt);;;
  unlinkStorage storageId.

Definition case404 (storageId : string) (silent : bool) : M World unit :=
  (if negb silent
   then pushMessage (mkToast "Not Found" "The cloud storage does not exist anymore.")
   else ret tt);;;
  unlinkStorage storageId.

Definition caseDefault (silent : bool) : M World unit :=
  if negb silent
  then pushMessage (mkToast "Sync Error"
         "Failed to sync the storage. Please check Dev Tool's console to learn more information")
  else ret tt.

(** [.on('error', ...)]: [case 409] has no [break] and runs into [case 404]. *)
Definition onSyncError (h : nat) (status : option N) : M World unit := λ w,
  match sessions w !! h with
  | None => (Returned tt, w)
  | Some sess =>
    let storageId := sess_storageId sess in
    let silent := sess_silent sess in
    (endSession h;;;
     (match status with
      | Some 409%N => case409 storageId silent;;; case404 storageId silent
      | Some 404%N => case404 storageId silent
      | _ => caseDefault silent
      end);;;
     setStorageMap (draftAt storageId (set_sync None))) w
  end.

(** [.on('complete', ...)], at time [now]. *)
Definition onSyncComplete (h : nat) (now : N) : M World unit := λ w,
  match sessions w !! h with
  | None => (Returned tt, w)
  | Some sess =>
    (endSession h;;;
     let* syncedStorage := prepareStorage (sess_storage sess) in
     match cloudStorage syncedStorage with
     | None => throw TypeError
     | Some cs =>
       let syncedStorage :=
         set_cloudStorage (Some (mkCloud (cloud_id cs) (cloud_name cs) (Some now)))
           syncedStorage in
       setStorageMap (λ prevStorageMap,
         match prevStorageMap !! sess_storageId sess with
         | None => Returned prevStorageMap
         | Some _ => Returned (<[sess_storageId sess := syncedStorage]> prevStorageMap)
         end)
     end) w
  end.

(** ** The index operations *)

Definition liftOutcome {A : Type} (o : Outcome A) : M World A := λ w, (o, w).

Definition draftForEach {A : Type} (l : list A) (f : A → Draft) : Draft :=
  foldl (λ d a, draftSeq d (f a)) draftSkip l.

(** [Object.keys(storage.folderMap)] *)
Definition folderKeys (storage : NoteStorage) : list string :=
  (map_to_list (folderMap storage)).*1.

(** The parent folders that have no entry yet. *)
Definition parentFolderPathnamesToCheck (storage : NoteStorage) (p : string) : list string :=
  List.filter (λ aPathname, bool_decide (folderOf storage aPathname = None))
    (getAllParentFolderPathnames p).

(** The entry of the note's folder with the note added; [createNote],
    [updateNote] and [untrashNote] contain this expression verbatim. *)
Definition folderWithNote (storage : NoteStorage) (noteDoc : NoteDoc)
  : M World PopulatedFolderDoc :=
  match folderOf storage (folderPathname noteDoc) with
  | None =>
    let* fd := awaitRead (db storage) (db_getFolder (folderPathname noteDoc)) in
    ret (populateFolder fd (folderPathname noteDoc) {[ _id noteDoc ]})
  | Some f => ret (withNoteIdSet (noteIdSet f ∪ {[ _id noteDoc ]}) f)
  end.

(** The callback mapped over [noteDoc.tags] in the same three operations:
    [{ ...(await storage.db.getTag(tag)), noteIdSet }] for a tag without an
    entry, the entry with the note added otherwise. *)
Definition tagWithNote (storage : NoteStorage) (noteDoc : NoteDoc) (tag : string)
  : M World PopulatedTagDoc :=
  match tagMap storage !! tag with
  | None =>
    let* td := awaitRead (db storage) (db_getTag tag) in
    ret (mkTag (tag_id <$> td) (td ≫= tag_name) {[ _id noteDoc ]})
  | Some t => ret (withTagNoteIdSet (tagNoteIdSet t ∪ {[ _id noteDoc ]}) t)
  end.

(** [.reduce((acc, tag) => { acc[tag._id.replace(TAG_ID_PREFIX, '')] = tag;
    return acc }, {})] *)
Definition keyTagsById (l : list PopulatedTagDoc) : Outcome (gmap string PopulatedTagDoc) :=
  foldl (λ acc tag,
           obind acc (λ acc,
             match pt_id tag with
             | None => Threw TypeError
             | Some i => Returned (<[replace TAG_ID_PREFIX "" i := tag]> acc)
             end))
    (Returned ∅) l.

Definition tagsWithNote (storage : NoteStorage) (noteDoc : NoteDoc)
  : M World (gmap string PopulatedTagDoc) :=
  let* l := promiseAll (tagWithNote storage noteDoc) (tags noteDoc) in
  liftOutcome (keyTagsById l).

(** [l.reduce((acc, tag) => { ...storage.tagMap[tag]!.noteIdSet minus noteId...
    acc[tag] = ...; return acc }, {})], as in [updateNote] and [purgeNote]. *)
Definition untagAll (storage : NoteStorage) (noteId : string) (l : list string)
  : Outcome (gmap string PopulatedTagDoc) :=
  foldl (λ acc tag,
           obind acc (λ acc,
             match tagMap storage !! tag with
             | None => Threw TypeError
             | Some t =>
               Returned (<[tag := withTagNoteIdSet (tagNoteIdSet t ∖ {[ noteId ]}) t]> acc)
             end))
    (Returned ∅) l.

Definition createFolder (storageId pathname : string) : M World unit := λ w,
  match storageMap w !! storageId with
  | None => (Returned tt, w)
  | Some storage =>
    (let* folder :=
       tryCatch
         (let* f := awaitWrite (db storage) (db_createFolder pathname) in ret (Some f))
         (λ _, pushMessage (mkToast "Error" "Folder name is invalid.");;; ret None) in
     match folder with
     | None => ret tt
     | Some folder =>
       let* parentFolders :=
         awaitRead (db storage)
           (db_getFoldersByPathnames (getAllParentFolderPathnames pathname)) in
       let createdFolders := reverse (folder :: parentFolders) in
       setStorageMap
         (draftForEach createdFolders (λ aFolder,
            let aPathname := folder_pathname aFolder in
            match folderOf storage aPathname with
            | None =>
              draftAt storageId (λ ds,
                set_folderMap
                  (<[aPathname := Some (populateFolder (Some aFolder) aPathname ∅)]>
                     (folderMap ds)) ds)
            | Some _ => draftSkip
            end));;;
       queueSyncingStorage storageId autoSyncDebounceWaitingTime
     end) w
  end.

(** The callback [renameFolder] maps over [allFoldersToRename]. *)
Definition renameOne (storage : NoteStorage) (pathname newPathname folderPathname : string)
  : M World (PopulatedFolderDoc * list NoteDoc) :=
  let newfolderPathname := replacePrefix pathname newPathname folderPathname in
  let* folder := awaitRead (db storage) (db_getFolder folderPathname) in
  match folder with
  | None =>
    throw (UnprocessableEntityError
             ("this folder does not exist `" +:+ folderPathname +:+ "`"))
  | Some _ =>
    let* existing := awaitRead (db storage) (db_getFolder newfolderPathname) in
    match existing with
    | Some _ =>
      throw (UnprocessableEntityError
               ("this folder already exists `" +:+ newfolderPathname +:+ "`"))
    | None =>
      if negb (split_length folderPathname =? split_length newfolderPathname)%nat
      then throw (UnprocessableEntityError
                    ("New name is invalid. `" +:+ newfolderPathname +:+ "`"))
      else
        let* notes := awaitRead (db storage) (db_findNotesByFolder folderPathname) in
        let* newFolder := awaitWrite (db storage) (db_createFolder newfolderPathname) in
        let* rewrittenNotes :=
          promiseAll
            (λ note, awaitWrite (db storage)
                       (db_updateNote (_id note)
                          (mkNoteProps None None None (Some newfolderPathname) None)))
            notes in
        (* [note._id] on every rewritten note *)
        match mapM (λ o : option NoteDoc, o) rewrittenNotes with
        | None => throw TypeError
        | Some rewritten =>
          ret (mkFolder (Some (folder_id newFolder)) (folder_pathname newFolder)
                 (list_to_set (_id <$> rewritten)),
               rewritten)
        end
    end
  end.

Definition renameFolder (storageId pathname newPathname : string) : M World unit := λ w,
  match storageMap w !! storageId with
  | None => (Returned tt, w)
  | Some storage =>
    (if negb (isFolderPathnameValid pathname)
     then throw (UnprocessableEntityError ("pathname is invalid, got `" +:+ pathname +:+ "`"))
     else if negb (isFolderPathnameValid newPathname)
     then throw (UnprocessableEntityError
                   ("pathname is invalid, got `" +:+ newPathname +:+ "`"))
     else
       let subFolders :=
         List.filter (λ aPathname, startsWith aPathname (pathname +:+ "/"))
           (folderKeys storage) in
       let allFoldersToRename := pathname :: subFolders in
       let* results :=
         promiseAll (renameOne storage pathname newPathname) allFoldersToRename in
       let folderListToRefresh := results.*1 in
       let notesListToRefresh := concat results.*2 in
       awaitWrite (db storage) (db_removeFolder pathname);;;
       setStorageMap
         (draftSeq
            (draftForEach notesListToRefresh (λ noteDoc,
               draftAt (ns_id storage) (λ ds,
                 set_noteMap (<[_id noteDoc := populate (ns_id storage) noteDoc]> (noteMap ds))
                   ds)))
            (draftSeq
               (draftForEach folderListToRefresh (λ folderDoc,
                  draftAt (ns_id storage) (λ ds,
                    set_folderMap (<[pf_pathname folderDoc := Some folderDoc]> (folderMap ds)) ds)))
               (draftForEach allFoldersToRename (λ aPathname,
                  draftAt storageId (λ ds,
                    set_folderMap (delete aPathname (folderMap ds)) ds)))));;;
       queueSyncingStorage storageId autoSyncDebounceWaitingTime) w
  end.

(** [affectedTagIdAndNotesIdMap] of [removeFolder]: for every tag, the ids of
    the notes of the deleted folders that carry it. *)
Definition affectedTags (deletedFolderPathnames : list string)
  (notes : list (string * NoteDoc)) : gmap string (list string) :=
  foldl (λ (acc : gmap string (list string)) '(noteId, note),
           if includes deletedFolderPathnames (folderPathname note)
           then foldl (λ (acc : gmap string (list string)) (tag : string),
                         <[tag := default [] (acc !! tag) ++ [noteId]]> acc)
                  acc (tags note)
           else acc)
    ∅ notes.

(** [modifiedTags] of [removeFolder] *)
Definition untagAffected (storage : NoteStorage) (affected : list (string * list string))
  : Outcome (gmap string PopulatedTagDoc) :=
  foldl (λ (acc : Outcome (gmap string PopulatedTagDoc)) '(tag, noteIds),
           obind acc (λ acc,
             match tagMap storage !! tag with
             | None => Threw TypeError
             | Some t =>
               Returned (<[tag := withTagNoteIdSet
                                    (tagNoteIdSet t ∖ list_to_set noteIds) t]> acc)
             end))
    (Returned ∅) affected.

Definition removeFolder (storageId pathname : string) : M World unit := λ w,
  match storageMap w !! storageId with
  | None => (Returned tt, w)
  | Some storage =>
    (awaitWrite (db storage) (db_removeFolder pathname);;;
     (if startsWith (location w +:+ "/")
           ("/app/storages/" +:+ storageId +:+ "/notes" +:+ pathname +:+ "/")
      then routerReplace
             ("/app/storages/" +:+ storageId +:+ "/notes" +:+ getParentFolderPathname pathname)
      else ret tt);;;
     let deletedFolderPathnames :=
       pathname :: List.filter (λ aPathname, startsWith aPathname (pathname +:+ "/"))
                     (folderKeys storage) in
     let modifiedNotes : gmap string NoteDoc :=
       setTrashed true <$>
         filter (λ kn, includes deletedFolderPathnames (folderPathname kn.2) = true)
           (noteMap storage) in
     let affectedTagIdAndNotesIdMap :=
       affectedTags deletedFolderPathnames (map_to_list (noteMap storage)) in
     let* modifiedTags :=
       liftOutcome (untagAffected storage (map_to_list affectedTagIdAndNotesIdMap)) in
     setStorageMap
       (draftSeq
          (draftForEach deletedFolderPathnames (λ aPathname,
             draftAt storageId (λ ds, set_folderMap (delete aPathname (folderMap ds)) ds)))
          (draftSeq
             (draftAt storageId (λ ds, set_noteMap (modifiedNotes ∪ noteMap ds) ds))
             (draftAt storageId (λ ds, set_tagMap (modifiedTags ∪ tagMap ds) ds))));;;
     queueSyncingStorage storageId autoSyncDebounceWaitingTime) w
  end.

Definition createNote (storageId : string) (noteProps : NoteProps)
  : M World (option NoteDoc) := λ w,
  match storageMap w !! storageId with
  | None => (Returned None, w)
  | Some storage =>
    (let* created := awaitWrite (db storage) (db_createNote noteProps) in
     let noteDoc := populate storageId created in
     let* parentFoldersToRefresh :=
       awaitRead (db storage)
         (db_getFoldersByPathnames
            (parentFolderPathnamesToCheck storage (folderPathname noteDoc))) in
     let* folder := folderWithNote storage noteDoc in
     let* modifiedTags := tagsWithNote storage noteDoc in
     setStorageMap
       (draftSeq
          (draftAt storageId (λ ds,
             set_noteMap (<[_id noteDoc := noteDoc]> (noteMap ds)) ds))
          (draftSeq
             (draftForEach parentFoldersToRefresh (λ folder,
                let aPathname := folder_pathname folder in
                draftAt storageId (λ ds,
                  set_folderMap
                    (<[aPathname := Some (populateFolder (Some folder) aPathname ∅)]>
                       (folderMap ds)) ds)))
             (draftSeq
                (draftAt storageId (λ ds,
                   set_folderMap (<[folderPathname noteDoc := Some folder]> (folderMap ds)) ds))
                (draftAt storageId (set_tagMap (modifiedTags ∪ tagMap storage))))));;;
     queueSyncingStorage storageId autoSyncDebounceWaitingTime;;;
     ret (Some noteDoc)) w
  end.

Definition updateNote (storageId noteId : string) (noteProps : NoteProps)
  : M World (option NoteDoc) := λ w,
  match storageMap w !! storageId with
  | None => (Returned None, w)
  | Some storage =>
    (let* previous := awaitRead (db storage) (db_getNote noteId) in
     let* updatedNoteDoc := awaitWrite (db storage) (db_updateNote noteId noteProps) in
     match updatedNoteDoc with
     | None => ret None
     | Some updatedNoteDoc =>
       let noteDoc := populate storageId updatedNoteDoc in
       let previousNoteDoc := default noteDoc previous in
       let folderPathnameIsChanged :=
         negb (String.eqb (folderPathname previousNoteDoc) (folderPathname noteDoc)) in
       let refreshPrevious : list PopulatedFolderDoc :=
         if folderPathnameIsChanged
         then match folderOf storage (folderPathname previousNoteDoc) with
              | Some previousFolder =>
                [withNoteIdSet (noteIdSet previousFolder ∖ {[ noteId ]}) previousFolder]
              | None => []
              end
         else [] in
       let* parents :=
         awaitRead (db storage)
           (db_getFoldersByPathnames
              (parentFolderPathnamesToCheck storage (folderPathname noteDoc))) in
       let refreshParents :=
         (λ folderDoc, populateFolder (Some folderDoc) (folder_pathname folderDoc) ∅)
           <$> parents in
       let* folder := folderWithNote storage noteDoc in
       let folderListToRefresh := refreshPrevious ++ refreshParents ++ [folder] in
       let* removedTags :=
         liftOutcome
           (match noteMap storage !! _id noteDoc with
            | None => Threw TypeError
            | Some indexed =>
              untagAll storage (_id noteDoc) (difference (tags indexed) (tags noteDoc))
            end) in
       let* modifiedTags := tagsWithNote storage noteDoc in
       setStorageMap
         (draftSeq
            (draftAt storageId (λ ds,
               set_noteMap (<[_id noteDoc := noteDoc]> (noteMap ds)) ds))
            (draftSeq
               (draftForEach folderListToRefresh (λ folderDoc,
                  draftAt storageId (λ ds,
                    set_folderMap (<[pf_pathname folderDoc := Some folderDoc]> (folderMap ds)) ds)))
               (draftAt storageId
                  (set_tagMap (modifiedTags ∪ (removedTags ∪ tagMap storage))))));;;
       queueSyncingStorage storageId autoSyncDebounceWaitingTime;;;
       ret (Some noteDoc)
     end) w
  end.


Definition moveNoteToOtherStorage
  (originalStorageId noteId targetStorageId targetFolderPathname : string)
  : M World unit := λ w,
  match storageMap w !! originalStorageId, storageMap w !! targetStorageId with
  | None, _ =>
    (Threw (Error "Original storage does not exist. Please refresh the app and try again."), w)
  | Some _, None =>
    (Threw (Error "Target storage does not exist. Please refresh the app and try again."), w)
  | Some originalStorage, Some targetStorage =>
    (let* originalNote := awaitRead (db originalStorage) (db_getNote noteId) in
     match originalNote with
     | None =>
       throw (Error "Target note does not exist. Please refresh the app and try again.")
     | Some originalNote =>
       let* created :=
         awaitWrite (db targetStorage)
           (db_createNote
              (mkNoteProps (Some (title originalNote)) (Some (content originalNote))
                 (Some (tags originalNote)) (Some targetFolderPathname)
                 (Some (data originalNote)))) in
       let newNote := populate (ns_id targetStorage) created in
       awaitWrite (db originalStorage) (db_purgeNote (_id originalNote));;;
       let modifiedTagsInOriginalStorage :=
         (λ tagDoc, withTagNoteIdSet (tagNoteIdSet tagDoc ∖ {[ _id originalNote ]}) tagDoc)
           <$> omap (λ tagName, tagMap originalStorage !! tagName) (tags originalNote) in
       let modifiedFolderInOriginalStorage :=
         (λ f, withNoteIdSet (noteIdSet f ∖ {[ _id originalNote ]}) f)
           <$> folderOf originalStorage (folderPathname originalNote) in
       let* targetFolder :=
         match folderOf targetStorage targetFolderPathname with
         | None =>
           let* fd := awaitRead (db targetStorage) (db_getFolder targetFolderPathname) in
           ret (populateFolder fd targetFolderPathname ∅)
         | Some f => ret f
         end in
       let newNoteIdSetForTargetFolder := noteIdSet targetFolder ∪ {[ _id newNote ]} in
       let* parentFoldersToRefresh :=
         awaitRead (db targetStorage)
           (db_getFoldersByPathnames
              (parentFolderPathnamesToCheck targetStorage targetFolderPathname)) in
       let modifiedFoldersInTargetStorage :=
         withNoteIdSet newNoteIdSetForTargetFolder targetFolder
         :: ((λ folderDoc, populateFolder (Some folderDoc) (folder_pathname folderDoc) ∅)
               <$> parentFoldersToRefresh) in
       let* modifiedTagsInTargetStorage :=
         promiseAll
           (λ tagName,
              match tagMap targetStorage !! tagName with
              | None =>
                let* td := awaitRead (db targetStorage) (db_getTag tagName) in
                ret (mkTag (tag_id <$> td) (Some tagName) {[ _id newNote ]})
              | Some tagDoc =>
                ret (withTagNoteIdSet (tagNoteIdSet tagDoc ∪ {[ _id newNote ]}) tagDoc)
              end)
           (tags newNote) in
       let modifiedNoteMapOfOriginalStorage :=
         delete (_id originalNote) (noteMap originalStorage) in
       setStorageMap
         (draftSeq
            (draftAt originalStorageId (set_noteMap modifiedNoteMapOfOriginalStorage))
            (draftSeq
               (match modifiedFolderInOriginalStorage with
                | Some f =>
                  draftAt originalStorageId (λ ds,
                    set_folderMap (<[pf_pathname f := Some f]> (folderMap ds)) ds)
                | None => draftSkip
                end)
               (draftSeq
                  (draftForEach modifiedTagsInOriginalStorage (λ tagDoc,
                     draftAt originalStorageId (λ ds,
                       set_tagMap (<[propertyKey (name tagDoc) := tagDoc]> (tagMap ds)) ds)))
                  (draftSeq
                     (draftAt targetStorageId (λ ds,
                        set_noteMap (<[_id newNote := newNote]> (noteMap ds)) ds))
                     (draftSeq
                        (draftForEach modifiedFoldersInTargetStorage (λ folderDoc,
                           draftAt targetStorageId (λ ds,
                             set_folderMap
                               (<[pf_pathname folderDoc := Some folderDoc]> (folderMap ds)) ds)))
                        (draftForEach modifiedTagsInTargetStorage (λ tagDoc,
                           draftAt targetStorageId (λ ds,
                             set_tagMap (<[propertyKey (name tagDoc) := tagDoc]> (tagMap ds))
                               ds))))))));;;
       queueSyncingStorage originalStorageId autoSyncDebounceWaitingTime;;;
       (if negb (String.eqb originalStorageId targetStorageId)
        then queueSyncingStorage targetStorageId autoSyncDebounceWaitingTime
        else ret tt)
     end) w
  end.

Definition trashNote (storageId noteId : string) : M World (option NoteDoc) := λ w,
  match storageMap w !! storageId with
  | None => (Returned None, w)
  | Some storage =>
    (let* updatedNoteDoc := awaitWrite (db storage) (db_trashNote noteId) in
     match updatedNoteDoc with
     | None => ret None
     | Some updatedNoteDoc =>
       let noteDoc := populate storageId updatedNoteDoc in
       let folder : option PopulatedFolderDoc :=
         (λ f, withNoteIdSet (noteIdSet f ∖ {[ _id noteDoc ]}) f)
           <$> folderOf storage (folderPathname noteDoc) in
       let modifiedTags : gmap string PopulatedTagDoc :=
         foldl (λ (acc : gmap string PopulatedTagDoc) (tag : string),
                  match tagMap storage !! tag with
                  | None => acc
                  | Some t =>
                    <[tag := withTagNoteIdSet (tagNoteIdSet t ∖ {[ _id noteDoc ]}) t]> acc
                  end)
           ∅ (tags noteDoc) in
       setStorageMap
         (draftAt storageId (λ ds,
            set_tagMap (modifiedTags ∪ tagMap storage)
              (set_folderMap (<[folderPathname noteDoc := folder]> (folderMap ds))
                 (set_noteMap (<[_id noteDoc := noteDoc]> (noteMap ds)) ds))));;;
       queueSyncingStorage storageId autoSyncDebounceWaitingTime;;;
       ret (Some noteDoc)
     end) w
  end.

Definition untrashNote (storageId noteId : string) : M World (option NoteDoc) := λ w,
  match storageMap w !! storageId with
  | None => (Returned None, w)
  | Some storage =>
    (let* untrashed := awaitWrite (db storage) (db_untrashNote noteId) in
     match untrashed with
     | None =>
       (* [noteDoc] is [{ storageId }]: its folder is read under the key
          [undefined], then [noteDoc.tags.map] throws *)
       (match folderOf storage "undefined" with
        | None => awaitRead (db storage) (db_getFolder "undefined");;; ret tt
        | Some _ => ret tt
        end);;;
       throw TypeError
     | Some untrashed =>
       let noteDoc := populate storageId untrashed in
       let* folder := folderWithNote storage noteDoc in
       let* modifiedTags := tagsWithNote storage noteDoc in
       setStorageMap
         (draftAt storageId (λ ds,
            set_tagMap (modifiedTags ∪ tagMap storage)
              (set_folderMap (<[folderPathname noteDoc := Some folder]> (folderMap ds))
                 (set_noteMap (<[_id noteDoc := noteDoc]> (noteMap ds)) ds))));;;
       queueSyncingStorage storageId autoSyncDebounceWaitingTime;;;
       ret (Some noteDoc)
     end) w
  end.

Definition purgeNote (storageId noteId : string) : M World unit := λ w,
  match storageMap w !! storageId with
  | None => (Returned tt, w)
  | Some storage =>
    (awaitWrite (db storage) (db_purgeNote noteId);;;
     match noteMap storage !! noteId with
     | None => throw TypeError
     | Some noteDoc =>
       let noteMap' := delete noteId (noteMap storage) in
       match folderOf storage (folderPathname noteDoc) with
       | None => throw TypeError
       | Some f =>
         let folder := withNoteIdSet (noteIdSet f ∖ {[ _id noteDoc ]}) f in
         let* modifiedTags := liftOutcome (untagAll storage (_id noteDoc) (tags noteDoc)) in
         setStorageMap
           (draftAt storageId (λ ds,
              set_tagMap (modifiedTags ∪ tagMap storage)
                (set_folderMap (<[folderPathname noteDoc := Some folder]> (folderMap ds))
                   (set_noteMap noteMap' ds))));;;
         queueSyncingStorage storageId autoSyncDebounceWaitingTime
       end
     end) w
  end.

Definition removeTag (storageId tag : string) : M World unit := λ w,
  match storageMap w !! storageId with
  | None => (Returned tt, w)
  | Some storage =>
    (awaitWrite (db storage) (db_removeTag tag);;;
     (if String.eqb (location w) ("/app/storages/" +:+ storageId +:+ "/tags/" +:+ tag)
      then routerReplace ("/app/storages/" +:+ storageId +:+ "/notes")
      else ret tt);;;
     let modifiedNotes : gmap string NoteDoc :=
       (λ note, setTags (List.filter (λ noteTag, negb (String.eqb noteTag tag)) (tags note)) note)
         <$> filter (λ kn, includes (tags kn.2) tag = true) (noteMap storage) in
     let newTagMap := delete tag (tagMap storage) in
     setStorageMap
       (draftAt storageId (λ ds,
          set_tagMap newTagMap (set_noteMap (modifiedNotes ∪ noteMap ds) ds)));;;
     queueSyncingStorage storageId autoSyncDebounceWaitingTime)
      w
  end.

(** ** What the registry relies on, and notions used in the statements

    The ids of tag documents are [TAG_ID_PREFIX] followed by the name of the
    tag, in the index and in what [getTag] returns; [getFoldersByPathnames]
    returns folders of the paths it was asked for. *)
Definition tagIdsFollowPrefix (s : NoteStorage) : Prop :=
  map_Forall (λ t e, pt_id e = Some (TAG_ID_PREFIX +:+ t)) (tagMap s).

Definition storeTagIdsFollowPrefix (d : D) : Prop :=
  ∀ t td, db_getTag t d = Returned (Some td) → tag_id td = TAG_ID_PREFIX +:+ t.

Definition storeReturnsRequestedFolders (d : D) : Prop :=
  ∀ l r, db_getFoldersByPathnames l d = Returned r →
    ∀ fd, fd ∈ r → folder_pathname fd ∈ l.

(** Every tag carried by a note of the index has an entry:
    [storage.tagMap[tag]!] is defined for it. *)
Definition tagsIndexed (s : NoteStorage) : Prop :=
  map_Forall (λ _ n, Forall (λ t, is_Some (tagMap s !! t)) (tags n)) (noteMap s).

(** The entry computed for a tag of a note: the ids filed so far and the
    note, under an id that is keyed back to the tag. *)
Definition tagEntryOk (s : NoteStorage) (n : NoteDoc) (t : string) (e : PopulatedTagDoc)
  : Prop :=
  tagNoteIdSet e = tagNoteIds s t ∪ {[ _id n ]}
  ∧ ∀ i, pt_id e = Some i → replace TAG_ID_PREFIX "" i = t.

(** The entries the parent loop of [createNote] writes. *)
Definition withParents (parents : list FolderDoc)
    (fm : gmap string (option PopulatedFolderDoc)) : gmap string (option PopulatedFolderDoc) :=
  foldl (λ fm fd,
           <[folder_pathname fd :=
               Some (populateFolder (Some fd) (folder_pathname fd) ∅)]> fm)
    fm parents.

(** The id is filed under no folder and no tag. *)
Definition notFiled (s : NoteStorage) (i : string) : Prop :=
  (∀ p, i ∉ folderNoteIds s p) ∧ (∀ t, i ∉ tagNoteIds s t).

(** The inner loop of [affectedTags]: [noteId] is pushed under every tag. *)
Definition pushUnder (noteId : string) (acc : gmap string (list string))
    (l : list string) : gmap string (list string) :=
  foldl (λ (acc : gmap string (list string)) (tag : string),
           <[tag := default [] (acc !! tag) ++ [noteId]]> acc) acc l.


End Registry.

Arguments World D : clear implicits.

(** ** The cross-index invariant

    Every note that is not trashed is filed under its folder and under each of
    its tags, and every id filed under a folder path or a tag is the id of a
    note that is not trashed and has that folder path or carries that tag. *)
Definition indexConsistent (s : NoteStorage) : Prop :=
  map_Forall (λ _ n,
      trashed n = false →
      _id n ∈ folderNoteIds s (folderPathname n)
      ∧ Forall (λ t, _id n ∈ tagNoteIds s t) (tags n))
    (noteMap s)
  ∧ map_Forall (λ p entry,
        set_Forall (λ i,
            from_option (λ n, trashed n = false ∧ folderPathname n = p) False
              (noteMap s !! i))
          (from_option noteIdSet ∅ entry))
      (folderMap s)
  ∧ map_Forall (λ t entry,
        set_Forall (λ i,
            from_option (λ n, trashed n = false ∧ t ∈ tags n) False (noteMap s !! i))
          (tagNoteIdSet entry))
      (tagMap s).

(** No key of [folderMap] is bound to [undefined]. *)
Definition folderMapDefined (s : NoteStorage) : Prop :=
  map_Forall (λ _ entry, is_Some entry) (folderMap s).

(** ** A reference document store *)

(** Modelled from the spec: the document store ([NoteDb]), the path helpers
    of [./utils] and [TAG_ID_PREFIX] are not among the sources.  [MemDb] is a
    store in memory that follows section 6 of the specification (notes,
    folders and tags kept by id, path and name; creating a note or a folder
    materialises the folder and its ancestors; removing a folder removes its
    descendants and trashes their notes).  It serves to run the registry on
    concrete inputs. *)
Record MemDb : Type := mkMemDb {
  m_notes : gmap string NoteDoc;
  m_folders : gmap string FolderDoc;
  m_tags : gmap string TagDoc;
  m_next : nat
}.

Fixpoint dropSegment (reversed : list ascii) : list ascii :=
  match reversed with
  | [] => []
  | c :: l => if Ascii.eqb c "/" then l else dropSegment l
  end.

(** [pathname.split('/').slice(0, -1).join('/')] *)
Definition mem_parent (p : string) : string :=
  string_of_list_ascii (rev (dropSegment (rev (list_ascii_of_string p)))).

Fixpoint mem_parents (fuel : nat) (p : string) : list string :=
  match fuel with
  | O => []
  | S n =>
    let q := mem_parent p in
    if String.eqb q "" then [] else q :: mem_parents n q
  end.

Definition mem_allParents (p : string) : list string := mem_parents (String.length p) p.

Definition mem_valid (p : string) : bool := String.prefix "/" p.

Definition mem_upsertFolders (p : string) (m : gmap string FolderDoc) : gmap string FolderDoc :=
  foldr (λ q m, match m !! q with
                | Some _ => m
                | None => <[q := mkFolderDoc ("folder:" +:+ q) q]> m
                end)
    m (p :: mem_allParents p).

Definition mem_upsertTags (l : list string) (m : gmap string TagDoc) : gmap string TagDoc :=
  foldr (λ t m, match m !! t with
                | Some _ => m
                | None => <[t := mkTagDoc ("tag:" +:+ t) None]> m
                end)
    m l.

Definition mem_under (p q : string) : bool :=
  String.eqb q p || String.prefix (p +:+ "/") q.

Definition mem_putNote (n : NoteDoc) (d : MemDb) : MemDb :=
  mkMemDb (<[_id n := n]> (m_notes d)) (mem_upsertFolders (folderPathname n) (m_folders d))
    (mem_upsertTags (tags n) (m_tags d)) (m_next d).

Definition mem_createNote (props : NoteProps) (d : MemDb) : Outcome NoteDoc * MemDb :=
  let n := mkNoteDoc ("note:" +:+ pretty (m_next d)) (default "" (p_title props))
             (default "" (p_content props)) (default [] (p_tags props))
             (default "/" (p_folderPathname props)) (default "{}" (p_data props))
             false None in
  (Returned n,
   mem_putNote n (mkMemDb (m_notes d) (m_folders d) (m_tags d) (S (m_next d)))).

Definition mem_updateNote (i : string) (props : NoteProps) (d : MemDb)
  : Outcome (option NoteDoc) * MemDb :=
  match m_notes d !! i with
  | None => (Returned None, d)
  | Some n =>
    let n' := mkNoteDoc (_id n) (default (title n) (p_title props))
                (default (content n) (p_content props)) (default (tags n) (p_tags props))
                (default (folderPathname n) (p_folderPathname props))
                (default (data n) (p_data props)) (trashed n) (storageId n) in
    (Returned (Some n'), mem_putNote n' d)
  end.

Definition mem_setTrashed (b : bool) (i : string) (d : MemDb)
  : Outcome (option NoteDoc) * MemDb :=
  match m_notes d !! i with
  | None => (Returned None, d)
  | Some n =>
    (Returned (Some (setTrashed b n)),
     mkMemDb (<[i := setTrashed b n]> (m_notes d)) (m_folders d) (m_tags d) (m_next d))
  end.

Definition mem_createFolder (p : string) (d : MemDb) : Outcome FolderDoc * MemDb :=
  if mem_valid p
  then
    let folders := mem_upsertFolders p (m_folders d) in
    (Returned (default (mkFolderDoc ("folder:" +:+ p) p) (folders !! p)),
     mkMemDb (m_notes d) folders (m_tags d) (m_next d))
  else (Threw (UnprocessableEntityError "pathname is invalid"), d).

Definition mem_removeFolder (p : string) (d : MemDb) : Outcome unit * MemDb :=
  (Returned tt,
   mkMemDb ((λ n, if mem_under p (folderPathname n) then setTrashed true n else n)
              <$> m_notes d)
     (filter (λ kf, mem_under p kf.1 = false) (m_folders d)) (m_tags d) (m_next d)).

Definition mem_removeTag (t : string) (d : MemDb) : Outcome unit * MemDb :=
  (Returned tt,
   mkMemDb ((λ n, setTags (List.filter (λ x, negb (String.eqb x t)) (tags n)) n)
              <$> m_notes d)
     (m_folders d) (delete t (m_tags d)) (m_next d)).

(** Modelled from the spec: the calls of the registry on [NoteDb], answered by
    [MemDb]; [TAG_ID_PREFIX] is the fixed prefix of tag ids that section 9 of
    the specification mentions. *)
#[export] Instance MemNoteDb : NoteDb MemDb := {|
  TAG_ID_PREFIX := "tag:";
  isFolderPathnameValid := mem_valid;
  getParentFolderPathname := mem_parent;
  getAllParentFolderPathnames := mem_allParents;
  db_init := λ d,
    (Returned tt,
     mkMemDb (m_notes d) (mem_upsertFolders "/" (m_folders d)) (m_tags d) (m_next d));
  db_getAllDocsMap := λ d, Returned (mkAllDocs (m_notes d) (m_folders d) (m_tags d));
  db_getNote := λ i d, Returned (m_notes d !! i);
  db_getFolder := λ p d, Returned (m_folders d !! p);
  db_getFoldersByPathnames := λ l d, Returned (omap (λ p, m_folders d !! p) l);
  db_getTag := λ t d, Returned (m_tags d !! t);
  db_findNotesByFolder := λ p d,
    Returned (List.filter (λ n, String.eqb (folderPathname n) p) (map_to_list (m_notes d)).*2);
  db_createFolder := mem_createFolder;
  db_removeFolder := mem_removeFolder;
  db_createNote := mem_createNote;
  db_updateNote := mem_updateNote;
  db_trashNote := mem_setTrashed true;
  db_untrashNote := mem_setTrashed false;
  db_purgeNote := λ i d,
    (Returned tt, mkMemDb (delete i (m_notes d)) (m_folders d) (m_tags d) (m_next d));
  db_removeTag := mem_removeTag
|}.

Definition mem_empty : MemDb := mkMemDb ∅ ∅ ∅ 0.

(** The world before any storage is opened, over the given stores: no
    storage in the map, no timer, no session, a signed-in user and automatic
    synchronisation switched on. *)
Definition initialWorld (st : string → MemDb) : World MemDb :=
  mkWorld ∅ st ∅ ∅ 0 [] true (Some "user") "/app".

(** Runs [m] and keeps the world it ends in. *)
Definition exec {S A : Type} (m : M S A) (w : S) : S := (m w).2.

(** As [createStorage] and [initialize] do for a storage descriptor: the
    storage is prepared and entered in the map under its id. *)
Definition openStorage (sd : NoteStorageData) : M (World MemDb) unit :=
  let* storage := prepareStorage sd in
  setStorageMap (λ prev, Returned (<[sd_id sd := storage]> prev)).

(** ** Concrete worlds *)


(** Note N1, filed under [/work] and tagged [urgent]. *)
Definition noteN1 : NoteDoc :=
  mkNoteDoc "N1" "title" "content" ["urgent"] "/work" "{}" false None.

(** Storage S holds N1 (folders [/] and [/work], tag [urgent]); storage T is
    empty.  Both are opened from their stores. *)
Definition worldST : World MemDb :=
  exec (openStorage (mkStorageData "T" "T" None))
    (exec (openStorage (mkStorageData "S" "S" None))
       (initialWorld (<["S" := mem_putNote noteN1 mem_empty]> (λ _, mem_empty)))).

(** [worldST] after a note N2 reached the store of S but not the index, as
    replication does before the [complete] event rebuilds the index. *)
Definition noteN2 : NoteDoc :=
  mkNoteDoc "N2" "remote" "" [] "/work" "{}" false None.

Definition worldStale : World MemDb :=
  set_stores (<["S" := mem_putNote noteN2 (stores worldST "S")]> (stores worldST)) worldST.

(** [worldST] after [removeFolder("S", "/work")]: N1 is trashed and [/work]
    has no entry any more. *)
Definition worldRemoved : World MemDb := exec (removeFolder "S" "/work") worldST.

(** [worldST] after [trashNote("S", "N1")]. *)
Definition worldTrashed : World MemDb := exec (trashNote "S" "N1") worldST.

(** Storage S with folders [/a], [/a/x] and [/b], and a note filed under
    [/a/x]. *)
Definition noteAX : NoteDoc :=
  mkNoteDoc "N1" "title" "content" [] "/a/x" "{}" false None.

Definition worldAB : World MemDb :=
  exec (openStorage (mkStorageData "S" "S" None))
    (initialWorld
       (<["S" := (mem_createFolder "/b" (mem_putNote noteAX mem_empty)).2]>
          (λ _, mem_empty))).

(** [worldST] with S linked to a cloud storage. *)
Definition worldLinked : World MemDb :=
  exec (linkStorage "S" (mkCloud 7 "cloud" None)) worldST.

(** Storage S with note N filed under [/x] and note M under [/x/y]; N
    carries the tag [a], M the tags [a] and [b]. *)
Definition noteN : NoteDoc := mkNoteDoc "N" "n" "" ["a"] "/x" "{}" false None.
Definition noteM : NoteDoc := mkNoteDoc "M" "m" "" ["a"; "b"] "/x/y" "{}" false None.

Definition worldXY : World MemDb :=
  exec (openStorage (mkStorageData "S" "S" None))
    (initialWorld
       (<["S" := mem_putNote noteM (mem_putNote noteN mem_empty)]> (λ _, mem_empty))).

(** A new note for S, in a folder that does not exist yet, with a tag that
    exists and one that does not. *)
Definition newNoteProps : NoteProps :=
  mkNoteProps (Some "new") (Some "text") (Some ["urgent"; "later"]) (Some "/work/drafts/old")
    (Some "{}").

(** A local change queues a sync, the timer fires, the replication completes
    at time 100, and another local change queues a sync. *)
Definition schedulerTrace : M (World MemDb) unit :=
  queueSyncingStorage "S" autoSyncDebounceWaitingTime;;;
  fireTimer 0;;;
  onSyncComplete 1 100;;;
  queueSyncingStorage "S" autoSyncDebounceWaitingTime.

(** The timers armed for a storage. *)
Definition timersOf {D : Type} (w : World D) (storageId : string) : gmap nat (string * N) :=
  filter (λ kv, kv.2.1 = storageId) (timers w).

(** ** The scheduler over every storage *)

Section SchedulerAll.
Context {D : Type} `{!NoteDb D}.

(** [Object.keys(storageMapRef.current)]; the order of the keys plays no
    part in what follows. *)
Definition storageIds (w : World D) : list string := (map_to_list (storageMap w)).*1.

(** [for (const a of l) { f(a) }] *)
Fixpoint forOf {S A : Type} (l : list A) (f : A → M S unit) : M S unit :=
  match l with
  | [] => ret tt
  | a :: l' => f a;;; forOf l' f
  end.

(** [queueSyncingAllStorage(delay?)]: a missing [delay] is the default of
    [queueSyncingStorage]. *)
Definition queueSyncingAllStorage (delay : option N) : M (World D) unit := λ w,
  forOf (storageIds w)
    (λ storageId, queueSyncingStorage storageId (default autoSyncIntervalTime delay)) w.

Definition cancelAllSyncingStorageQueue : M (World D) unit := λ w,
  forOf (storageIds w) cancelSyncingStorageQueue w.

(** The timer a storage map records for a storage. *)
Definition timerOf (m : gmap string NoteStorage) (sid : string) : option nat :=
  m !! sid ≫= syncTimer.

(** Every armed timer is the one its storage records. *)
Definition timersRecorded (w : World D) : Prop :=
  map_Forall (λ h sx, timerOf (storageMap w) sx.1 = Some h) (timers w).

(** The timer handles the storages record were handed out already. *)
Definition handlesBelow (w : World D) : Prop :=
  map_Forall (λ _ s, from_option (λ h, h < nextHandle w)%nat True (syncTimer s)) (storageMap w).

(** A computation that arms and clears no timer and leaves the recorded
    timers alone. *)
Definition quiet {A : Type} (m : M (World D) A) : Prop :=
  ∀ w, timers (m w).2 = timers w
     ∧ ∀ sid, timerOf (storageMap (m w).2) sid = timerOf (storageMap w) sid.

(** A computation that keeps [timersRecorded]. *)
Definition safe {A : Type} (m : M (World D) A) : Prop :=
  ∀ w, timersRecorded w → timersRecorded (m w).2.

(** A recipe that leaves the recorded timers alone. *)
Definition draftQuiet (d : Draft) : Prop :=
  ∀ m m', d m = Returned m' → ∀ sid, timerOf m' sid = timerOf m sid.

End SchedulerAll.

(** ** Further notions about paths and the index *)

(** [s.includes("$")] *)
Fixpoint includesDollar (s : string) : bool :=
  match s with
  | EmptyString => false
  | String c s' => Ascii.eqb c "$" || includesDollar s'
  end.

(** The entries of [noteMap] are keyed by the id of the note. *)
Definition keyedById (s : NoteStorage) : Prop :=
  map_Forall (λ k n, _id n = k) (noteMap s).

(** The entry under a folder path carries that path. *)
Definition folderEntriesKeyed (s : NoteStorage) : Prop :=
  map_Forall (λ p entry, from_option (λ f, pf_pathname f = p) True entry) (folderMap s).

(** The entry under a tag carries that tag as its [name]. *)
Definition tagEntriesNamed (s : NoteStorage) : Prop :=
  map_Forall (λ t e, name e = Some t) (tagMap s).

(** What [prepareStorage] dereferences: the folder and the tags of every
    note that is not trashed have a document. *)
Definition docsClosed (docs : AllDocsMap) : Prop :=
  map_Forall (λ _ n,
      trashed n = false →
      is_Some (adm_folderMap docs !! folderPathname n)
      ∧ Forall (λ t, is_Some (adm_tagMap docs !! t)) (tags n))
    (adm_noteMap docs).

(** The fields of a storage other than its folder and tag entries. *)
Definition sameShell (s s' : NoteStorage) : Prop :=
  ns_id s' = ns_id s ∧ ns_name s' = ns_name s ∧ cloudStorage s' = cloudStorage s
  ∧ noteMap s' = noteMap s ∧ db s' = db s ∧ syncTimer s' = syncTimer s ∧ sync s' = sync s.

(** The loop over the tags of one note. *)
Definition indexTags (i : string) (acc : Outcome NoteStorage) (tl : list string)
  : Outcome NoteStorage :=
  foldl (λ acc tagName,
           obind acc (λ storage,
             match tagMap storage !! tagName with
             | None => Threw TypeError
             | Some t =>
               Returned (set_tagMap
                 (<[tagName := withTagNoteIdSet (tagNoteIdSet t ∪ {[ i ]}) t]>
                    (tagMap storage)) storage)
             end))
    acc tl.

(** What one round of the loop of [prepareStorage] does to the index. *)
Definition indexedBy (n : NoteDoc) (st st' : NoteStorage) : Prop :=
  sameShell st st'
  ∧ (∀ p, folderNoteIds st' p
          = if decide (trashed n = false ∧ p = folderPathname n)
            then folderNoteIds st p ∪ {[ _id n ]} else folderNoteIds st p)
  ∧ (∀ t, tagNoteIds st' t
          = if decide (trashed n = false ∧ t ∈ tags n)
            then tagNoteIds st t ∪ {[ _id n ]} else tagNoteIds st t)
  ∧ (∀ p, folderOf st' p = None ↔ folderOf st p = None)
  ∧ (∀ t, tagMap st' !! t = None ↔ tagMap st !! t = None)
  ∧ (folderEntriesKeyed st → folderEntriesKeyed st')
  ∧ (folderMapDefined st → folderMapDefined st').

(** The entries the loop of [createFolder] writes: a created folder is
    entered, with no note, unless the captured storage has an entry for it. *)
Definition enterCreated (storage : NoteStorage) (aFolder : FolderDoc) (ds : NoteStorage)
  : NoteStorage :=
  match folderOf storage (folder_pathname aFolder) with
  | None =>
    set_folderMap
      (<[folder_pathname aFolder :=
           Some (populateFolder (Some aFolder) (folder_pathname aFolder) ∅)]> (folderMap ds)) ds
  | Some _ => ds
  end.

(** The folder paths [removeFolder] deletes from the index. *)
Definition deletedFolderPathnames (s : NoteStorage) (pathname : string) : list string :=
  pathname :: List.filter (λ aPathname, startsWith aPathname (pathname +:+ "/")) (folderKeys s).

Section MoveTags.
Context {D : Type} `{!NoteDb D}.

(** The callback [moveNoteToOtherStorage] maps over the tags of the new note. *)
Definition targetTag (targetStorage : NoteStorage) (newId : string) (tagName : string)
  : M (World D) PopulatedTagDoc :=
  match tagMap targetStorage !! tagName with
  | None =>
    let* td := awaitRead (db targetStorage) (db_getTag tagName) in
    ret (mkTag (tag_id <$> td) (Some tagName) {[ newId ]})
  | Some tagDoc => ret (withTagNoteIdSet (tagNoteIdSet tagDoc ∪ {[ newId ]}) tagDoc)
  end.

End MoveTags.

(** ** Further concrete worlds *)

(** A store whose note N1 names a folder and a tag that have no document. *)
Definition brokenStore : MemDb := mkMemDb {[ "N1" := noteN1 ]} ∅ ∅ 0.

(** The world before S is opened, over a store that holds N1. *)
Definition worldClosed : World MemDb :=
  initialWorld (<["S" := mem_putNote noteN1 mem_empty]> (λ _, mem_empty)).

Definition worldBroken : World MemDb :=
  initialWorld (<["S" := brokenStore]> (λ _, mem_empty)).

(** [worldST] with a sync queued for S. *)
Definition worldQueued : World MemDb :=
  exec (queueSyncingStorage "S" autoSyncDebounceWaitingTime) worldST.

(** [worldLinked] with a sync queued for S. *)
Definition worldLinkedQueued : World MemDb :=
  exec (queueSyncingStorage "S" autoSyncDebounceWaitingTime) worldLinked.

(** [worldLinked] with a replication of S in flight. *)
Definition worldSyncing : World MemDb := exec (syncStorage "S" false) worldLinked.
Definition worldSyncingSilently : World MemDb := exec (syncStorage "S" true) worldLinked.

(** [worldSyncing] after S left the map while its replication runs. *)
Definition worldOrphan : World MemDb :=
  set_storageMap (delete "S" (storageMap worldSyncing)) worldSyncing.

(** N1 moved to [/inbox] and re-tagged [later]. *)
Definition refileProps : NoteProps :=
  mkNoteProps None None (Some ["later"]) (Some "/inbox") None.

(** A note for [/work], tagged [urgent]. *)
Definition workNoteProps : NoteProps :=
  mkNoteProps (Some "title") (Some "content") (Some ["urgent"]) (Some "/work") (Some "{}").

(** Storage S opened from a store with the folders [/] and [/work] and
    nothing else; storage T is empty. *)
Definition worldFresh : World MemDb :=
  exec (openStorage (mkStorageData "T" "T" None))
    (exec (openStorage (mkStorageData "S" "S" None))
       (initialWorld (<["S" := (mem_createFolder "/work" mem_empty).2]> (λ _, mem_empty)))).

(** [worldFresh] after [createNote("S", workNoteProps)]: S holds the note
    [note:0] under [/work], tagged [urgent]. *)
Definition worldCreated : World MemDb := exec (createNote "S" workNoteProps) worldFresh.

(** [worldST] after [createNote("S", newNoteProps)]. *)
Definition worldNewNote : World MemDb := exec (createNote "S" newNoteProps) worldST.

(** * Properties *)

#[export] Instance from_option_False_dec {A : Type} (P : A → Prop)
  `{!∀ x, Decision (P x)} (o : option A) : Decision (from_option P False o).
Proof. destruct o; simpl; apply _. Defined.

#[export] Instance indexConsistent_dec (s : NoteStorage) : Decision (indexConsistent s).
Proof. unfold indexConsistent. apply _. Defined.

#[export] Instance folderMapDefined_dec (s : NoteStorage) : Decision (folderMapDefined s).
Proof. unfold folderMapDefined. apply _. Defined.

#[export] Instance from_option_True_dec {A : Type} (P : A → Prop)
  `{!∀ x, Decision (P x)} (o : option A) : Decision (from_option P True o).
Proof. destruct o; simpl; apply _. Defined.

#[export] Instance keyedById_dec (s : NoteStorage) : Decision (keyedById s).
Proof. unfold keyedById. apply _. Defined.

#[export] Instance folderEntriesKeyed_dec (s : NoteStorage) : Decision (folderEntriesKeyed s).
Proof. unfold folderEntriesKeyed. apply _. Defined.

#[export] Instance tagEntriesNamed_dec (s : NoteStorage) : Decision (tagEntriesNamed s).
Proof. unfold tagEntriesNamed. apply _. Defined.

#[export] Instance docsClosed_dec (docs : AllDocsMap) : Decision (docsClosed docs).
Proof. unfold docsClosed. apply _. Defined.

#[export] Instance timersRecorded_dec {D : Type} (w : World D) : Decision (timersRecorded w).
Proof. unfold timersRecorded. apply _. Defined.

#[export] Instance handlesBelow_dec {D : Type} (w : World D) : Decision (handlesBelow w).
Proof. unfold handlesBelow. apply _. Defined.

Section Proofs.
Context {D : Type} `{!NoteDb D}.
Implicit Types (w : World D) (s storage : NoteStorage).

(** ** The trailing [queueSyncingStorage] of an operation

    It always returns, and it touches the [syncTimer] of one storage and the
    table of timers only. *)
Lemma queueSyncingStorage_index (sid : string) (delay : N) w :
  ∃ w', queueSyncingStorage sid delay w = (Returned tt, w')
    ∧ stores w' = stores w
    ∧ toasts w' = toasts w
    ∧ location w' = location w
    ∧ ∀ k, (storageMap w' !! k = None ↔ storageMap w !! k = None)
         ∧ ∀ s, storageMap w !! k = Some s →
             ∃ s', storageMap w' !! k = Some s'
               ∧ noteMap s' = noteMap s ∧ folderMap s' = folderMap s
               ∧ tagMap s' = tagMap s ∧ cloudStorage s' = cloudStorage s
               ∧ sync s' = sync s ∧ db s' = db s.
Proof.
  unfold queueSyncingStorage.
  destruct (enableAutoSync w); simpl.
  2:{ eexists; split; [reflexivity|]. repeat split; eauto 10. }
  destruct (storageMap w !! sid) as [st|] eqn:Hsid.
  2:{ eexists; split; [reflexivity|]. repeat split; eauto 10. }
  assert (Hgen : ∀ w0, storageMap w0 = storageMap w →
    ∀ h k, ((<[sid := set_syncTimer (Some h) st]> (storageMap w0)) !! k = None
              ↔ storageMap w !! k = None)
         ∧ ∀ s, storageMap w !! k = Some s →
             ∃ s', (<[sid := set_syncTimer (Some h) st]> (storageMap w0)) !! k = Some s'
               ∧ noteMap s' = noteMap s ∧ folderMap s' = folderMap s
               ∧ tagMap s' = tagMap s ∧ cloudStorage s' = cloudStorage s
               ∧ sync s' = sync s ∧ db s' = db s).
  { intros w0 Hw0 h k. rewrite Hw0. destruct (decide (sid = k)) as [->|Hne].
    - rewrite lookup_insert_eq. split.
      + split; [discriminate | congruence].
      + intros s Hs. rewrite Hsid in Hs. injection Hs as <-.
        eexists; split; [reflexivity|]. by destruct st.
    - rewrite lookup_insert_ne by done. split; [done|]. intros s Hs. eauto 10. }
  destruct (syncTimer st) as [h0|]; cbn.
  - eexists; split; [reflexivity|]. cbn. repeat split; try apply (Hgen w eq_refl).
  - eexists; split; [reflexivity|]. cbn. repeat split; try apply (Hgen w eq_refl).
Qed.

(** ** Operations on a note or storage that is missing *)

(** C7.  [updateNote] does not tolerate a note that the store updates but the
    index does not hold: whenever [storage.db.updateNote] returns the updated
    document and [storage.noteMap] has no entry under its id, [updateNote]
    throws (a [TypeError] at [storage.noteMap[noteDoc._id]!.tags], unless a
    read of the store rejects first) and commits nothing to the index. *)
Theorem updateNote_throws_when_note_not_indexed w (sid noteId : string) (props : NoteProps)
    s (prev : option NoteDoc) (upd : NoteDoc) (d' : D) :
  storageMap w !! sid = Some s →
  db_getNote noteId (stores w (db s)) = Returned prev →
  db_updateNote noteId props (stores w (db s)) = (Returned (Some upd), d') →
  noteMap s !! _id upd = None →
  ∃ e w', updateNote sid noteId props w = (Threw e, w')
    ∧ storageMap w' = storageMap w.
Proof.
  intros Hs Hget Hupd Habsent.
  unfold updateNote. rewrite Hs.
  unfold bind at 1. unfold awaitRead at 1. rewrite Hget.
  unfold bind at 1. unfold awaitWrite at 1. rewrite Hupd.
  unfold bind at 1. unfold awaitRead at 1.
  destruct (db_getFoldersByPathnames _ _) as [parents|e]; [|by eexists _, _; split].
  unfold bind at 1.
  set (w1 := set_stores _ w).
  assert (Hfolder : ∀ n, (∃ f, folderWithNote s n w1 = (Returned f, w1))
                       ∨ (∃ e, folderWithNote s n w1 = (Threw e, w1))).
  { intros n. unfold folderWithNote. destruct (folderOf s (folderPathname n)).
    - left. by eexists.
    - unfold bind, awaitRead. destruct (db_getFolder _ _); [left | right]; by eexists. }
  destruct (Hfolder (populate sid upd)) as [[f Hf]|[e Hf]]; rewrite Hf; [|by eexists _, _; split].
  unfold bind at 1. unfold liftOutcome at 1.
  change (_id (populate sid upd)) with (_id upd). rewrite Habsent.
  by eexists _, _; split.
Qed.


(** ** Folder entries *)

(** C10.  [trashNote] on a note whose folder has no entry binds the folder
    path to [undefined]: after it returns, [folderMap] has the key and no
    entry under it. *)
Theorem trashNote_binds_undefined w (sid noteId : string) s (upd : NoteDoc) (d' : D) :
  storageMap w !! sid = Some s →
  db_trashNote noteId (stores w (db s)) = (Returned (Some upd), d') →
  folderOf s (folderPathname upd) = None →
  ∃ w' s', trashNote sid noteId w = (Returned (Some (populate sid upd)), w')
    ∧ storageMap w' !! sid = Some s'
    ∧ folderMap s' !! folderPathname upd = Some None
    ∧ ¬ folderMapDefined s'.
Proof.
  intros Hs Hdb Hfolder.
  unfold trashNote. rewrite Hs.
  unfold bind at 1. unfold awaitWrite. rewrite Hdb.
  unfold bind at 1. unfold setStorageMap at 1, draftAt. cbn [storageMap set_stores].
  rewrite Hs.
  unfold bind at 1. match goal with |- context [queueSyncingStorage ?a ?b ?w1] =>
    destruct (queueSyncingStorage_index a b w1) as (w' & Hq & _ & _ & _ & Hidx) end.
  rewrite Hq. unfold ret.
  destruct (Hidx sid) as [_ Hsome].
  edestruct Hsome as (s' & Hs' & _ & Hfm & _).
  { cbn. apply lookup_insert_eq. }
  exists w', s'. split; [reflexivity|]. split; [done|].
  assert (Hu : folderMap s' !! folderPathname upd = Some None).
  { rewrite Hfm. cbn. rewrite Hfolder. cbn. apply lookup_insert_eq. }
  split; [done|].
  intros Hdef. apply Hdef in Hu. by destruct Hu.
Qed.

(** ** The scheduler *)

(** A second [queueSyncingStorage] clears the timer of the first and arms
    one in its place. *)
Lemma queueSyncingStorage_replaces_timer w (sid : string) (delay : N) s (h0 : nat) :
  enableAutoSync w = true →
  storageMap w !! sid = Some s →
  syncTimer s = Some h0 →
  ∃ w' s', queueSyncingStorage sid delay w = (Returned tt, w')
    ∧ storageMap w' !! sid = Some s'
    ∧ syncTimer s' = Some (nextHandle w)
    ∧ timers w' = <[nextHandle w := (sid, delay)]> (delete h0 (timers w)).
Proof.
  intros Hauto Hs Htimer. unfold queueSyncingStorage. rewrite Hauto, Hs, Htimer. cbn.
  eexists _, _. split; [reflexivity|]. cbn. split; [apply lookup_insert_eq|done].
Qed.

(** X20.  After [cancelSyncingStorageQueue] the timer of the storage is
    gone: the call returns, the handle is no longer armed, no replication is
    touched, and the expiry of that handle does nothing. *)
Lemma cancelSyncingStorageQueue_disarms w (sid : string) s (h : nat) :
  storageMap w !! sid = Some s →
  syncTimer s = Some h →
  ∃ w', cancelSyncingStorageQueue sid w = (Returned tt, w')
    ∧ timers w' !! h = None
    ∧ sessions w' = sessions w
    ∧ fireTimer h w' = (Returned tt, w').
Proof.
  intros Hs Htimer. unfold cancelSyncingStorageQueue. rewrite Hs, Htimer. cbn.
  eexists. split; [reflexivity|]. cbn.
  split; [apply lookup_delete_eq|]. split; [done|].
  unfold fireTimer. cbn. by rewrite lookup_delete_eq.
Qed.

(** [syncStorage] does nothing for a storage that has a replication in
    flight or no cloud storage. *)
Lemma syncStorage_refused w (sid : string) (silent : bool) s :
  storageMap w !! sid = Some s →
  is_Some (sync s) ∨ cloudStorage s = None →
  syncStorage sid silent w = (Returned tt, w).
Proof.
  intros Hs Hrefuse. unfold syncStorage.
  destruct (user w); [|done]. rewrite Hs.
  destruct (cloudStorage s); [|done].
  destruct Hrefuse as [[h ->]|?]; done.
Qed.

(** ** The [error] event of a replication *)

Lemma unlinkStorage_run (sid : string) w s :
  storageMap w !! sid = Some s →
  unlinkStorage sid w
  = (Returned tt, set_storageMap (<[sid := set_cloudStorage None s]> (storageMap w)) w).
Proof. intros Hs. unfold unlinkStorage, setStorageMap. by rewrite Hs. Qed.

(** C8.  A replication that fails with status 409 and was not started
    silently surfaces two notices, "Size Limit" and then "Not Found": the
    [case 409] of the handler runs into [case 404].  The storage is unlinked
    and left without a session. *)
Theorem syncError_409_pushes_two_notices w (h : nat) (sess : Session) s :
  sessions w !! h = Some sess →
  sess_silent sess = false →
  storageMap w !! sess_storageId sess = Some s →
  ∃ w' s', onSyncError h (Some 409%N) w = (Returned tt, w')
    ∧ toasts w' = toasts w ++
        [mkToast "Size Limit"
           "You have reached your usage limit. Please upgrade your subscription.";
         mkToast "Not Found" "The cloud storage does not exist anymore."]
    ∧ storageMap w' !! sess_storageId sess = Some s'
    ∧ cloudStorage s' = None ∧ sync s' = None.
Proof.
  intros Hsess Hsilent Hs.
  unfold onSyncError. rewrite Hsess, Hsilent.
  cbn. unfold bind; cbn.
  erewrite unlinkStorage_run by exact Hs. cbn.
  erewrite unlinkStorage_run by apply lookup_insert_eq. cbn.
  unfold setStorageMap, draftAt. cbn. rewrite lookup_insert_eq.
  eexists _, _. split; [reflexivity|]. cbn.
  rewrite <- app_assoc. split; [reflexivity|].
  rewrite lookup_insert_eq. done.
Qed.

(** X24.  A replication that fails with status 404 and was not started
    silently surfaces the one notice [Not Found]; the storage is unlinked
    and left without a replication. *)
Lemma syncError_404_pushes_one_notice w (h : nat) (sess : Session) s :
  sessions w !! h = Some sess →
  sess_silent sess = false →
  storageMap w !! sess_storageId sess = Some s →
  ∃ w' s', onSyncError h (Some 404%N) w = (Returned tt, w')
    ∧ toasts w' = toasts w ++
        [mkToast "Not Found" "The cloud storage does not exist anymore."]
    ∧ storageMap w' !! sess_storageId sess = Some s'
    ∧ cloudStorage s' = None ∧ sync s' = None.
Proof.
  intros Hsess Hsilent Hs.
  unfold onSyncError. rewrite Hsess, Hsilent.
  cbn. unfold bind; cbn.
  erewrite unlinkStorage_run by exact Hs. cbn.
  unfold setStorageMap, draftAt. cbn. rewrite lookup_insert_eq.
  eexists _, _. split; [reflexivity|]. cbn.
  split; [reflexivity|].
  rewrite lookup_insert_eq. done.
Qed.

(** X25.  A replication that fails with a status other than 409 and 404
    (or with none) and was not started silently surfaces the one notice
    [Sync Error]; the storage keeps its cloud storage and is left without a
    replication. *)
Lemma syncError_other_keeps_link w (h : nat) (sess : Session) s (status : option N) :
  sessions w !! h = Some sess →
  sess_silent sess = false →
  storageMap w !! sess_storageId sess = Some s →
  status ≠ Some 409%N → status ≠ Some 404%N →
  ∃ w' s', onSyncError h status w = (Returned tt, w')
    ∧ toasts w' = toasts w ++
        [mkToast "Sync Error"
           "Failed to sync the storage. Please check Dev Tool's console to learn more information"]
    ∧ storageMap w' !! sess_storageId sess = Some s'
    ∧ cloudStorage s' = cloudStorage s ∧ sync s' = None.
Proof.
  intros Hsess Hsilent Hs H409 H404.
  unfold onSyncError. rewrite Hsess, Hsilent.
  assert (Hswitch :
    match status with
    | Some 409%N => case409 (sess_storageId sess) false;;; case404 (sess_storageId sess) false
    | Some 404%N => case404 (sess_storageId sess) false
    | _ => caseDefault false
    end = (caseDefault false : M (World D) unit)).
  { destruct status as [n|]; [|done].
    destruct n as [|p]; [done|].
    do 9 (destruct p as [p|p|]; try done). }
  rewrite Hswitch.
  cbn. unfold bind; cbn.
  unfold setStorageMap, draftAt. cbn. rewrite Hs.
  eexists _, _. split; [reflexivity|]. cbn.
  split; [reflexivity|].
  rewrite lookup_insert_eq. done.
Qed.

(** X26.  A replication started silently surfaces no notice when it
    fails, whatever the status. *)
Lemma syncError_silent_pushes_nothing w (h : nat) (sess : Session) (status : option N) w' :
  sessions w !! h = Some sess →
  sess_silent sess = true →
  onSyncError h status w = (Returned tt, w') →
  toasts w' = toasts w.
Proof.
  intros Hsess Hsilent.
  unfold onSyncError. rewrite Hsess, Hsilent.
  assert (Hunlink : ∀ sid w0, ∃ w1, unlinkStorage sid w0 = (Returned tt, w1)
                     ∧ toasts w1 = toasts w0).
  { intros sid w0. unfold unlinkStorage, setStorageMap.
    destruct (storageMap w0 !! sid); by eexists. }
  assert (Hset : ∀ sid w0 o w1,
    setStorageMap (draftAt sid (set_sync None)) w0 = (o, w1) → toasts w1 = toasts w0).
  { intros sid w0 o w1. unfold setStorageMap, draftAt.
    destruct (storageMap w0 !! sid); intros [= <- <-]; done. }
  unfold bind at 1. cbn [endSession].
  set (w0 := set_sessions _ w).
  assert (Hw0 : toasts w0 = toasts w) by done. clearbody w0.
  unfold case409, case404, caseDefault. cbn [negb].
  destruct status as [n|].
  2:{ unfold bind, ret. intros Hrun. apply Hset in Hrun. congruence. }
  destruct (decide (n = 409%N)) as [->|]; [|destruct (decide (n = 404%N)) as [->|]].
  - unfold bind, ret.
    destruct (Hunlink (sess_storageId sess) w0) as (w1 & -> & Hw1).
    destruct (Hunlink (sess_storageId sess) w1) as (w2 & -> & Hw2).
    intros Hrun. apply Hset in Hrun. congruence.
  - unfold bind, ret.
    destruct (Hunlink (sess_storageId sess) w0) as (w1 & -> & Hw1).
    intros Hrun. apply Hset in Hrun. congruence.
  - assert (Hswitch :
      match n with
      | 409%N => (ret tt;;; unlinkStorage (sess_storageId sess));;;
                 (ret tt;;; unlinkStorage (sess_storageId sess))
      | 404%N => ret tt;;; unlinkStorage (sess_storageId sess)
      | _ => ret tt
      end = (ret tt : M (World D) unit)).
    { destruct n as [|p]; [done|].
      do 9 (destruct p as [p|p|]; try done). }
    rewrite Hswitch. unfold bind, ret. intros Hrun. apply Hset in Hrun. congruence.
Qed.

(** ** Creating and purging a note *)

(** [replace] strips a leading [TAG_ID_PREFIX]. *)
Lemma prefix_app (p t : string) : String.prefix p (p +:+ t) = true.
Proof.
  induction p as [|a p IH]; simpl; [by destruct t|].
  destruct (ascii_dec a a); [done|congruence].
Qed.

Lemma string_drop_app (p t : string) : string_drop (String.length p) (p +:+ t) = t.
Proof. induction p as [|a p IH]; simpl; [by destruct t|done]. Qed.

Lemma replace_eq (pat rep s : string) :
  replace pat rep s
  = if String.prefix pat s then rep +:+ string_drop (String.length pat) s
    else match s with
         | EmptyString => EmptyString
         | String c s' => String c (replace pat rep s')
         end.
Proof. by destruct s. Qed.

Lemma replace_prefix (p t : string) : replace p "" (p +:+ t) = t.
Proof. by rewrite replace_eq, prefix_app, string_drop_app. Qed.

Lemma foldl_obind_Threw {A B : Type} (f : A → B → Outcome A) (e : JsError) (l : list B) :
  foldl (λ acc x, obind acc (λ a, f a x)) (Threw e) l = Threw e.
Proof. induction l; simpl; auto. Qed.

Lemma draftAt_run (sid : string) (f : NoteStorage → NoteStorage)
    (m : gmap string NoteStorage) s :
  m !! sid = Some s → draftAt sid f m = Returned (<[sid := f s]> m).
Proof. intros Hs. unfold draftAt. by rewrite Hs. Qed.

Lemma draftForEach_at {A : Type} (l : list A) (sid : string)
    (g : A → NoteStorage → NoteStorage) (m : gmap string NoteStorage) s :
  m !! sid = Some s →
  draftForEach l (λ a, draftAt sid (g a)) m
  = Returned (<[sid := foldl (λ s a, g a s) s l]> m).
Proof.
  intros Hs. unfold draftForEach.
  assert (Hgen : ∀ d0 m1 s1,
    d0 m = Returned m1 → m1 !! sid = Some s1 →
    foldl (λ d a, draftSeq d (draftAt sid (g a))) d0 l m
    = Returned (<[sid := foldl (λ s a, g a s) s1 l]> m1)).
  { induction l as [|a l IH]; intros d0 m1 s1 Hd0 Hm1; simpl.
    - by rewrite insert_id.
    - erewrite (IH _ (<[sid := g a s1]> m1) (g a s1)).
      + by rewrite insert_insert_eq.
      + unfold draftSeq. rewrite Hd0. simpl. by apply draftAt_run.
      + apply lookup_insert_eq. }
  by apply Hgen.
Qed.



Lemma tagWithNote_inv s (n : NoteDoc) (t : string) w o w' :
  tagIdsFollowPrefix s →
  storeTagIdsFollowPrefix (stores w (db s)) →
  tagWithNote s n t w = (o, w') →
  w' = w ∧ ∀ e, o = Returned e → tagEntryOk s n t e.
Proof.
  intros Hidx Hstore. unfold tagWithNote, tagEntryOk, tagNoteIds.
  destruct (tagMap s !! t) as [e0|] eqn:Ht.
  - intros [= <- <-]. split; [done|]. intros e [= <-]. cbn. split; [done|].
    intros i Hi. rewrite (Hidx _ _ Ht) in Hi. injection Hi as <-. apply replace_prefix.
  - unfold bind, awaitRead, ret.
    destruct (db_getTag t (stores w (db s))) as [td|err] eqn:Hget.
    + intros [= <- <-]. split; [done|]. intros e [= <-]. cbn.
      split; [by rewrite (left_id_L ∅ (∪))|].
      intros i Hi. destruct td as [td|]; [|done]. cbn in Hi. injection Hi as <-.
      rewrite (Hstore _ _ Hget). apply replace_prefix.
    + intros [= <- <-]. split; [done|]. intros e [=].
Qed.

Lemma promiseAll_tagWithNote s (n : NoteDoc) (l : list string) w o w' :
  tagIdsFollowPrefix s →
  storeTagIdsFollowPrefix (stores w (db s)) →
  promiseAll (tagWithNote s n) l w = (o, w') →
  w' = w ∧ ∀ r, o = Returned r → Forall2 (tagEntryOk s n) l r.
Proof.
  intros Hidx Hstore. revert o w'.
  induction l as [|t l IH]; intros o w'; simpl.
  - intros [= <- <-]. split; [done|]. intros r [= <-]. constructor.
  - destruct (tagWithNote s n t w) as [o1 w1] eqn:H1.
    apply tagWithNote_inv in H1 as [-> He]; [|done..].
    destruct (promiseAll (tagWithNote s n) l w) as [o2 w2] eqn:H2.
    destruct (IH _ _ eq_refl) as [-> Hr].
    intros [= <- <-]. split; [done|].
    intros r Hret. destruct o1 as [e|]; [|done]. destruct o2 as [r2|]; [|done].
    injection Hret as <-. constructor; auto.
Qed.

Lemma keyTagsById_spec s (n : NoteDoc) (l : list string) (r : list PopulatedTagDoc)
    (m : gmap string PopulatedTagDoc) :
  Forall2 (tagEntryOk s n) l r →
  keyTagsById r = Returned m →
  ∀ t, (t ∈ l → ∃ e, m !! t = Some e ∧ tagNoteIdSet e = tagNoteIds s t ∪ {[ _id n ]})
     ∧ (t ∉ l → m !! t = None).
Proof.
  unfold keyTagsById. intros Hall.
  assert (Hgen : ∀ acc : gmap string PopulatedTagDoc,
    foldl (λ acc tag, obind acc (λ acc,
             match pt_id tag with
             | None => Threw TypeError
             | Some i => Returned (<[replace TAG_ID_PREFIX "" i := tag]> acc)
             end)) (Returned acc) r = Returned m →
    ∀ t, (t ∈ l → ∃ e, m !! t = Some e ∧ tagNoteIdSet e = tagNoteIds s t ∪ {[ _id n ]})
       ∧ (t ∉ l → m !! t = acc !! t)).
  { induction Hall as [|t0 e0 l r [Hset Hkey] Hall IH]; intros acc; simpl.
    - intros [= <-] t. split; [by intros ?%elem_of_nil|done].
    - destruct (pt_id e0) as [i|] eqn:Hid; simpl.
      2:{ by rewrite foldl_obind_Threw. }
      rewrite (Hkey _ eq_refl). intros Hfold t.
      destruct (IH _ Hfold t) as [Hin Hout].
      destruct (decide (t ∈ l)) as [Hl|Hl].
      + split; [by intros _; apply Hin|]. intros Hnot. exfalso. apply Hnot. by right.
      + split.
        * intros [->|?]%elem_of_cons; [|done].
          rewrite (Hout Hl), lookup_insert_eq. by eexists.
        * intros Hnot. rewrite (Hout Hl). apply lookup_insert_ne.
          intros ->. apply Hnot. by left. }
  intros Hfold t. destruct (Hgen ∅ Hfold t) as [Hin Hout].
  split; [done|]. intros Hnot. by rewrite (Hout Hnot).
Qed.

Lemma folderWithNote_inv s (n : NoteDoc) w o w' :
  folderWithNote s n w = (o, w') →
  w' = w ∧ ∀ f, o = Returned f →
    noteIdSet f = folderNoteIds s (folderPathname n) ∪ {[ _id n ]}.
Proof.
  unfold folderWithNote, folderNoteIds.
  destruct (folderOf s (folderPathname n)) as [f0|].
  - intros [= <- <-]. split; [done|]. by intros f [= <-].
  - unfold bind, awaitRead, ret. destruct (db_getFolder _ _).
    + intros [= <- <-]. split; [done|]. intros f [= <-]. cbn.
      by rewrite (left_id_L ∅ (∪)).
    + intros [= <- <-]. split; [done|]. by intros f [=].
Qed.


Lemma withParents_ids (parents : list FolderDoc) fm (p : string) :
  (∀ fd, fd ∈ parents →
     from_option noteIdSet ∅ (mjoin (fm !! folder_pathname fd)) = ∅) →
  from_option noteIdSet ∅ (mjoin (withParents parents fm !! p))
  = from_option noteIdSet ∅ (mjoin (fm !! p)).
Proof.
  unfold withParents. revert fm.
  induction parents as [|fd parents IH]; intros fm Hnone; simpl; [done|].
  rewrite IH.
  - destruct (decide (folder_pathname fd = p)) as [<-|Hne].
    + rewrite lookup_insert_eq. cbn. symmetry. apply Hnone. by left.
    + by rewrite lookup_insert_ne.
  - intros fd' Hin.
    destruct (decide (folder_pathname fd = folder_pathname fd')) as [Heq|Hne].
    + by rewrite Heq, lookup_insert_eq.
    + rewrite lookup_insert_ne by done. apply Hnone. by right.
Qed.

Lemma promiseAll_tagWithNote_world s (n : NoteDoc) (l : list string) w :
  (promiseAll (tagWithNote s n) l w).2 = w.
Proof.
  induction l as [|t l IH]; simpl; [done|].
  assert (H1 : (tagWithNote s n t w).2 = w).
  { unfold tagWithNote. destruct (tagMap s !! t); [done|].
    unfold bind, awaitRead, ret. by destruct (db_getTag _ _). }
  destruct (tagWithNote s n t w) as [o1 w1]. simpl in H1. subst w1.
  destruct (promiseAll (tagWithNote s n) l w) as [o2 w2]. simpl in IH. by subst w2.
Qed.

Lemma draftSeq_run (d1 d2 : Draft) (m m1 : gmap string NoteStorage) :
  d1 m = Returned m1 → draftSeq d1 d2 m = d2 m1.
Proof. intros H1. unfold draftSeq. by rewrite H1. Qed.

Lemma foldl_set_folderMap {A : Type} (l : list A) (k : A → string)
    (v : A → option PopulatedFolderDoc) s0 :
  let s' := foldl (λ s a, set_folderMap (<[k a := v a]> (folderMap s)) s) s0 l in
  folderMap s' = foldl (λ fm a, <[k a := v a]> fm) (folderMap s0) l
  ∧ noteMap s' = noteMap s0 ∧ tagMap s' = tagMap s0 ∧ db s' = db s0.
Proof.
  revert s0. induction l as [|a l IH]; intros s0; simpl; [done|].
  destruct (IH (set_folderMap (<[k a := v a]> (folderMap s0)) s0)) as (-> & -> & -> & ->).
  done.
Qed.

Lemma createNote_index w (sid : string) (props : NoteProps) s (noteDoc : NoteDoc) w1 :
  storageMap w !! sid = Some s →
  tagIdsFollowPrefix s →
  storeTagIdsFollowPrefix (stores w1 (db s)) →
  storeReturnsRequestedFolders (stores w1 (db s)) →
  createNote sid props w = (Returned (Some noteDoc), w1) →
  ∃ s1, storageMap w1 !! sid = Some s1
    ∧ db s1 = db s
    ∧ noteMap s1 = <[_id noteDoc := noteDoc]> (noteMap s)
    ∧ is_Some (folderOf s1 (folderPathname noteDoc))
    ∧ (∀ p, folderNoteIds s1 p
            = if decide (p = folderPathname noteDoc)
              then folderNoteIds s p ∪ {[ _id noteDoc ]} else folderNoteIds s p)
    ∧ (∀ t, t ∈ tags noteDoc → is_Some (tagMap s1 !! t))
    ∧ (∀ t, tagNoteIds s1 t
            = if decide (t ∈ tags noteDoc)
              then tagNoteIds s t ∪ {[ _id noteDoc ]} else tagNoteIds s t).
Proof.
  intros Hs Hidx Hstore Hfolders.
  unfold createNote. rewrite Hs.
  unfold bind at 1. unfold awaitWrite at 1.
  destruct (db_createNote props (stores w (db s))) as [[created|e] d1]; [|done].
  set (w0 := set_stores _ w).
  assert (Hw0 : storageMap w0 = storageMap w) by done.
  clearbody w0.
  set (nd := populate sid created).
  unfold bind at 1. unfold awaitRead at 1.
  destruct (db_getFoldersByPathnames _ (stores w0 (db s))) as [parents|e] eqn:Hparents;
    [|done].
  unfold bind at 1.
  destruct (folderWithNote s nd w0) as [[folder|e] w0'] eqn:Hfolder;
    apply folderWithNote_inv in Hfolder as [-> Hfolder]; [|done].
  specialize (Hfolder _ eq_refl).
  unfold bind at 1. unfold tagsWithNote. unfold bind at 1.
  pose proof (promiseAll_tagWithNote_world s nd (tags nd) w0) as Hworld.
  destruct (promiseAll (tagWithNote s nd) (tags nd) w0) as [[l|e] w0'] eqn:Htags;
    simpl in Hworld; subst w0'; [|done].
  unfold liftOutcome. destruct (keyTagsById l) as [m|e] eqn:Hkey; [|done].
  unfold bind at 1. unfold setStorageMap at 1.
  erewrite draftSeq_run; [|apply draftAt_run; rewrite Hw0; exact Hs].
  erewrite draftSeq_run; [|apply draftForEach_at, lookup_insert_eq].
  erewrite draftSeq_run; [|apply draftAt_run, lookup_insert_eq].
  erewrite draftAt_run; [|apply lookup_insert_eq].
  unfold bind at 1.
  match goal with |- context [queueSyncingStorage ?a ?b ?w2] =>
    destruct (queueSyncingStorage_index a b w2) as (w3 & Hq & Hst & _ & _ & Hmaps) end.
  rewrite Hq. unfold ret. intros [= <- <-].
  destruct (Hmaps sid) as [_ Hsome].
  edestruct Hsome as (s1 & Hs1 & Hnm & Hfm & Htm & _ & _ & Hdb).
  { cbn. apply lookup_insert_eq. }
  cbn in Hst. rewrite Hst in Hstore, Hfolders.
  apply promiseAll_tagWithNote in Htags as [_ Htags]; [|done..].
  specialize (Htags _ eq_refl).
  pose proof (keyTagsById_spec _ _ _ _ _ Htags Hkey) as Hm.
  cbn in Hnm, Hfm, Htm, Hdb.
  match type of Hfm with context [foldl ?f ?s0 parents] =>
    destruct (foldl_set_folderMap parents folder_pathname
                (λ fd, Some (populateFolder (Some fd) (folder_pathname fd) ∅)) s0)
      as (Hf1 & Hf2 & Hf3 & Hf4) end.
  cbn in Hf1, Hf2, Hf3, Hf4.
  exists s1. split; [done|]. split; [by rewrite Hdb, Hf4|].
  split; [by rewrite Hnm, Hf2|].
  split.
  { unfold folderOf. rewrite Hfm, lookup_insert_eq. by eexists. }
  split.
  { intros p. unfold folderNoteIds, folderOf. rewrite Hfm.
    destruct (decide (p = folderPathname nd)) as [->|Hne].
    - by rewrite lookup_insert_eq.
    - rewrite lookup_insert_ne by done. rewrite Hf1.
      apply (withParents_ids parents (folderMap s) p).
      intros fd Hin. apply (Hfolders _ _ Hparents) in Hin.
      unfold parentFolderPathnamesToCheck in Hin.
      apply list_elem_of_In, filter_In in Hin as [_ Hnone].
      apply bool_decide_eq_true_1 in Hnone. unfold folderOf in Hnone.
      by rewrite Hnone. }
  split.
  { intros t Hin. rewrite Htm. apply lookup_union_is_Some. left.
    destruct (Hm t) as [Hyes _]. destruct (Hyes Hin) as (e & -> & _). by eexists. }
  intros t. unfold tagNoteIds at 1. rewrite Htm.
  destruct (Hm t) as [Hyes Hno].
  destruct (decide (t ∈ tags nd)) as [Hin|Hout].
  - destruct (Hyes Hin) as (e & He & Hset).
    rewrite (lookup_union_l' _ _ _ (mk_is_Some _ _ He)), He. done.
  - rewrite (lookup_union_r _ _ _ (Hno Hout)). done.
Qed.


Lemma untagAll_spec s (i : string) (l : list string) :
  (∀ t, t ∈ l → is_Some (tagMap s !! t)) →
  ∃ m, untagAll s i l = Returned m
    ∧ ∀ t, (t ∈ l → ∃ e0, tagMap s !! t = Some e0
                     ∧ m !! t = Some (withTagNoteIdSet (tagNoteIdSet e0 ∖ {[ i ]}) e0))
         ∧ (t ∉ l → m !! t = None).
Proof.
  unfold untagAll. intros Hall.
  assert (Hgen : ∀ acc : gmap string PopulatedTagDoc,
    ∃ m, foldl (λ acc tag, obind acc (λ acc,
             match tagMap s !! tag with
             | None => Threw TypeError
             | Some t =>
               Returned (<[tag := withTagNoteIdSet (tagNoteIdSet t ∖ {[ i ]}) t]> acc)
             end)) (Returned acc) l = Returned m
      ∧ ∀ t, (t ∈ l → ∃ e0, tagMap s !! t = Some e0
                     ∧ m !! t = Some (withTagNoteIdSet (tagNoteIdSet e0 ∖ {[ i ]}) e0))
           ∧ (t ∉ l → m !! t = acc !! t)).
  { induction l as [|t0 l IH]; intros acc; simpl.
    - exists acc. split; [done|]. intros t. split; [by intros ?%elem_of_nil|done].
    - destruct (Hall t0) as [e0 He0]; [by left|]. rewrite He0.
      destruct (IH (λ t Ht, Hall t (list_elem_of_further _ _ _ Ht))
                  (<[t0 := withTagNoteIdSet (tagNoteIdSet e0 ∖ {[ i ]}) e0]> acc))
        as (m & Hm & Hspec).
      exists m. split; [done|]. intros t. destruct (Hspec t) as [Hin Hout].
      destruct (decide (t ∈ l)) as [Hl|Hl].
      + split; [by intros _; apply Hin|]. intros Hnot. exfalso. apply Hnot. by right.
      + split.
        * intros [->|?]%elem_of_cons; [|done].
          exists e0. split; [done|]. by rewrite (Hout Hl), lookup_insert_eq.
        * intros Hnot. rewrite (Hout Hl). apply lookup_insert_ne.
          intros ->. apply Hnot. by left. }
  destruct (Hgen ∅) as (m & Hm & Hspec). exists m. split; [done|].
  intros t. destruct (Hspec t) as [Hin Hout]. split; [done|].
  intros Hnot. by rewrite (Hout Hnot).
Qed.

Lemma purgeNote_index w (sid noteId : string) s (noteDoc : NoteDoc) (d2 : D) :
  storageMap w !! sid = Some s →
  noteMap s !! noteId = Some noteDoc →
  is_Some (folderOf s (folderPathname noteDoc)) →
  (∀ t, t ∈ tags noteDoc → is_Some (tagMap s !! t)) →
  db_purgeNote noteId (stores w (db s)) = (Returned tt, d2) →
  ∃ w2 s2, purgeNote sid noteId w = (Returned tt, w2)
    ∧ storageMap w2 !! sid = Some s2
    ∧ noteMap s2 = delete noteId (noteMap s)
    ∧ (∀ p, folderNoteIds s2 p
            = if decide (p = folderPathname noteDoc)
              then folderNoteIds s p ∖ {[ _id noteDoc ]} else folderNoteIds s p)
    ∧ (∀ t, tagNoteIds s2 t
            = if decide (t ∈ tags noteDoc)
              then tagNoteIds s t ∖ {[ _id noteDoc ]} else tagNoteIds s t).
Proof.
  intros Hs Hnote [f Hf] Htags Hpurge.
  unfold purgeNote. rewrite Hs.
  unfold bind at 1. unfold awaitWrite at 1. rewrite Hpurge.
  rewrite Hnote, Hf.
  destruct (untagAll_spec s (_id noteDoc) (tags noteDoc) Htags) as (m & Hm & Hspec).
  unfold bind at 1. unfold liftOutcome. rewrite Hm.
  unfold bind at 1. unfold setStorageMap at 1.
  erewrite draftAt_run; [|exact Hs].
  match goal with |- context [queueSyncingStorage ?a ?b ?w2] =>
    destruct (queueSyncingStorage_index a b w2) as (w3 & Hq & _ & _ & _ & Hmaps) end.
  rewrite Hq.
  destruct (Hmaps sid) as [_ Hsome].
  edestruct Hsome as (s2 & Hs2 & Hnm & Hfm & Htm & _).
  { cbn. apply lookup_insert_eq. }
  cbn in Hnm, Hfm, Htm.
  exists w3, s2. split; [done|]. split; [done|]. split; [done|].
  split.
  - intros p. unfold folderNoteIds, folderOf. rewrite Hfm.
    destruct (decide (p = folderPathname noteDoc)) as [->|Hne].
    + rewrite lookup_insert_eq. unfold folderOf in Hf. by rewrite Hf.
    + by rewrite lookup_insert_ne.
  - intros t. unfold tagNoteIds. rewrite Htm.
    destruct (Hspec t) as [Hyes Hno].
    destruct (decide (t ∈ tags noteDoc)) as [Hin|Hout].
    + destruct (Hyes Hin) as (e0 & He0 & Hmt).
      rewrite (lookup_union_l' _ _ _ (mk_is_Some _ _ Hmt)), Hmt, He0. done.
    + by rewrite (lookup_union_r _ _ _ (Hno Hout)).
Qed.

Lemma add_remove_fresh (X : gset string) (i : string) :
  i ∉ X → (X ∪ {[ i ]}) ∖ {[ i ]} = X.
Proof.
  intros Hfresh. apply set_eq. intros x.
  rewrite elem_of_difference, elem_of_union, elem_of_singleton.
  split; [intros [[?|?] ?]; done|]. intros Hx. split; [by left|]. by intros ->.
Qed.


Lemma indexConsistent_notFiled s (i : string) :
  indexConsistent s → noteMap s !! i = None → notFiled s i.
Proof.
  intros (_ & Hfolders & Htags) Hnone. split.
  - intros p Hin. unfold folderNoteIds, folderOf in Hin.
    destruct (folderMap s !! p) as [entry|] eqn:Hp; [|by apply not_elem_of_empty in Hin].
    specialize (Hfolders _ _ Hp i). destruct entry as [f|]; cbn in *.
    + specialize (Hfolders Hin). by rewrite Hnone in Hfolders.
    + by apply not_elem_of_empty in Hin.
  - intros t Hin. unfold tagNoteIds in Hin.
    destruct (tagMap s !! t) as [entry|] eqn:Ht; [|by apply not_elem_of_empty in Hin].
    specialize (Htags _ _ Ht i Hin). cbn in Htags. by rewrite Hnone in Htags.
Qed.

(** C6.  Round trip: when [createNote] has returned a note whose id was filed
    nowhere before, [purgeNote] on that id returns, and afterwards every
    folder path and every tag has the note ids it had before the note was
    created (none, for the folders and tags created with the note).  The ids
    of tag documents follow [TAG_ID_PREFIX], and the store answers
    [getFoldersByPathnames] with folders of the requested paths. *)
Theorem createNote_purgeNote_round_trip w (sid : string) (props : NoteProps) s
    (noteDoc : NoteDoc) w1 (d2 : D) :
  storageMap w !! sid = Some s →
  notFiled s (_id noteDoc) →
  tagIdsFollowPrefix s →
  storeTagIdsFollowPrefix (stores w1 (db s)) →
  storeReturnsRequestedFolders (stores w1 (db s)) →
  createNote sid props w = (Returned (Some noteDoc), w1) →
  db_purgeNote (_id noteDoc) (stores w1 (db s)) = (Returned tt, d2) →
  ∃ w2 s2, purgeNote sid (_id noteDoc) w1 = (Returned tt, w2)
    ∧ storageMap w2 !! sid = Some s2
    ∧ (∀ p, folderNoteIds s2 p = folderNoteIds s p)
    ∧ (∀ t, tagNoteIds s2 t = tagNoteIds s t).
Proof.
  intros Hs [Hfresh1 Hfresh2] Hidx Hstore Hfolders Hcreate Hpurge.
  destruct (createNote_index _ _ _ _ _ _ Hs Hidx Hstore Hfolders Hcreate)
    as (s1 & Hs1 & Hdb & Hnm & Hfolder & Hfids & Htags & Htids).
  rewrite <- Hdb in Hpurge.
  destruct (purgeNote_index w1 sid (_id noteDoc) s1 noteDoc d2 Hs1) as
    (w2 & s2 & Hrun & Hs2 & _ & Hfids2 & Htids2); [|done..|].
  { rewrite Hnm. apply lookup_insert_eq. }
  exists w2, s2. split; [done|]. split; [done|]. split.
  - intros p. rewrite Hfids2, Hfids. specialize (Hfresh1 p).
    destruct (decide (p = folderPathname noteDoc)); [|done].
    by apply add_remove_fresh.
  - intros t. rewrite Htids2, Htids. specialize (Hfresh2 t).
    destruct (decide (t ∈ tags noteDoc)); [|done].
    by apply add_remove_fresh.
Qed.




(** ** Removing a folder *)

Lemma pushUnder_keeps (noteId : string) (l : list string) acc (t k : string) ids :
  acc !! t = Some ids → k ∈ ids →
  ∃ ids', pushUnder noteId acc l !! t = Some ids' ∧ k ∈ ids'.
Proof.
  unfold pushUnder. revert acc ids.
  induction l as [|t0 l IH]; intros acc ids Hacc Hk; simpl; [by eauto|].
  destruct (decide (t0 = t)) as [->|Hne].
  - eapply IH; [apply lookup_insert_eq|]. rewrite Hacc. cbn.
    apply elem_of_app. by left.
  - eapply IH; [|done]. by rewrite lookup_insert_ne.
Qed.

Lemma pushUnder_adds (noteId : string) (l : list string) acc (t : string) :
  t ∈ l → ∃ ids', pushUnder noteId acc l !! t = Some ids' ∧ noteId ∈ ids'.
Proof.
  revert acc. induction l as [|t0 l IH]; intros acc Hin; [by apply elem_of_nil in Hin|].
  apply elem_of_cons in Hin as [->|Hin].
  - change (pushUnder noteId acc (t0 :: l))
      with (pushUnder noteId (<[t0 := default [] (acc !! t0) ++ [noteId]]> acc) l).
    eapply pushUnder_keeps; [apply lookup_insert_eq|].
    apply elem_of_app. right. by left.
  - by apply IH.
Qed.

Lemma pushUnder_origin (noteId : string) (l : list string) acc (t : string) :
  is_Some (pushUnder noteId acc l !! t) → t ∈ l ∨ is_Some (acc !! t).
Proof.
  unfold pushUnder. revert acc.
  induction l as [|t0 l IH]; intros acc Hsome; simpl in *; [by right|].
  destruct (IH _ Hsome) as [Hin|Hacc]; [left; by right|].
  destruct (decide (t0 = t)) as [->|Hne]; [left; by left|].
  right. by rewrite lookup_insert_ne in Hacc.
Qed.

Lemma affectedTags_fold (deleted : list string) (notes : list (string * NoteDoc)) acc :
  foldl (λ (acc : gmap string (list string)) '(noteId, note),
           if includes deleted (folderPathname note)
           then foldl (λ (acc : gmap string (list string)) (tag : string),
                         <[tag := default [] (acc !! tag) ++ [noteId]]> acc)
                  acc (tags note)
           else acc) acc notes
  = foldl (λ acc kn, if includes deleted (folderPathname kn.2)
                     then pushUnder kn.1 acc (tags kn.2) else acc) acc notes.
Proof.
  revert acc. induction notes as [|[k n] notes IH]; intros acc; simpl; [done|].
  by rewrite IH.
Qed.

Lemma affectedTags_covers (deleted : list string) (notes : list (string * NoteDoc))
    (k : string) (n : NoteDoc) (t : string) :
  (k, n) ∈ notes → includes deleted (folderPathname n) = true → t ∈ tags n →
  ∃ ids, affectedTags deleted notes !! t = Some ids ∧ k ∈ ids.
Proof.
  unfold affectedTags. rewrite affectedTags_fold.
  assert (Hkeep : ∀ l (acc : gmap string (list string)) ids,
    acc !! t = Some ids → k ∈ ids →
    ∃ ids', foldl (λ acc kn, if includes deleted (folderPathname kn.2)
                             then pushUnder kn.1 acc (tags kn.2) else acc) acc l !! t
            = Some ids' ∧ k ∈ ids').
  { induction l as [|[k0 n0] l IH]; intros acc ids Hacc Hk; simpl; [by eauto|].
    destruct (includes deleted (folderPathname n0)); [|by eapply IH].
    destruct (pushUnder_keeps k0 (tags n0) acc t k ids Hacc Hk) as (ids' & H1 & H2).
    by eapply IH. }
  generalize (∅ : gmap string (list string)).
  induction notes as [|[k0 n0] notes IH]; intros acc Hin Hdel Ht;
    [by apply elem_of_nil in Hin|].
  apply elem_of_cons in Hin as [[= <- <-]|Hin]; simpl.
  - rewrite Hdel.
    destruct (pushUnder_adds k (tags n) acc t Ht) as (ids & H1 & H2).
    by eapply Hkeep.
  - by apply IH.
Qed.

Lemma affectedTags_origin (deleted : list string) (notes : list (string * NoteDoc))
    (t : string) :
  is_Some (affectedTags deleted notes !! t) →
  ∃ k n, (k, n) ∈ notes ∧ t ∈ tags n.
Proof.
  unfold affectedTags. rewrite affectedTags_fold.
  assert (Hgen : ∀ acc : gmap string (list string),
    is_Some (foldl (λ acc kn, if includes deleted (folderPathname kn.2)
                              then pushUnder kn.1 acc (tags kn.2) else acc) acc notes !! t) →
    (∃ k n, (k, n) ∈ notes ∧ t ∈ tags n) ∨ is_Some (acc !! t)).
  { induction notes as [|[k0 n0] notes IH]; intros acc Hsome; simpl in *; [by right|].
    destruct (IH _ Hsome) as [(k & n & Hin & Ht)|Hacc].
    - left. exists k, n. split; [by right|done].
    - destruct (includes deleted (folderPathname n0)); [|by right].
      apply pushUnder_origin in Hacc as [Ht|Hacc]; [|by right].
      left. exists k0, n0. split; [by left|done]. }
  intros Hsome. destruct (Hgen ∅ Hsome) as [?|Hempty]; [done|].
  rewrite lookup_empty in Hempty. by destruct Hempty.
Qed.


Lemma foldl_delete_folderMap (l : list string) s0 :
  let s' := foldl (λ s a, set_folderMap (delete a (folderMap s)) s) s0 l in
  (∀ q, folderMap s' !! q = if decide (q ∈ l) then None else folderMap s0 !! q)
  ∧ noteMap s' = noteMap s0 ∧ tagMap s' = tagMap s0 ∧ db s' = db s0.
Proof.
  revert s0. induction l as [|a l IH]; intros s0; simpl.
  - split; [|done]. intros q. by destruct (decide (q ∈ [])) as [?%elem_of_nil|].
  - destruct (IH (set_folderMap (delete a (folderMap s0)) s0)) as (Hq & -> & -> & ->).
    split; [|done]. intros q. rewrite Hq. cbn.
    destruct (decide (q ∈ l)) as [Hl|Hl].
    + rewrite decide_True; [done|by right].
    + destruct (decide (q = a)) as [->|Hne].
      * rewrite decide_True by (by left). apply lookup_delete_eq.
      * rewrite decide_False; [by apply lookup_delete_ne|].
        intros [?|?]%elem_of_cons; done.
Qed.



Lemma tagsIndexed_lookup s (i : string) (n : NoteDoc) (t : string) :
  tagsIndexed s → noteMap s !! i = Some n → t ∈ tags n → is_Some (tagMap s !! t).
Proof.
  intros Hall Hnote Ht. specialize (Hall _ _ Hnote). cbn in Hall.
  by apply (proj1 (Forall_forall _ _) Hall).
Qed.





(** ** Moving a note to another storage *)

Lemma foldl_insert_other {A : Type} (l : list A) (k : A → string)
    (v : A → option PopulatedFolderDoc) (fm : gmap string (option PopulatedFolderDoc))
    (p : string) :
  (∀ a, a ∈ l → k a ≠ p) →
  foldl (λ fm a, <[k a := v a]> fm) fm l !! p = fm !! p.
Proof.
  revert fm. induction l as [|a l IH]; intros fm Hne; simpl; [done|].
  rewrite IH by (intros a' Ha'; apply Hne; by right).
  apply lookup_insert_ne, Hne. by left.
Qed.

(** The scenario of a move to an empty storage, for entries of S as
    [prepareStorage] builds them (the entry of [urgent] carries its [name]):
    S holds N1 under [/work], tagged [urgent]; T is empty.
    [moveNoteToOtherStorage(S, N1, T, "/inbox")] asks the store of T for a
    note with the title, content, tags and data of N1, purges N1 from S, and
    leaves [/work] and [urgent] of S without note ids, and [/inbox] and
    [urgent] of T with exactly the id of the new note. *)
Theorem move_to_empty_storage w (S T noteId : string) sS sT
    (fW : PopulatedFolderDoc) (tU : PopulatedTagDoc) (n1 created : NoteDoc)
    (dT' dS' : D) (fd : option FolderDoc) (parents : list FolderDoc) (td : option TagDoc) :
  S ≠ T →
  storageMap w !! S = Some sS →
  storageMap w !! T = Some sT →
  db sS ≠ db sT →
  (* S holds N1 under /work, tagged urgent *)
  folderOf sS "/work" = Some fW → pf_pathname fW = "/work" → noteIdSet fW = {[ noteId ]} →
  tagMap sS !! "urgent" = Some tU → name tU = Some "urgent" →
  tagNoteIdSet tU = {[ noteId ]} →
  (* T is empty *)
  noteMap sT = ∅ → tagMap sT = ∅ → folderOf sT "/inbox" = None →
  (* the answers of the two stores *)
  db_getNote noteId (stores w (db sS)) = Returned (Some n1) →
  _id n1 = noteId → folderPathname n1 = "/work" → tags n1 = ["urgent"] →
  db_createNote
    (mkNoteProps (Some (title n1)) (Some (content n1)) (Some (tags n1)) (Some "/inbox")
       (Some (data n1)))
    (stores w (db sT)) = (Returned created, dT') →
  title created = title n1 → content created = content n1 →
  tags created = tags n1 → data created = data n1 →
  db_purgeNote noteId (stores w (db sS)) = (Returned tt, dS') →
  db_getFolder "/inbox" dT' = Returned fd →
  db_getFoldersByPathnames (parentFolderPathnamesToCheck sT "/inbox") dT' = Returned parents →
  (∀ f, f ∈ parents → folder_pathname f ≠ "/inbox") →
  db_getTag "urgent" dT' = Returned td →
  ∃ w' sS' sT' n1',
    moveNoteToOtherStorage S noteId T "/inbox" w = (Returned tt, w')
    ∧ stores w' (db sS) = dS' ∧ stores w' (db sT) = dT'
    ∧ storageMap w' !! S = Some sS'
    ∧ storageMap w' !! T = Some sT'
    ∧ noteMap sS' !! noteId = None
    ∧ folderNoteIds sS' "/work" = ∅
    ∧ tagNoteIds sS' "urgent" = ∅
    ∧ noteMap sT' !! _id created = Some n1'
    ∧ _id n1' = _id created
    ∧ title n1' = title n1 ∧ content n1' = content n1
    ∧ tags n1' = tags n1 ∧ data n1' = data n1
    ∧ folderNoteIds sT' "/inbox" = {[ _id created ]}
    ∧ tagNoteIds sT' "urgent" = {[ _id created ]}.
Proof.
  intros HST HS HT Hdbs HfW HfWp HfWs HtU HtUn HtUs HTn HTt HTf
    Hget Hid Hpath Htags Hcreate Hti Hco Hta Hda Hpurge Hfolder Hparents Hpne Htag.
  unfold moveNoteToOtherStorage. rewrite HS, HT.
  unfold bind at 1. unfold awaitRead at 1. rewrite Hget.
  unfold bind at 1. unfold awaitWrite at 1. rewrite Hcreate.
  unfold bind at 1. unfold awaitWrite at 1. cbn [stores set_stores].
  rewrite fn_lookup_insert_ne by done. rewrite Hid, Hpurge.
  rewrite HTf.
  unfold bind at 1. unfold bind at 1. unfold awaitRead at 1. cbn [stores set_stores].
  rewrite fn_lookup_insert_ne by done. rewrite fn_lookup_insert, Hfolder.
  unfold ret at 1.
  unfold bind at 1. unfold awaitRead at 1. cbn [stores set_stores].
  rewrite fn_lookup_insert_ne by done. rewrite fn_lookup_insert, Hparents.
  unfold bind at 1.
  change (tags (populate (ns_id sT) created)) with (tags created).
  rewrite Hta, Htags. cbn [promiseAll].
  rewrite HTt, lookup_empty.
  unfold bind at 1. unfold awaitRead at 1. cbn [stores set_stores].
  rewrite fn_lookup_insert_ne by done. rewrite fn_lookup_insert, Htag.
  unfold ret at 1.
  rewrite Hpath, HfW. cbn [omap fmap list_fmap option_fmap option_map].
  simpl (list_omap _ _ _ _). rewrite HtU. cbn [fmap list_fmap].
  unfold bind at 1. unfold setStorageMap at 1. cbn [storageMap set_stores].
  erewrite draftSeq_run; [|apply draftAt_run; exact HS].
  erewrite draftSeq_run; [|apply draftAt_run, lookup_insert_eq].
  erewrite draftSeq_run; [|apply draftForEach_at, lookup_insert_eq].
  erewrite draftSeq_run;
    [|apply draftAt_run; rewrite !lookup_insert_ne by done; exact HT].
  erewrite draftSeq_run; [|apply draftForEach_at, lookup_insert_eq].
  erewrite draftForEach_at; [|apply lookup_insert_eq].
  unfold bind at 1.
  match goal with |- context [queueSyncingStorage ?a ?b ?w2] =>
    destruct (queueSyncingStorage_index a b w2) as (w3 & Hq & Hst3 & _ & _ & Hmaps) end.
  rewrite Hq.
  assert (Hneq : negb (S =? T)%string = true).
  { apply negb_true_iff. by apply String.eqb_neq. }
  rewrite Hneq.
  destruct (queueSyncingStorage_index T autoSyncDebounceWaitingTime w3)
    as (w4 & Hq4 & Hst4 & _ & _ & Hmaps4).
  rewrite Hst3 in Hst4. cbn [stores set_storageMap set_stores] in Hst4.
  cbv beta iota. rewrite Hq4.
  destruct (Hmaps S) as [_ HsomeS]. destruct (Hmaps T) as [_ HsomeT].
  edestruct HsomeS as (sS3 & HsS3 & HnmS & HfmS & HtmS & _).
  { cbn [storageMap set_storageMap]. rewrite !lookup_insert_ne by done.
    apply lookup_insert_eq. }
  edestruct HsomeT as (sT3 & HsT3 & HnmT & HfmT & HtmT & _).
  { cbn [storageMap set_storageMap]. apply lookup_insert_eq. }
  destruct (Hmaps4 S) as [_ HsomeS4]. destruct (Hmaps4 T) as [_ HsomeT4].
  destruct (HsomeS4 _ HsS3) as (sS' & HsS' & HnmS' & HfmS' & HtmS' & _).
  destruct (HsomeT4 _ HsT3) as (sT' & HsT' & HnmT' & HfmT' & HtmT' & _).
  rewrite HnmS in HnmS'. rewrite HfmS in HfmS'. rewrite HtmS in HtmS'.
  rewrite HnmT in HnmT'. rewrite HfmT in HfmT'. rewrite HtmT in HtmT'.
  clear HnmS HfmS HtmS HnmT HfmT HtmT.
  cbn in HnmS', HfmS', HtmS'.
  cbn [foldl folderMap noteMap tagMap set_tagMap] in HnmT', HfmT', HtmT'.
  match type of HfmT' with context [foldl ?f ?s0 ?l] =>
    destruct (foldl_set_folderMap l pf_pathname Some s0) as (Hf1 & Hf2 & Hf3 & _) end.
  cbv zeta in Hf1, Hf2, Hf3.
  rewrite Hf3 in HtmT'. rewrite Hf1 in HfmT'.
  exists w4, sS', sT', (populate (ns_id sT) created).
  split; [done|].
  split; [rewrite Hst4; apply fn_lookup_insert|].
  split; [rewrite Hst4, fn_lookup_insert_ne by done; apply fn_lookup_insert|].
  split; [done|]. split; [done|].
  split; [rewrite HnmS'; apply lookup_delete_eq|].
  split.
  { unfold folderNoteIds, folderOf. rewrite HfmS'. cbn. rewrite HfWp, lookup_insert_eq.
    cbn. rewrite HfWs. apply difference_diag_L. }
  split.
  { unfold tagNoteIds. rewrite HtmS'. cbn. rewrite HtUn. cbn. rewrite lookup_insert_eq.
    cbn. rewrite HtUs. apply difference_diag_L. }
  split.
  { rewrite HnmT', Hf2. cbn. apply lookup_insert_eq. }
  split; [done|]. split; [done|]. split; [done|]. split; [by rewrite <- Htags|].
  split; [done|].
  split.
  - unfold folderNoteIds, folderOf. rewrite HfmT'.
    rewrite foldl_insert_other.
    + cbn. rewrite lookup_insert_eq. cbn. by rewrite (left_id_L ∅ (∪)).
    + intros a [f [-> Hf]]%list_elem_of_fmap. cbn. by apply Hpne.
  - unfold tagNoteIds. rewrite HtmT'. cbn. by rewrite lookup_insert_eq.
Qed.

End Proofs.

(** ** The operations on concrete worlds *)

Lemma run_exec {S A : Type} (m : M S A) (w : S) (o : Outcome A) :
  (m w).1 = o → m w = (o, exec m w).
Proof. unfold exec. destruct (m w) as [o' w']. simpl. congruence. Qed.



(** C1.  Moving a note to another folder of its own storage with
    [moveNoteToOtherStorage] breaks the invariant: the index of S is
    consistent before; afterwards N1 is gone from [noteMap] and its id is
    still filed under the tag [urgent], because the entries of the target
    side are computed from the storage as it was before the purge. *)
Theorem move_within_storage_breaks_index :
  ∃ s w' s',
    storageMap worldST !! "S" = Some s
    ∧ indexConsistent s
    ∧ moveNoteToOtherStorage "S" "N1" "S" "/inbox" worldST = (Returned tt, w')
    ∧ storageMap w' !! "S" = Some s'
    ∧ noteMap s' !! "N1" = None
    ∧ "N1" ∈ tagNoteIds s' "urgent"
    ∧ ¬ indexConsistent s'.
Proof.
  eexists _, (exec (moveNoteToOtherStorage "S" "N1" "S" "/inbox") worldST), _.
  split; [vm_compute; reflexivity|].
  split; [apply (bool_decide_unpack _); vm_compute; exact I|].
  split.
  { apply run_exec. vm_compute. reflexivity. }
  split; [vm_compute; reflexivity|].
  split; [vm_compute; reflexivity|].
  split; [apply (bool_decide_unpack _); vm_compute; exact I|].
  apply (proj1 (bool_decide_eq_false _)); vm_compute; reflexivity.
Qed.

(** The invariant is also lost when a trashed note is edited: with a store
    that keeps the [trashed] flag on update, [updateNote] files the id of the
    trashed note under its folder and tags again. *)
Lemma updateNote_files_trashed_note :
  ∃ s n w' s',
    storageMap worldTrashed !! "S" = Some s
    ∧ indexConsistent s
    ∧ updateNote "S" "N1" (mkNoteProps (Some "edited") None None None None) worldTrashed
      = (Returned (Some n), w')
    ∧ trashed n = true
    ∧ storageMap w' !! "S" = Some s'
    ∧ "N1" ∈ folderNoteIds s' "/work"
    ∧ "N1" ∈ tagNoteIds s' "urgent"
    ∧ ¬ indexConsistent s'.
Proof.
  eexists _, _,
    (exec (updateNote "S" "N1" (mkNoteProps (Some "edited") None None None None))
       worldTrashed), _.
  split; [vm_compute; reflexivity|].
  split; [apply (bool_decide_unpack _); vm_compute; exact I|].
  split.
  { apply run_exec. vm_compute. reflexivity. }
  split; [vm_compute; reflexivity|].
  split; [vm_compute; reflexivity|].
  split; [apply (bool_decide_unpack _); vm_compute; exact I|].
  split; [apply (bool_decide_unpack _); vm_compute; exact I|].
  apply (proj1 (bool_decide_eq_false _)); vm_compute; reflexivity.
Qed.

(** C2.  [renameFolder("/a", "/b")] with [/b] present throws the validation
    error and leaves the index alone, but the callback of the sub-folder
    [/a/x] has passed its own checks and written to the store: [/b/x] exists
    there afterwards and the note of [/a/x] is filed under [/b/x]. *)
Theorem renameFolder_moves_notes_before_failing :
  ∃ w',
    renameFolder "S" "/a" "/b" worldAB
    = (Threw (UnprocessableEntityError "this folder already exists `/b`"), w')
    ∧ storageMap w' = storageMap worldAB
    ∧ db_getFolder "/b/x" (stores worldAB "S") = Returned None
    ∧ db_getFolder "/b/x" (stores w' "S") = Returned (Some (mkFolderDoc "folder:/b/x" "/b/x"))
    ∧ folderPathname <$> m_notes (stores worldAB "S") !! "N1" = Some "/a/x"
    ∧ folderPathname <$> m_notes (stores w' "S") !! "N1" = Some "/b/x".
Proof.
  exists (exec (renameFolder "S" "/a" "/b") worldAB).
  split.
  { apply run_exec. vm_compute. reflexivity. }
  repeat split; vm_compute; reflexivity.
Qed.

(** C9.  After a replication completes, the storage entry is replaced by a
    freshly prepared one without [syncTimer], while the timer armed when the
    replication started stays armed; the next [queueSyncingStorage] arms a
    second timer for the same storage. *)
Theorem complete_event_forgets_armed_timer :
  ∃ w',
    schedulerTrace worldLinked = (Returned tt, w')
    ∧ timersOf worldLinked "S" = ∅
    ∧ timersOf w' "S"
      = {[ 2 := ("S", autoSyncIntervalTime); 3 := ("S", autoSyncDebounceWaitingTime) ]}
    ∧ size (timersOf w' "S") = 2.
Proof.
  exists (exec schedulerTrace worldLinked).
  split.
  { apply run_exec. vm_compute. reflexivity. }
  repeat split; vm_compute; reflexivity.
Qed.

Lemma updateNote_throws_when_note_not_indexed_witness :
  ∃ e w', updateNote "S" "N2" (mkNoteProps (Some "edited") None None None None) worldStale
          = (Threw e, w')
    ∧ storageMap w' = storageMap worldStale.
Proof.
  assert (HS : ∃ s, storageMap worldStale !! "S" = Some s ∧ db s = "S"
                    ∧ noteMap s !! "N2" = None).
  { eexists. repeat split; vm_compute; reflexivity. }
  destruct HS as (s & HS & Hdb & Habsent).
  eapply (updateNote_throws_when_note_not_indexed worldStale "S" "N2" _ s
            (Some noteN2) (mkNoteDoc "N2" "edited" "" [] "/work" "{}" false None)).
  - exact HS.
  - rewrite Hdb. vm_compute. reflexivity.
  - rewrite Hdb. vm_compute. reflexivity.
  - exact Habsent.
Defined.

Lemma trashNote_binds_undefined_witness :
  ∃ w' s', trashNote "S" "N1" worldRemoved
           = (Returned (Some (populate "S" (setTrashed true noteN1))), w')
    ∧ storageMap w' !! "S" = Some s'
    ∧ folderMap s' !! "/work" = Some None
    ∧ ¬ folderMapDefined s'.
Proof.
  assert (HS : ∃ s, storageMap worldRemoved !! "S" = Some s ∧ db s = "S"
                    ∧ folderOf s "/work" = None).
  { eexists. split; [vm_compute; reflexivity|]. split; vm_compute; reflexivity. }
  destruct HS as (s & HS & Hdb & Hfolder).
  assert (Htrash : db_trashNote "N1" (stores worldRemoved (db s))
                   = (Returned (Some (setTrashed true noteN1)),
                      (db_trashNote "N1" (stores worldRemoved "S")).2)).
  { rewrite Hdb. vm_compute. reflexivity. }
  exact (trashNote_binds_undefined worldRemoved "S" "N1" s (setTrashed true noteN1) _
           HS Htrash Hfolder).
Defined.

Lemma syncError_409_pushes_two_notices_witness :
  ∃ w' s', onSyncError 0 (Some 409%N) (exec (syncStorage "S" false) worldLinked)
           = (Returned tt, w')
    ∧ toasts w' =
        [mkToast "Size Limit"
           "You have reached your usage limit. Please upgrade your subscription.";
         mkToast "Not Found" "The cloud storage does not exist anymore."]
    ∧ storageMap w' !! "S" = Some s'
    ∧ cloudStorage s' = None ∧ sync s' = None.
Proof.
  assert (HS : ∃ s, storageMap (exec (syncStorage "S" false) worldLinked) !! "S" = Some s).
  { eexists. vm_compute. reflexivity. }
  destruct HS as (s & HS).
  eapply (syncError_409_pushes_two_notices (exec (syncStorage "S" false) worldLinked) 0
            (mkSession "S" false (mkStorageData "S" "S" (Some (mkCloud 7 "cloud" None)))) s).
  - vm_compute. reflexivity.
  - reflexivity.
  - exact HS.
Defined.

(** ** The reference store keeps what the registry relies on *)

Lemma mem_storeTagIdsFollowPrefix (d : MemDb) :
  map_Forall (λ t td, tag_id td = "tag:" +:+ t) (m_tags d) →
  storeTagIdsFollowPrefix d.
Proof. intros Hall t td [= Ht]. exact (Hall _ _ Ht). Qed.

Lemma mem_storeReturnsRequestedFolders (d : MemDb) :
  map_Forall (λ p fd, folder_pathname fd = p) (m_folders d) →
  storeReturnsRequestedFolders d.
Proof.
  intros Hall l r [= <-] fd Hin.
  apply list_elem_of_omap in Hin as (p & Hp & Hfd).
  by rewrite (Hall _ _ Hfd).
Qed.

Lemma mem_purgeNote_returns (i : string) (d : MemDb) :
  db_purgeNote i d = (Returned tt, (db_purgeNote i d).2).
Proof. reflexivity. Qed.


Lemma move_to_empty_storage_witness :
  ∃ w' sS' sT' n1',
    moveNoteToOtherStorage "S" "N1" "T" "/inbox" worldST = (Returned tt, w')
    ∧ m_notes (stores w' "S") !! "N1" = None
    ∧ is_Some (m_notes (stores w' "T") !! "note:0")
    ∧ storageMap w' !! "S" = Some sS'
    ∧ storageMap w' !! "T" = Some sT'
    ∧ noteMap sS' !! "N1" = None
    ∧ folderNoteIds sS' "/work" = ∅
    ∧ tagNoteIds sS' "urgent" = ∅
    ∧ noteMap sT' !! "note:0" = Some n1'
    ∧ _id n1' = "note:0"
    ∧ title n1' = "title" ∧ content n1' = "content"
    ∧ tags n1' = ["urgent"] ∧ data n1' = "{}"
    ∧ folderNoteIds sT' "/inbox" = {[ "note:0" ]}
    ∧ tagNoteIds sT' "urgent" = {[ "note:0" ]}.
Proof.
  assert (HS : ∃ sS fW tU, storageMap worldST !! "S" = Some sS ∧ db sS = "S"
             ∧ folderOf sS "/work" = Some fW ∧ pf_pathname fW = "/work"
             ∧ noteIdSet fW = {[ "N1" ]}
             ∧ tagMap sS !! "urgent" = Some tU ∧ name tU = Some "urgent"
             ∧ tagNoteIdSet tU = {[ "N1" ]}).
  { eexists _, _, _.
    split; [vm_compute; reflexivity|]. split; [vm_compute; reflexivity|].
    split; [vm_compute; reflexivity|]. split; [vm_compute; reflexivity|].
    split; [vm_compute; reflexivity|]. split; [vm_compute; reflexivity|].
    split; vm_compute; reflexivity. }
  destruct HS as (sS & fW & tU & HS & HdbS & HfW & HfWp & HfWs & HtU & HtUn & HtUs).
  assert (HT : ∃ sT, storageMap worldST !! "T" = Some sT ∧ db sT = "T"
             ∧ noteMap sT = ∅ ∧ tagMap sT = ∅ ∧ folderOf sT "/inbox" = None
             ∧ parentFolderPathnamesToCheck sT "/inbox" = []).
  { eexists.
    split; [vm_compute; reflexivity|]. split; [vm_compute; reflexivity|].
    split; [vm_compute; reflexivity|]. split; [vm_compute; reflexivity|].
    split; vm_compute; reflexivity. }
  destruct HT as (sT & HT & HdbT & HTn & HTt & HTf & Hpar).
  pose (created := mkNoteDoc "note:0" "title" "content" ["urgent"] "/inbox" "{}" false None).
  pose (dT' := (mem_createNote
               (mkNoteProps (Some "title") (Some "content") (Some ["urgent"]) (Some "/inbox")
                  (Some "{}")) (stores worldST "T")).2).
  pose (dS' := (db_purgeNote "N1" (stores worldST "S")).2).
  assert (Hmove : ∃ w' sS' sT' n1',
    moveNoteToOtherStorage "S" "N1" "T" "/inbox" worldST = (Returned tt, w')
    ∧ stores w' (db sS) = dS' ∧ stores w' (db sT) = dT'
    ∧ storageMap w' !! "S" = Some sS'
    ∧ storageMap w' !! "T" = Some sT'
    ∧ noteMap sS' !! "N1" = None
    ∧ folderNoteIds sS' "/work" = ∅
    ∧ tagNoteIds sS' "urgent" = ∅
    ∧ noteMap sT' !! "note:0" = Some n1'
    ∧ _id n1' = "note:0"
    ∧ title n1' = "title" ∧ content n1' = "content"
    ∧ tags n1' = ["urgent"] ∧ data n1' = "{}"
    ∧ folderNoteIds sT' "/inbox" = {[ "note:0" ]}
    ∧ tagNoteIds sT' "urgent" = {[ "note:0" ]}).
  { refine (move_to_empty_storage worldST "S" "T" "N1" sS sT fW tU noteN1 created dT' dS'
            (Some (mkFolderDoc "folder:/inbox" "/inbox")) []
            (Some (mkTagDoc "tag:urgent" None))
            _ HS HT _ HfW HfWp HfWs HtU HtUn HtUs HTn HTt HTf _ eq_refl eq_refl eq_refl _
            eq_refl eq_refl eq_refl eq_refl _ _ _ _ _).
    - discriminate.
    - rewrite HdbS, HdbT. discriminate.
    - rewrite HdbS. vm_compute. reflexivity.
    - rewrite HdbT. vm_compute. reflexivity.
    - rewrite HdbS. vm_compute. reflexivity.
    - vm_compute. reflexivity.
    - rewrite Hpar. vm_compute. reflexivity.
    - intros f Hf. inversion Hf.
    - vm_compute. reflexivity. }
  destruct Hmove as (w' & sS' & sT' & n1' & Hrun & HstS & HstT & Hrest).
  exists w', sS', sT', n1'. split; [exact Hrun|].
  rewrite HdbS in HstS. rewrite HdbT in HstT.
  split; [rewrite HstS; vm_compute; reflexivity|].
  split; [rewrite HstT; eexists; vm_compute; reflexivity|].
  exact Hrest.
Defined.

(** C5.  The scenario on a storage the registry filled itself.  S has the
    folders [/] and [/work] and, through [createNote], a note under [/work]
    tagged [urgent]; T is empty; the index of S is consistent.  After
    [moveNoteToOtherStorage(S, note, T, "/inbox")] the note is gone from S
    and from [/work], and its id is still filed under [urgent] of S: the
    entry [createNote] made for the tag has no [name], and the emptied entry
    is written under the key [undefined]. *)
Theorem move_after_createNote_keeps_tag_entry :
  ∃ sS sT w' sS',
    storageMap worldCreated !! "S" = Some sS
    ∧ storageMap worldCreated !! "T" = Some sT
    ∧ is_Some (folderOf sS "/")
    ∧ folderNoteIds sS "/work" = {[ "note:0" ]}
    ∧ tagNoteIds sS "urgent" = {[ "note:0" ]}
    ∧ indexConsistent sS
    ∧ noteMap sT = ∅ ∧ tagMap sT = ∅
    ∧ moveNoteToOtherStorage "S" "note:0" "T" "/inbox" worldCreated = (Returned tt, w')
    ∧ storageMap w' !! "S" = Some sS'
    ∧ noteMap sS' !! "note:0" = None
    ∧ folderNoteIds sS' "/work" = ∅
    ∧ tagNoteIds sS' "urgent" = {[ "note:0" ]}
    ∧ is_Some (tagMap sS' !! "undefined")
    ∧ ¬ indexConsistent sS'.
Proof.
  eexists _, _, (exec (moveNoteToOtherStorage "S" "note:0" "T" "/inbox") worldCreated), _.
  split; [vm_compute; reflexivity|].
  split; [vm_compute; reflexivity|].
  split; [apply (bool_decide_unpack _); vm_compute; exact I|].
  split; [apply (bool_decide_unpack _); vm_compute; exact I|].
  split; [apply (bool_decide_unpack _); vm_compute; exact I|].
  split; [apply (bool_decide_unpack _); vm_compute; exact I|].
  split; [vm_compute; reflexivity|].
  split; [vm_compute; reflexivity|].
  split.
  { apply run_exec. vm_compute. reflexivity. }
  split; [vm_compute; reflexivity|].
  split; [vm_compute; reflexivity|].
  split; [apply (bool_decide_unpack _); vm_compute; exact I|].
  split; [apply (bool_decide_unpack _); vm_compute; exact I|].
  split; [apply (bool_decide_unpack _); vm_compute; exact I|].
  apply (proj1 (bool_decide_eq_false _)); vm_compute; reflexivity.
Qed.

Lemma createNote_purgeNote_round_trip_witness :
  ∃ s n w1 w2 s2,
    storageMap worldST !! "S" = Some s
    ∧ createNote "S" newNoteProps worldST = (Returned (Some n), w1)
    ∧ purgeNote "S" (_id n) w1 = (Returned tt, w2)
    ∧ storageMap w2 !! "S" = Some s2
    ∧ (∀ p, folderNoteIds s2 p = folderNoteIds s p)
    ∧ (∀ t, tagNoteIds s2 t = tagNoteIds s t).
Proof.
  assert (HS : ∃ s, storageMap worldST !! "S" = Some s ∧ db s = "S"
                    ∧ indexConsistent s ∧ noteMap s !! "note:0" = None
                    ∧ tagIdsFollowPrefix s).
  { eexists. split; [vm_compute; reflexivity|]. split; [vm_compute; reflexivity|].
    split; [apply (bool_decide_unpack _); vm_compute; exact I|].
    split; [vm_compute; reflexivity|].
    apply (bool_decide_unpack _); vm_compute; exact I. }
  destruct HS as (s & HS & Hdb & Hcons & Hfresh & Hidx).
  pose (n := mkNoteDoc "note:0" "new" "text" ["urgent"; "later"] "/work/drafts/old" "{}"
               false (Some "S")).
  assert (Hrun1 : (createNote "S" newNoteProps worldST).1 = Returned (Some n)).
  { vm_compute. reflexivity. }
  pose proof (run_exec (createNote "S" newNoteProps) worldST _ Hrun1) as Hrun.
  assert (Hstore : storeTagIdsFollowPrefix
                     (stores (exec (createNote "S" newNoteProps) worldST) (db s))).
  { rewrite Hdb. apply mem_storeTagIdsFollowPrefix.
    apply (bool_decide_unpack _). vm_compute. exact I. }
  assert (Hfolders : storeReturnsRequestedFolders
                       (stores (exec (createNote "S" newNoteProps) worldST) (db s))).
  { rewrite Hdb. apply mem_storeReturnsRequestedFolders.
    apply (bool_decide_unpack _). vm_compute. exact I. }
  destruct (createNote_purgeNote_round_trip worldST "S" newNoteProps s n _
              (db_purgeNote (_id n)
                 (stores (exec (createNote "S" newNoteProps) worldST) (db s))).2 HS
              (indexConsistent_notFiled s (_id n) Hcons Hfresh) Hidx Hstore Hfolders Hrun
              (mem_purgeNote_returns _ _)) as (w2 & s2 & Hp & Hs2 & Hf & Ht).
  exists s, n, (exec (createNote "S" newNoteProps) worldST), w2, s2.
  split; [exact HS|]. split; [exact Hrun|]. split; [exact Hp|]. split; [exact Hs2|].
  split; [exact Hf|exact Ht].
Defined.

(** * Further properties *)

(** ** A second [syncStorage] *)

Section SyncSessions.
Context {D : Type} `{!NoteDb D}.
Implicit Types (w : World D) (s storage : NoteStorage).

(** X19.  A second [syncStorage] for the same storage, right after the
    first, does nothing: either the first was refused, and so is the second,
    or the first started a replication, and the second finds it in
    [storage.sync]. *)
Lemma syncStorage_starts_one_session w (sid : string) (a b : bool) :
  (syncStorage sid a;;; syncStorage sid b) w = syncStorage sid a w.
Proof.
  unfold bind, syncStorage.
  destruct (user w) as [u|] eqn:Hu; [|by rewrite Hu].
  destruct (storageMap w !! sid) as [s|] eqn:Hs; [|by rewrite Hu, Hs].
  destruct (cloudStorage s) as [c|] eqn:Hc; [|by rewrite Hu, Hs, Hc].
  destruct (sync s) as [h|] eqn:Hsync; [by rewrite Hu, Hs, Hc, Hsync|].
  cbn. unfold setStorageMap, draftAt. cbn. rewrite Hs.
  cbn. rewrite Hu, lookup_insert_eq. cbn. by rewrite Hc.
Qed.

End SyncSessions.

(** ** Timers: what leaves them alone *)

Section TimerClosure.
Context {D : Type} `{!NoteDb D}.
Implicit Types (w : World D) (s storage : NoteStorage).

Lemma quiet_safe {A : Type} (m : M (World D) A) : quiet m → safe m.
Proof.
  intros Hq w Hw. destruct (Hq w) as [Ht Hm].
  unfold timersRecorded. rewrite Ht. intros h sx Hh. rewrite Hm. by apply Hw.
Qed.

Lemma quiet_ret {A : Type} (a : A) : quiet (ret a : M (World D) A).
Proof. by intros w. Qed.

Lemma quiet_throw {A : Type} (e : JsError) : quiet (throw e : M (World D) A).
Proof. by intros w. Qed.

Lemma quiet_liftOutcome {A : Type} (o : Outcome A) : quiet (liftOutcome o : M (World D) A).
Proof. by intros w. Qed.

Lemma quiet_awaitRead {A : Type} (h : string) (op : D → Outcome A) : quiet (awaitRead h op).
Proof. by intros w. Qed.

Lemma quiet_awaitWrite {A : Type} (h : string) (op : D → Outcome A * D) :
  quiet (awaitWrite h op).
Proof. intros w. unfold awaitWrite. by destruct (op _). Qed.

Lemma quiet_pushMessage (t : Toast) : quiet (pushMessage (D:=D) t).
Proof. by intros w. Qed.

Lemma quiet_routerReplace (l : string) : quiet (routerReplace (D:=D) l).
Proof. by intros w. Qed.

Lemma quiet_bind {A B : Type} (m : M (World D) A) (k : A → M (World D) B) :
  quiet m → (∀ a, quiet (k a)) → quiet (bind m k).
Proof.
  intros Hm Hk w. unfold bind. destruct (Hm w) as [Ht Hs].
  destruct (m w) as [[a|e] w1]; [|done]. cbn in Ht, Hs.
  destruct (Hk a w1) as [Ht' Hs']. split; [congruence|]. intros sid. by rewrite Hs'.
Qed.

Lemma safe_bind {A B : Type} (m : M (World D) A) (k : A → M (World D) B) :
  safe m → (∀ a, safe (k a)) → safe (bind m k).
Proof.
  intros Hm Hk w Hw. unfold bind. specialize (Hm w Hw).
  destruct (m w) as [[a|e] w1]; [|done]. by apply Hk.
Qed.

Lemma quiet_tryCatch {A : Type} (m : M (World D) A) (k : JsError → M (World D) A) :
  quiet m → (∀ e, quiet (k e)) → quiet (tryCatch m k).
Proof.
  intros Hm Hk w. unfold tryCatch. destruct (Hm w) as [Ht Hs].
  destruct (m w) as [[a|e] w1]; [done|]. cbn in Ht, Hs.
  destruct (Hk e w1) as [Ht' Hs']. split; [congruence|]. intros sid. by rewrite Hs'.
Qed.

Lemma quiet_promiseAll {A B : Type} (f : A → M (World D) B) (l : list A) :
  (∀ a, quiet (f a)) → quiet (promiseAll f l).
Proof.
  intros Hf. induction l as [|a l IH]; intros w; simpl; [done|].
  destruct (Hf a w) as [Ht Hs]. destruct (f a w) as [r w1]. cbn in Ht, Hs.
  destruct (IH w1) as [Ht' Hs']. destruct (promiseAll f l w1) as [rs w2]. cbn in *.
  split; [congruence|]. intros sid. by rewrite Hs'.
Qed.

Lemma quiet_setStorageMap (d : Draft) : draftQuiet d → quiet (setStorageMap (D:=D) d).
Proof.
  intros Hd w. unfold setStorageMap.
  destruct (d (storageMap w)) as [m|e] eqn:Hm; [|done]. cbn. split; [done|].
  by apply Hd.
Qed.

Lemma draftQuiet_at (sid : string) (f : NoteStorage → NoteStorage) :
  (∀ s, syncTimer (f s) = syncTimer s) → draftQuiet (draftAt sid f).
Proof.
  intros Hf m m'. unfold draftAt. destruct (m !! sid) as [s|] eqn:Hs; [|done].
  intros [= <-] k. unfold timerOf. destruct (decide (sid = k)) as [<-|Hne].
  - rewrite lookup_insert_eq, Hs. cbn. apply Hf.
  - by rewrite lookup_insert_ne.
Qed.

Lemma draftQuiet_seq (d1 d2 : Draft) : draftQuiet d1 → draftQuiet d2 → draftQuiet (draftSeq d1 d2).
Proof.
  intros H1 H2 m m'. unfold draftSeq. destruct (d1 m) as [m1|] eqn:Hm1; [|done]. cbn.
  intros Hm2 sid. rewrite (H2 _ _ Hm2). by apply H1.
Qed.

Lemma draftQuiet_skip : draftQuiet draftSkip.
Proof. by intros m m' [= <-]. Qed.

Lemma draftQuiet_forEach {A : Type} (l : list A) (f : A → Draft) :
  (∀ a, draftQuiet (f a)) → draftQuiet (draftForEach l f).
Proof.
  intros Hf. unfold draftForEach.
  assert (Hgen : ∀ d0, draftQuiet d0 → draftQuiet (foldl (λ d a, draftSeq d (f a)) d0 l)).
  { induction l as [|a l IH]; intros d0 Hd0; simpl; [done|].
    apply IH. by apply draftQuiet_seq. }
  apply Hgen, draftQuiet_skip.
Qed.

Lemma safe_queueSyncingStorage (sid : string) (delay : N) :
  safe (queueSyncingStorage (D:=D) sid delay).
Proof.
  intros w Hw. unfold queueSyncingStorage.
  destruct (enableAutoSync w); [|done]. cbn [negb].
  destruct (storageMap w !! sid) as [s|] eqn:Hs; [|done].
  assert (Hgen : ∀ T : gmap nat (string * N),
    (∀ h sx, T !! h = Some sx → timers w !! h = Some sx ∧ syncTimer s ≠ Some h) →
    map_Forall (λ h sx,
        timerOf (<[sid := set_syncTimer (Some (nextHandle w)) s]> (storageMap w)) sx.1 = Some h)
      (<[nextHandle w := (sid, delay)]> T)).
  { intros T HT h sx. destruct (decide (nextHandle w = h)) as [<-|Hne].
    - rewrite lookup_insert_eq. intros [= <-]. cbn. unfold timerOf.
      by rewrite lookup_insert_eq.
    - rewrite lookup_insert_ne by done. intros Hh. apply HT in Hh as [Hh Hnot].
      specialize (Hw _ _ Hh). cbn in Hw. unfold timerOf in *.
      destruct (decide (sid = sx.1)) as [Heq|Hneq].
      + rewrite <- Heq, Hs in Hw. cbn in Hw. done.
      + by rewrite lookup_insert_ne. }
  destruct (syncTimer s) as [h0|] eqn:Hh0; cbn.
  - apply Hgen. intros h sx Hh. apply lookup_delete_Some in Hh as [Hne Hh].
    split; [done|]. congruence.
  - apply Hgen. intros h sx Hh. split; done.
Qed.

End TimerClosure.

(** Takes a computation apart along [bind], [tryCatch], [promiseAll] and the
    recipes it hands to [setStorageMap]. *)
Ltac quiet_tac :=
  repeat first
    [ apply quiet_ret | apply quiet_throw | apply quiet_liftOutcome
    | apply quiet_awaitRead | apply quiet_awaitWrite
    | apply quiet_pushMessage | apply quiet_routerReplace
    | apply quiet_bind; [|intros ?]
    | apply quiet_tryCatch; [|intros ?]
    | apply quiet_promiseAll; intros ?
    | apply quiet_setStorageMap
    | apply draftQuiet_seq
    | apply draftQuiet_skip
    | apply draftQuiet_forEach; intros ?
    | apply draftQuiet_at; intros ?; reflexivity
    | match goal with
      | |- quiet (match ?x with _ => _ end) => destruct x
      | |- draftQuiet (match ?x with _ => _ end) => destruct x
      end ].

Section TimerHelpers.
Context {D : Type} `{!NoteDb D}.

Lemma quiet_folderWithNote (s : NoteStorage) (n : NoteDoc) : quiet (folderWithNote (D:=D) s n).
Proof. unfold folderWithNote. quiet_tac. Qed.

Lemma quiet_tagWithNote (s : NoteStorage) (n : NoteDoc) (t : string) :
  quiet (tagWithNote (D:=D) s n t).
Proof. unfold tagWithNote. quiet_tac. Qed.

End TimerHelpers.

(** The same for [safe]: the only steps that touch a timer are the calls of
    [queueSyncingStorage]. *)
Ltac safe_tac :=
  repeat first
    [ apply safe_queueSyncingStorage
    | apply safe_bind; [|intros ?]
    | match goal with
      | |- safe (match ?x with _ => _ end) => destruct x
      end
    | apply quiet_safe;
      repeat first
        [ apply quiet_folderWithNote | apply quiet_tagWithNote | progress quiet_tac ] ].

(** Reduces [timersRecorded] after an operation to [safe] of the operation. *)
Ltac enter_op :=
  match goal with
  | |- timersRecorded (?m ?w).2 =>
    match goal with Hw : timersRecorded w |- _ =>
      let Hsafe := fresh in
      assert (Hsafe : safe m); [clear Hw | exact (Hsafe w Hw)]
    end
  end.

Section TimerOperations.
Context {D : Type} `{!NoteDb D}.
Implicit Types (w : World D) (s storage : NoteStorage).

Lemma safe_createFolder (sid p : string) : safe (createFolder (D:=D) sid p).
Proof.
  intros w Hw. unfold createFolder.
  destruct (storageMap w !! sid) as [s|]; [|done].
  enter_op. cbv zeta. safe_tac.
Qed.

Lemma safe_renameFolder (sid p q : string) : safe (renameFolder (D:=D) sid p q).
Proof.
  intros w Hw. unfold renameFolder.
  destruct (storageMap w !! sid) as [s|]; [|done].
  enter_op. cbv zeta. safe_tac.
Qed.

Lemma safe_removeFolder (sid p : string) : safe (removeFolder (D:=D) sid p).
Proof.
  intros w Hw. unfold removeFolder.
  destruct (storageMap w !! sid) as [s|]; [|done].
  generalize (location w) at 1. intros loc.
  enter_op. cbv zeta. safe_tac.
Qed.

Lemma safe_createNote (sid : string) (props : NoteProps) : safe (createNote (D:=D) sid props).
Proof.
  intros w Hw. unfold createNote.
  destruct (storageMap w !! sid) as [s|]; [|done].
  enter_op. cbv zeta. safe_tac.
Qed.

Lemma safe_updateNote (sid i : string) (props : NoteProps) :
  safe (updateNote (D:=D) sid i props).
Proof.
  intros w Hw. unfold updateNote.
  destruct (storageMap w !! sid) as [s|]; [|done].
  enter_op. cbv zeta. safe_tac.
Qed.

Lemma safe_moveNoteToOtherStorage (src i dst p : string) :
  safe (moveNoteToOtherStorage (D:=D) src i dst p).
Proof.
  intros w Hw. unfold moveNoteToOtherStorage.
  destruct (storageMap w !! src) as [s|]; [|done].
  destruct (storageMap w !! dst) as [t|]; [|done].
  enter_op. cbv zeta. safe_tac.
Qed.

Lemma safe_trashNote (sid i : string) : safe (trashNote (D:=D) sid i).
Proof.
  intros w Hw. unfold trashNote.
  destruct (storageMap w !! sid) as [s|]; [|done].
  enter_op. cbv zeta. safe_tac.
Qed.

Lemma safe_untrashNote (sid i : string) : safe (untrashNote (D:=D) sid i).
Proof.
  intros w Hw. unfold untrashNote.
  destruct (storageMap w !! sid) as [s|]; [|done].
  enter_op. cbv zeta. safe_tac.
Qed.

Lemma safe_purgeNote (sid i : string) : safe (purgeNote (D:=D) sid i).
Proof.
  intros w Hw. unfold purgeNote.
  destruct (storageMap w !! sid) as [s|]; [|done].
  enter_op. cbv zeta. safe_tac.
Qed.

Lemma safe_removeTag (sid t : string) : safe (removeTag (D:=D) sid t).
Proof.
  intros w Hw. unfold removeTag.
  destruct (storageMap w !! sid) as [s|]; [|done].
  generalize (location w) at 1. intros loc.
  enter_op. cbv zeta. safe_tac.
Qed.

End TimerOperations.

(** ** Timers: one per storage *)

Section TimerInvariant.
Context {D : Type} `{!NoteDb D}.
Implicit Types (w : World D) (s storage : NoteStorage).

Lemma safe_clearTimeout (h : nat) : safe (clearTimeout (D:=D) h).
Proof.
  intros w Hw h' sx Hh. cbn in *. apply lookup_delete_Some in Hh as [_ Hh]. by apply Hw.
Qed.

Lemma safe_cancelSyncingStorageQueue (sid : string) :
  safe (cancelSyncingStorageQueue (D:=D) sid).
Proof.
  intros w Hw. unfold cancelSyncingStorageQueue.
  destruct (storageMap w !! sid) as [s|] eqn:Hs; [|done].
  destruct (syncTimer s) as [h|] eqn:Hh; [|done].
  cbn. intros h' sx Hh'. cbn in *. apply lookup_delete_Some in Hh' as [Hne Hh'].
  specialize (Hw _ _ Hh'). cbn in Hw. unfold timerOf in *.
  destruct (decide (sid = sx.1)) as [Heq|Hneq].
  - rewrite <- Heq, Hs in Hw. cbn in Hw. congruence.
  - by rewrite lookup_insert_ne.
Qed.

Lemma quiet_startSession (sess : Session) : quiet (startSession (D:=D) sess).
Proof. by intros w. Qed.

Lemma quiet_endSession (h : nat) : quiet (endSession (D:=D) h).
Proof. by intros w. Qed.

Lemma quiet_syncStorage (sid : string) (silent : bool) : quiet (syncStorage (D:=D) sid silent).
Proof.
  intros w. unfold syncStorage.
  destruct (user w) as [u|]; [|done]. destruct (storageMap w !! sid) as [s|]; [|done].
  destruct (cloudStorage s); [|done]. destruct (sync s); [done|].
  revert w. apply quiet_bind; [apply quiet_startSession|]. intros h. quiet_tac.
Qed.

Lemma draftQuiet_cloud (sid : string) (c : option CloudNoteStorageData) :
  draftQuiet (λ prevStorageMap,
    match prevStorageMap !! sid with
    | None => Returned prevStorageMap
    | Some existingStorage =>
      Returned (<[sid := set_cloudStorage c existingStorage]> prevStorageMap)
    end).
Proof.
  intros m m'. destruct (m !! sid) as [s|] eqn:Hs; intros [= <-] k; [|done].
  unfold timerOf. destruct (decide (sid = k)) as [<-|Hne].
  - by rewrite lookup_insert_eq, Hs.
  - by rewrite lookup_insert_ne.
Qed.

Lemma quiet_unlinkStorage (sid : string) : quiet (unlinkStorage (D:=D) sid).
Proof. apply quiet_setStorageMap, draftQuiet_cloud. Qed.

Lemma quiet_linkStorage (sid : string) (c : CloudNoteStorageData) :
  quiet (linkStorage (D:=D) sid c).
Proof. apply quiet_setStorageMap, draftQuiet_cloud. Qed.

Lemma quiet_onSyncError (h : nat) (status : option N) : quiet (onSyncError (D:=D) h status).
Proof.
  intros w. unfold onSyncError. destruct (sessions w !! h) as [sess|]; [|done].
  revert w. cbv zeta.
  apply quiet_bind; [apply quiet_endSession|]. intros _.
  apply quiet_bind; [|intros _; quiet_tac].
  assert (H404 : quiet (case404 (D:=D) (sess_storageId sess) (sess_silent sess))).
  { unfold case404. apply quiet_bind; [|intros _; apply quiet_unlinkStorage].
    destruct (negb _); quiet_tac. }
  assert (H409 : quiet (case409 (D:=D) (sess_storageId sess) (sess_silent sess))).
  { unfold case409. apply quiet_bind; [|intros _; apply quiet_unlinkStorage].
    destruct (negb _); quiet_tac. }
  assert (Hdef : quiet (caseDefault (D:=D) (sess_silent sess))).
  { unfold caseDefault. destruct (negb _); quiet_tac. }
  destruct status as [n|]; [|done].
  destruct n as [|p]; [done|].
  do 9 (destruct p as [p|p|]; try done).
  by apply quiet_bind.
Qed.

Lemma safe_fireTimer (h : nat) : safe (fireTimer (D:=D) h).
Proof.
  intros w Hw. unfold fireTimer. destruct (timers w !! h) as [[sid x]|]; [|done].
  enter_op. apply safe_bind; [apply safe_clearTimeout|]. intros _.
  apply safe_bind; [apply quiet_safe, quiet_syncStorage|]. intros _.
  apply safe_queueSyncingStorage.
Qed.

Lemma safe_forOf {A : Type} (l : list A) (f : A → M (World D) unit) :
  (∀ a, safe (f a)) → safe (forOf l f).
Proof.
  intros Hf. induction l as [|a l IH]; simpl; [by apply quiet_safe, quiet_ret|].
  by apply safe_bind.
Qed.

Lemma safe_queueSyncingAllStorage (delay : option N) :
  safe (queueSyncingAllStorage (D:=D) delay).
Proof.
  intros w Hw. unfold queueSyncingAllStorage.
  apply safe_forOf; [|done]. intros sid. apply safe_queueSyncingStorage.
Qed.

Lemma safe_cancelAllSyncingStorageQueue : safe (cancelAllSyncingStorageQueue (D:=D)).
Proof.
  intros w Hw. unfold cancelAllSyncingStorageQueue.
  apply safe_forOf; [|done]. intros sid. apply safe_cancelSyncingStorageQueue.
Qed.

Lemma timersRecorded_at_most_one w (sid : string) :
  timersRecorded w → (size (timersOf w sid) ≤ 1)%nat.
Proof.
  intros Hw. unfold timersOf.
  destruct (timerOf (storageMap w) sid) as [h|] eqn:Hh.
  - assert (Hsub : filter (λ kv : nat * (string * N), kv.2.1 = sid) (timers w)
                   ⊆ from_option (λ sx, {[ h := sx ]}) ∅ (timers w !! h)).
    { apply map_subseteq_spec. intros h' sx Hin.
      apply map_lookup_filter_Some in Hin as [Hin Hsid]. cbn in Hsid.
      specialize (Hw _ _ Hin). cbn in Hw. rewrite Hsid, Hh in Hw. injection Hw as <-.
      rewrite Hin. cbn. apply lookup_singleton_eq. }
    apply map_subseteq_size in Hsub.
    destruct (timers w !! h); cbn in Hsub.
    + by rewrite map_size_singleton in Hsub.
    + rewrite map_size_empty in Hsub. lia.
  - assert (Hempty : filter (λ kv : nat * (string * N), kv.2.1 = sid) (timers w) = ∅).
    { apply map_empty. intros h'. apply map_lookup_filter_None. right.
      intros sx Hin Hsid. cbn in Hsid.
      specialize (Hw _ _ Hin). cbn in Hw. rewrite Hsid, Hh in Hw. done. }
    rewrite Hempty, map_size_empty. lia.
Qed.

(** X17.  If every armed timer is the one its storage records in
    [syncTimer], this is still so after each of the ten operations on
    folders, notes and tags, whatever their arguments and whatever the
    store answers. *)
Theorem index_operations_keep_timers_recorded w :
  timersRecorded w →
  (∀ sid p, timersRecorded (exec (createFolder sid p) w))
  ∧ (∀ sid p q, timersRecorded (exec (renameFolder sid p q) w))
  ∧ (∀ sid p, timersRecorded (exec (removeFolder sid p) w))
  ∧ (∀ sid props, timersRecorded (exec (createNote sid props) w))
  ∧ (∀ sid i props, timersRecorded (exec (updateNote sid i props) w))
  ∧ (∀ src i dst p, timersRecorded (exec (moveNoteToOtherStorage src i dst p) w))
  ∧ (∀ sid i, timersRecorded (exec (trashNote sid i) w))
  ∧ (∀ sid i, timersRecorded (exec (untrashNote sid i) w))
  ∧ (∀ sid i, timersRecorded (exec (purgeNote sid i) w))
  ∧ (∀ sid t, timersRecorded (exec (removeTag sid t) w)).
Proof.
  intros Hw. unfold exec. repeat split; intros.
  - by apply safe_createFolder.
  - by apply safe_renameFolder.
  - by apply safe_removeFolder.
  - by apply safe_createNote.
  - by apply safe_updateNote.
  - by apply safe_moveNoteToOtherStorage.
  - by apply safe_trashNote.
  - by apply safe_untrashNote.
  - by apply safe_purgeNote.
  - by apply safe_removeTag.
Qed.

(** X18.  While every armed timer is the one its storage records in
    [syncTimer], no storage has two armed timers; queueing and cancelling a
    sync (for one storage or for all), the expiry of a timer, the start of a
    replication, its [error] event, and linking and unlinking a storage all
    keep it so.  The [complete] event is not in the list: see C9. *)
Theorem scheduler_keeps_one_timer_per_storage w :
  timersRecorded w →
  (∀ sid, (size (timersOf w sid) ≤ 1)%nat)
  ∧ (∀ sid delay, timersRecorded (exec (queueSyncingStorage sid delay) w))
  ∧ (∀ sid, timersRecorded (exec (cancelSyncingStorageQueue sid) w))
  ∧ (∀ delay, timersRecorded (exec (queueSyncingAllStorage delay) w))
  ∧ timersRecorded (exec cancelAllSyncingStorageQueue w)
  ∧ (∀ h, timersRecorded (exec (fireTimer h) w))
  ∧ (∀ sid silent, timersRecorded (exec (syncStorage sid silent) w))
  ∧ (∀ h status, timersRecorded (exec (onSyncError h status) w))
  ∧ (∀ sid c, timersRecorded (exec (linkStorage sid c) w))
  ∧ (∀ sid, timersRecorded (exec (unlinkStorage sid) w)).
Proof.
  intros Hw. unfold exec.
  split; [intros; by apply timersRecorded_at_most_one|].
  repeat split; intros.
  - by apply safe_queueSyncingStorage.
  - by apply safe_cancelSyncingStorageQueue.
  - by apply safe_queueSyncingAllStorage.
  - by apply safe_cancelAllSyncingStorageQueue.
  - by apply safe_fireTimer.
  - by apply quiet_safe; [apply quiet_syncStorage|].
  - by apply quiet_safe; [apply quiet_onSyncError|].
  - by apply quiet_safe; [apply quiet_linkStorage|].
  - by apply quiet_safe; [apply quiet_unlinkStorage|].
Qed.

End TimerInvariant.

(** ** Missing guards and swallowed errors *)

Section Failures.
Context {D : Type} `{!NoteDb D}.
Implicit Types (w : World D) (s storage : NoteStorage).

Lemma stores_insert_eq w (h : string) (d : D) :
  stores (set_stores (<[h := d]> (stores w)) w) h = d.
Proof. cbn. apply fn_lookup_insert. Qed.

(** X13.  [createFolder] swallows a rejection of the store: the call
    returns normally, pushes the one notice [Folder name is invalid.], and
    changes neither the index nor the timers (no sync is queued). *)
Theorem createFolder_rejected_by_store w (sid pathname : string) s (e : JsError) (d' : D) :
  storageMap w !! sid = Some s →
  db_createFolder pathname (stores w (db s)) = (Threw e, d') →
  ∃ w', createFolder sid pathname w = (Returned tt, w')
    ∧ toasts w' = toasts w ++ [mkToast "Error" "Folder name is invalid."]
    ∧ storageMap w' = storageMap w
    ∧ timers w' = timers w.
Proof.
  intros Hs Hdb. unfold createFolder. rewrite Hs.
  unfold bind at 1. unfold tryCatch, bind, awaitWrite. rewrite Hdb. cbn.
  by eexists.
Qed.

Lemma draftForEach_gen {A : Type} (l : list A) (f : A → Draft)
    (g : A → NoteStorage → NoteStorage) (sid : string) (m : gmap string NoteStorage) s :
  m !! sid = Some s →
  (∀ a m1 s1, m1 !! sid = Some s1 → f a m1 = Returned (<[sid := g a s1]> m1)) →
  draftForEach l f m = Returned (<[sid := foldl (λ s a, g a s) s l]> m).
Proof.
  intros Hs Hf. unfold draftForEach.
  assert (Hgen : ∀ d0 m1 s1,
    d0 m = Returned m1 → m1 !! sid = Some s1 →
    foldl (λ d a, draftSeq d (f a)) d0 l m
    = Returned (<[sid := foldl (λ s a, g a s) s1 l]> m1)).
  { induction l as [|a l IH]; intros d0 m1 s1 Hd0 Hm1; simpl.
    - by rewrite insert_id.
    - erewrite (IH _ (<[sid := g a s1]> m1) (g a s1)).
      + by rewrite insert_insert_eq.
      + unfold draftSeq. rewrite Hd0. simpl. by apply Hf.
      + apply lookup_insert_eq. }
  by apply Hgen.
Qed.

Lemma enterCreated_fold storage (l : list FolderDoc) ds :
  let ds' := foldl (λ s a, enterCreated storage a s) ds l in
  noteMap ds' = noteMap ds ∧ tagMap ds' = tagMap ds ∧ db ds' = db ds
  ∧ (∀ q, q ∉ folder_pathname <$> l → folderMap ds' !! q = folderMap ds !! q)
  ∧ (∀ q, is_Some (folderOf storage q) → folderMap ds' !! q = folderMap ds !! q)
  ∧ (∀ q, q ∈ folder_pathname <$> l → folderOf storage q = None →
       ∃ fd, fd ∈ l ∧ folderMap ds' !! q = Some (Some (populateFolder (Some fd) q ∅))).
Proof.
  revert ds. induction l as [|a l IH]; intros ds; simpl.
  { repeat split; try done. intros q Hq. by apply elem_of_nil in Hq. }
  destruct (IH (enterCreated storage a ds)) as (Hn & Ht & Hd & Hout & Hkeep & Hin).
  assert (Hpres : noteMap (enterCreated storage a ds) = noteMap ds
                ∧ tagMap (enterCreated storage a ds) = tagMap ds
                ∧ db (enterCreated storage a ds) = db ds).
  { unfold enterCreated. by destruct (folderOf storage _). }
  destruct Hpres as (Hn0 & Ht0 & Hd0).
  split; [congruence|]. split; [congruence|]. split; [congruence|].
  split; [|split].
  - intros q Hq. rewrite Hout.
    + unfold enterCreated. destruct (folderOf storage _); [done|]. cbn.
      apply lookup_insert_ne. intros Heq. apply Hq. rewrite <- Heq. by left.
    + intros Hin'. apply Hq. by right.
  - intros q Hq. rewrite (Hkeep q Hq).
    unfold enterCreated. destruct (folderOf storage (folder_pathname a)) eqn:Ha; [done|]. cbn.
    apply lookup_insert_ne. intros Heq. rewrite Heq in Ha. rewrite Ha in Hq. by destruct Hq.
  - intros q Hq Hnone.
    destruct (decide (q ∈ folder_pathname <$> l)) as [Hl|Hl].
    + destruct (Hin q Hl Hnone) as (fd & Hfd & Hlook). exists fd. split; [by right|done].
    + apply elem_of_cons in Hq as [->|Hq]; [|done].
      exists a. split; [by left|]. rewrite (Hout _ Hl).
      unfold enterCreated. rewrite Hnone. cbn. apply lookup_insert_eq.
Qed.

Lemma filter_other_tags (l : list string) (tag : string) :
  tag ∉ l → List.filter (λ noteTag, negb (String.eqb noteTag tag)) l = l.
Proof.
  induction l as [|t0 l IH]; intros Hin; [done|]. cbn.
  destruct (String.eqb_spec t0 tag) as [->|Hne]; cbn.
  - exfalso. apply Hin. by left.
  - f_equal. apply IH. intros Hin'. apply Hin. by right.
Qed.

(** X15.  [untrashNote] has no guard for a note the store does not have:
    when the store answers with no document, the call raises (at
    [noteDoc.tags.map], if not before) instead of returning, and leaves the
    index and the timers unchanged. *)
Theorem untrashNote_of_missing_note_throws w (sid noteId : string) s (d' : D) :
  storageMap w !! sid = Some s →
  db_untrashNote noteId (stores w (db s)) = (Returned None, d') →
  ∃ e w', untrashNote sid noteId w = (Threw e, w')
    ∧ storageMap w' = storageMap w
    ∧ timers w' = timers w.
Proof.
  intros Hs Hdb. unfold untrashNote. rewrite Hs.
  unfold bind at 1. unfold awaitWrite at 1. rewrite Hdb.
  unfold bind at 1. destruct (folderOf s "undefined").
  - by eexists _, _.
  - unfold bind, awaitRead, ret, throw. destruct (db_getFolder _ _); by eexists _, _.
Qed.

(** X16.  [purgeNote] deletes from the store before it looks at the index:
    if the note is not in [noteMap], or its folder has no entry, the store's
    purge has taken effect and the call then raises a [TypeError], leaving
    the index and the timers unchanged. *)
Theorem purgeNote_without_index_entry_throws w (sid noteId : string) s (d' : D) :
  storageMap w !! sid = Some s →
  db_purgeNote noteId (stores w (db s)) = (Returned tt, d') →
  (noteMap s !! noteId = None
   ∨ ∃ n, noteMap s !! noteId = Some n ∧ folderOf s (folderPathname n) = None) →
  ∃ w', purgeNote sid noteId w = (Threw TypeError, w')
    ∧ storageMap w' = storageMap w
    ∧ timers w' = timers w
    ∧ stores w' (db s) = d'.
Proof.
  intros Hs Hdb Hmissing. unfold purgeNote. rewrite Hs.
  unfold bind at 1. unfold awaitWrite at 1. rewrite Hdb.
  destruct Hmissing as [Hnone|(n & Hn & Hf)].
  - rewrite Hnone. eexists. split; [done|]. split; [done|]. split; [done|].
    apply stores_insert_eq.
  - rewrite Hn, Hf. eexists. split; [done|]. split; [done|]. split; [done|].
    apply stores_insert_eq.
Qed.

(** X27.  The [error] handler of a replication has no guard for a storage
    that left the map while the replication ran: it raises a [TypeError]
    (at [draft[storageId]!.sync]), whatever the status, and the map is
    unchanged. *)
Theorem syncError_after_storage_removed_throws w (h : nat) (sess : Session)
    (status : option N) :
  sessions w !! h = Some sess →
  storageMap w !! sess_storageId sess = None →
  ∃ w', onSyncError h status w = (Threw TypeError, w')
    ∧ storageMap w' = storageMap w
    ∧ sessions w' !! h = None.
Proof.
  intros Hsess Hnone. unfold onSyncError. rewrite Hsess.
  assert (Hunlink : ∀ w0, storageMap w0 = storageMap w →
            unlinkStorage (sess_storageId sess) w0 = (Returned tt, w0)).
  { intros w0 Hw0. unfold unlinkStorage, setStorageMap.
    destruct (storageMap w0 !! sess_storageId sess) eqn:E; [rewrite Hw0 in E; congruence|].
    by destruct w0. }
  assert (Hpush : ∀ t w0, storageMap w0 = storageMap w → sessions w0 !! h = None →
            ∃ w1, ((if negb (sess_silent sess) then pushMessage t else ret tt) w0
                   = (Returned tt, w1))
                  ∧ storageMap w1 = storageMap w ∧ sessions w1 !! h = None).
  { intros t w0 Hw0 Hh. destruct (negb _); by eexists. }
  assert (Hend : ∀ w0, storageMap w0 = storageMap w → sessions w0 !! h = None →
    ∃ w', setStorageMap (draftAt (sess_storageId sess) (set_sync None)) w0
          = (Threw TypeError, w')
      ∧ storageMap w' = storageMap w ∧ sessions w' !! h = None).
  { intros w0 Hw0 Hh. unfold setStorageMap, draftAt. rewrite Hw0, Hnone. by eexists. }
  assert (H404 : ∀ w0, storageMap w0 = storageMap w → sessions w0 !! h = None →
    ∃ w1, case404 (sess_storageId sess) (sess_silent sess) w0 = (Returned tt, w1)
      ∧ storageMap w1 = storageMap w ∧ sessions w1 !! h = None).
  { intros w0 Hw0 Hh. unfold case404, bind.
    destruct (Hpush (mkToast "Not Found" "The cloud storage does not exist anymore.") w0 Hw0 Hh)
      as (w1 & -> & Hw1 & Hh1).
    rewrite (Hunlink w1 Hw1). by eexists. }
  assert (H409 : ∀ w0, storageMap w0 = storageMap w → sessions w0 !! h = None →
    ∃ w1, case409 (sess_storageId sess) (sess_silent sess) w0 = (Returned tt, w1)
      ∧ storageMap w1 = storageMap w ∧ sessions w1 !! h = None).
  { intros w0 Hw0 Hh. unfold case409, bind.
    match goal with |- context [pushMessage ?t] =>
      destruct (Hpush t w0 Hw0 Hh) as (w1 & -> & Hw1 & Hh1) end.
    rewrite (Hunlink w1 Hw1). by eexists. }
  assert (Hdef : ∀ w0, storageMap w0 = storageMap w → sessions w0 !! h = None →
    ∃ w1, caseDefault (sess_silent sess) w0 = (Returned tt, w1)
      ∧ storageMap w1 = storageMap w ∧ sessions w1 !! h = None).
  { intros w0 Hw0 Hh. unfold caseDefault. by apply Hpush. }
  cbv zeta. unfold bind at 1. cbn [endSession].
  set (w0 := set_sessions _ w).
  assert (Hw0 : storageMap w0 = storageMap w) by done.
  assert (Hh0 : sessions w0 !! h = None) by apply lookup_delete_eq.
  clearbody w0.
  assert (Hswitch : ∃ w1,
    (match status with
     | Some 409%N => case409 (sess_storageId sess) (sess_silent sess);;;
                     case404 (sess_storageId sess) (sess_silent sess)
     | Some 404%N => case404 (sess_storageId sess) (sess_silent sess)
     | _ => caseDefault (sess_silent sess)
     end) w0 = (Returned tt, w1)
    ∧ storageMap w1 = storageMap w ∧ sessions w1 !! h = None).
  { destruct status as [n|]; [|by apply Hdef].
    destruct (decide (n = 409%N)) as [->|H9].
    { unfold bind. destruct (H409 w0 Hw0 Hh0) as (w1 & -> & Hw1 & Hh1). by apply H404. }
    destruct (decide (n = 404%N)) as [->|H4]; [by apply H404|].
    destruct n as [|p]; [by apply Hdef|].
    do 9 (destruct p as [p|p|]; try (by apply Hdef)); done. }
  destruct Hswitch as (w1 & Hrun & Hw1 & Hh1).
  unfold bind at 1. rewrite Hrun. by apply Hend.
Qed.

End Failures.

(** ** The index as sets of note ids *)

Section IndexDeltas.
Context {D : Type} `{!NoteDb D}.
Implicit Types (w : World D) (s storage : NoteStorage).

Lemma indexConsistent_alt s :
  indexConsistent s ↔
    (∀ k n, noteMap s !! k = Some n → trashed n = false →
       _id n ∈ folderNoteIds s (folderPathname n)
       ∧ ∀ t, t ∈ tags n → _id n ∈ tagNoteIds s t)
    ∧ (∀ p i, i ∈ folderNoteIds s p →
         ∃ n, noteMap s !! i = Some n ∧ trashed n = false ∧ folderPathname n = p)
    ∧ (∀ t i, i ∈ tagNoteIds s t →
         ∃ n, noteMap s !! i = Some n ∧ trashed n = false ∧ t ∈ tags n).
Proof.
  unfold indexConsistent. split.
  - intros (HA & HB & HC). split; [|split].
    + intros k n Hn Htr. destruct (HA _ _ Hn Htr) as [Hf Ht]. split; [done|].
      intros t Hin. by apply (proj1 (Forall_forall _ _) Ht).
    + intros p i Hin. unfold folderNoteIds, folderOf in Hin.
      destruct (folderMap s !! p) as [entry|] eqn:Hp; [|by apply not_elem_of_empty in Hin].
      cbn in Hin. specialize (HB _ _ Hp i Hin). cbn in HB.
      destruct (noteMap s !! i) as [n|]; [|done]. by exists n.
    + intros t i Hin. unfold tagNoteIds in Hin.
      destruct (tagMap s !! t) as [entry|] eqn:Ht; [|by apply not_elem_of_empty in Hin].
      cbn in Hin. specialize (HC _ _ Ht i Hin). cbn in HC.
      destruct (noteMap s !! i) as [n|]; [|done]. by exists n.
  - intros (HA & HB & HC). split; [|split].
    + intros k n Hn Htr. destruct (HA _ _ Hn Htr) as [Hf Ht]. split; [done|].
      apply Forall_forall. intros t Hin. by apply Ht.
    + intros p entry Hp i Hin.
      destruct (HB p i) as (n & Hn & Htr & Hfp).
      { unfold folderNoteIds, folderOf. by rewrite Hp. }
      by rewrite Hn.
    + intros t entry Ht i Hin.
      destruct (HC t i) as (n & Hn & Htr & Htag).
      { unfold tagNoteIds. by rewrite Ht. }
      by rewrite Hn.
Qed.

Lemma trashNote_index w (sid noteId : string) s (upd : NoteDoc) (d' : D)
    (f : PopulatedFolderDoc) :
  storageMap w !! sid = Some s →
  db_trashNote noteId (stores w (db s)) = (Returned (Some upd), d') →
  folderOf s (folderPathname upd) = Some f →
  ∃ w' s', trashNote sid noteId w = (Returned (Some (populate sid upd)), w')
    ∧ storageMap w' !! sid = Some s'
    ∧ stores w' = <[db s := d']> (stores w)
    ∧ db s' = db s
    ∧ noteMap s' = <[_id upd := populate sid upd]> (noteMap s)
    ∧ (∀ p, folderNoteIds s' p
            = if decide (p = folderPathname upd)
              then folderNoteIds s p ∖ {[ _id upd ]} else folderNoteIds s p)
    ∧ (∀ t, tagNoteIds s' t
            = if decide (t ∈ tags upd)
              then tagNoteIds s t ∖ {[ _id upd ]} else tagNoteIds s t)
    ∧ (∀ t, tagMap s' !! t = None ↔ tagMap s !! t = None)
    ∧ (∀ t e, tagMap s !! t = Some e → pt_id <$> tagMap s' !! t = Some (pt_id e)).
Proof.
  intros Hs Hdb Hf. unfold trashNote. rewrite Hs.
  unfold bind at 1. unfold awaitWrite at 1. rewrite Hdb.
  unfold bind at 1. unfold setStorageMap at 1.
  erewrite draftAt_run; [|exact Hs].
  unfold bind at 1.
  match goal with |- context [queueSyncingStorage ?a ?b ?w2] =>
    destruct (queueSyncingStorage_index a b w2) as (w3 & Hq & Hst & _ & _ & Hmaps) end.
  rewrite Hq. unfold ret.
  destruct (Hmaps sid) as [_ Hsome].
  edestruct Hsome as (s' & Hs' & Hnm & Hfm & Htm & _ & _ & Hdb').
  { cbn [storageMap set_storageMap]. apply lookup_insert_eq. }
  cbn [noteMap folderMap tagMap set_noteMap set_folderMap set_tagMap db] in Hnm, Hfm, Htm, Hdb'.
  change (folderPathname (populate sid upd)) with (folderPathname upd) in *.
  change (_id (populate sid upd)) with (_id upd) in *.
  change (tags (populate sid upd)) with (tags upd) in *.
  rewrite Hf in Hfm. cbn [fmap option_fmap option_map] in Hfm.
  set (mt := foldl _ ∅ (tags upd)) in Htm.
  assert (Hmt : ∀ t,
    mt !! t = if decide (t ∈ tags upd)
              then (λ e, withTagNoteIdSet (tagNoteIdSet e ∖ {[ _id upd ]}) e) <$> tagMap s !! t
              else None).
  { subst mt.
    assert (Hgen : ∀ (l : list string) (acc : gmap string PopulatedTagDoc) t,
      foldl (λ (acc : gmap string PopulatedTagDoc) (tag : string),
               match tagMap s !! tag with
               | None => acc
               | Some t0 =>
                 <[tag := withTagNoteIdSet (tagNoteIdSet t0 ∖ {[ _id upd ]}) t0]> acc
               end) acc l !! t
      = if decide (t ∈ l)
        then match tagMap s !! t with
             | Some e => Some (withTagNoteIdSet (tagNoteIdSet e ∖ {[ _id upd ]}) e)
             | None => acc !! t
             end
        else acc !! t).
    { induction l as [|t0 l IH]; intros acc t; cbn [foldl].
      - by rewrite decide_False by apply not_elem_of_nil.
      - rewrite IH. destruct (decide (t ∈ l)) as [Hl|Hl].
        + rewrite decide_True by (by right).
          destruct (tagMap s !! t) eqn:Ht; [done|].
          destruct (tagMap s !! t0) eqn:Ht0; [|done].
          apply lookup_insert_ne. congruence.
        + destruct (decide (t = t0)) as [->|Hne].
          * rewrite decide_True by (by left).
            destruct (tagMap s !! t0); [|done]. apply lookup_insert_eq.
          * rewrite decide_False by (by intros [?|?]%elem_of_cons).
            destruct (tagMap s !! t0); [|done]. by apply lookup_insert_ne. }
    intros t. rewrite Hgen, lookup_empty. destruct (decide _); [|done].
    by destruct (tagMap s !! t). }
  clearbody mt.
  exists w3, s'. split; [done|]. split; [done|].
  split; [by rewrite Hst|]. split; [done|]. split; [done|].
  split; [|split; [|split]].
  - intros p. unfold folderNoteIds, folderOf. rewrite Hfm.
    destruct (decide (p = folderPathname upd)) as [->|Hne].
    + rewrite lookup_insert_eq. unfold folderOf in Hf. by rewrite Hf.
    + by rewrite lookup_insert_ne.
  - intros t. unfold tagNoteIds. rewrite Htm, lookup_union, Hmt.
    destruct (decide (t ∈ tags upd)); [|by rewrite (left_id_L None (∪))].
    destruct (tagMap s !! t); cbn; [done|]. apply set_eq. intros x.
    rewrite elem_of_difference. split; [done|]. by intros [??].
  - intros t. rewrite Htm, lookup_union, Hmt.
    destruct (decide (t ∈ tags upd)); [|by rewrite (left_id_L None (∪))].
    destruct (tagMap s !! t); cbn; done.
  - intros t e He. rewrite Htm, lookup_union, Hmt, He.
    destruct (decide (t ∈ tags upd)); cbn; done.
Qed.

End IndexDeltas.

Section IndexInvariant.
Context {D : Type} `{!NoteDb D}.
Implicit Types (w : World D) (s storage : NoteStorage).

Lemma untrashNote_index w (sid noteId : string) s (noteDoc : NoteDoc) w1 :
  storageMap w !! sid = Some s →
  tagIdsFollowPrefix s →
  storeTagIdsFollowPrefix (stores w1 (db s)) →
  untrashNote sid noteId w = (Returned (Some noteDoc), w1) →
  ∃ s1, storageMap w1 !! sid = Some s1
    ∧ db s1 = db s
    ∧ noteMap s1 = <[_id noteDoc := noteDoc]> (noteMap s)
    ∧ (∀ p, folderNoteIds s1 p
            = if decide (p = folderPathname noteDoc)
              then folderNoteIds s p ∪ {[ _id noteDoc ]} else folderNoteIds s p)
    ∧ (∀ t, tagNoteIds s1 t
            = if decide (t ∈ tags noteDoc)
              then tagNoteIds s t ∪ {[ _id noteDoc ]} else tagNoteIds s t).
Proof.
  intros Hs Hidx Hstore.
  unfold untrashNote. rewrite Hs.
  unfold bind at 1. unfold awaitWrite at 1.
  destruct (db_untrashNote noteId (stores w (db s))) as [[untrashed|e] d1]; [|done].
  set (w0 := set_stores _ w).
  assert (Hw0 : storageMap w0 = storageMap w) by done.
  clearbody w0.
  destruct untrashed as [untrashed|].
  2:{ unfold bind at 1. destruct (folderOf s "undefined").
      - done.
      - unfold bind, awaitRead, ret, throw. by destruct (db_getFolder _ _). }
  set (nd := populate sid untrashed).
  unfold bind at 1.
  destruct (folderWithNote s nd w0) as [[folder|e] w0'] eqn:Hfolder;
    apply folderWithNote_inv in Hfolder as [-> Hfolder]; [|done].
  specialize (Hfolder _ eq_refl).
  unfold bind at 1. unfold tagsWithNote. unfold bind at 1.
  pose proof (promiseAll_tagWithNote_world s nd (tags nd) w0) as Hworld.
  destruct (promiseAll (tagWithNote s nd) (tags nd) w0) as [[l|e] w0'] eqn:Htags;
    simpl in Hworld; subst w0'; [|done].
  unfold liftOutcome. destruct (keyTagsById l) as [m|e] eqn:Hkey; [|done].
  unfold bind at 1. unfold setStorageMap at 1.
  erewrite draftAt_run; [|rewrite Hw0; exact Hs].
  unfold bind at 1.
  match goal with |- context [queueSyncingStorage ?a ?b ?w2] =>
    destruct (queueSyncingStorage_index a b w2) as (w3 & Hq & Hst & _ & _ & Hmaps) end.
  rewrite Hq. unfold ret. intros [= <- <-].
  destruct (Hmaps sid) as [_ Hsome].
  edestruct Hsome as (s1 & Hs1 & Hnm & Hfm & Htm & _ & _ & Hdb).
  { cbn [storageMap set_storageMap]. apply lookup_insert_eq. }
  cbn in Hst. rewrite Hst in Hstore.
  apply promiseAll_tagWithNote in Htags as [_ Htags]; [|done..].
  specialize (Htags _ eq_refl).
  pose proof (keyTagsById_spec _ _ _ _ _ Htags Hkey) as Hm.
  cbn in Hnm, Hfm, Htm, Hdb.
  exists s1. split; [done|]. split; [done|]. split; [done|].
  split.
  { intros p. unfold folderNoteIds, folderOf. rewrite Hfm.
    destruct (decide (p = folderPathname nd)) as [->|Hne].
    - by rewrite lookup_insert_eq.
    - by rewrite lookup_insert_ne. }
  intros t. unfold tagNoteIds at 1. rewrite Htm.
  destruct (Hm t) as [Hyes Hno].
  destruct (decide (t ∈ tags nd)) as [Hin|Hout].
  - destruct (Hyes Hin) as (e & He & Hset).
    rewrite (lookup_union_l' _ _ _ (mk_is_Some _ _ He)), He. done.
  - rewrite (lookup_union_r _ _ _ (Hno Hout)). done.
Qed.

(** ** The operations that keep the cross-index invariant *)

(** X3.  [createNote] keeps the index consistent: when it returns a new
    note that is not trashed and whose id the index did not hold, the note
    is in [noteMap] and the index of the storage is consistent again,
    provided tag documents are named after their tag and the store answers
    with the folders it was asked for. *)
Theorem createNote_preserves_indexConsistent w (sid : string) (props : NoteProps) s
    (noteDoc : NoteDoc) w1 :
  storageMap w !! sid = Some s →
  indexConsistent s →
  noteMap s !! _id noteDoc = None →
  trashed noteDoc = false →
  tagIdsFollowPrefix s →
  storeTagIdsFollowPrefix (stores w1 (db s)) →
  storeReturnsRequestedFolders (stores w1 (db s)) →
  createNote sid props w = (Returned (Some noteDoc), w1) →
  ∃ s1, storageMap w1 !! sid = Some s1
    ∧ noteMap s1 !! _id noteDoc = Some noteDoc
    ∧ indexConsistent s1.
Proof.
  intros Hs Hcons Hfresh Htr Hidx Hstore Hfolders Hcreate.
  destruct (createNote_index _ _ _ _ _ _ Hs Hidx Hstore Hfolders Hcreate)
    as (s1 & Hs1 & Hdb & Hnm & Hfolder & Hfids & Htags & Htids).
  exists s1. split; [done|]. split; [rewrite Hnm; apply lookup_insert_eq|].
  apply indexConsistent_alt in Hcons as (HA & HB & HC).
  apply indexConsistent_alt. split; [|split].
  - intros k n Hn Hntr. rewrite Hnm in Hn.
    destruct (decide (_id noteDoc = k)) as [<-|Hne].
    + rewrite lookup_insert_eq in Hn. injection Hn as <-. split.
      * rewrite Hfids, decide_True by done. apply elem_of_union. right.
        by apply elem_of_singleton.
      * intros t Hin. rewrite Htids, decide_True by done. apply elem_of_union. right.
        by apply elem_of_singleton.
    + rewrite lookup_insert_ne in Hn by done.
      destruct (HA _ _ Hn Hntr) as [Hf Ht]. split.
      * rewrite Hfids. destruct (decide _); [|done]. apply elem_of_union. by left.
      * intros t Hin. rewrite Htids. destruct (decide _); [|by apply Ht].
        apply elem_of_union. left. by apply Ht.
  - intros p i Hin. rewrite Hfids in Hin. rewrite Hnm.
    destruct (decide (i = _id noteDoc)) as [->|Hne].
    + rewrite lookup_insert_eq. exists noteDoc. split; [done|]. split; [done|].
      destruct (decide (p = folderPathname noteDoc)) as [->|Hp]; [done|].
      apply HB in Hin as (n & Hn & _). congruence.
    + rewrite lookup_insert_ne by done. apply HB.
      destruct (decide _); [|done].
      apply elem_of_union in Hin as [?|Hin]; [done|]. by apply elem_of_singleton in Hin.
  - intros t i Hin. rewrite Htids in Hin. rewrite Hnm.
    destruct (decide (i = _id noteDoc)) as [->|Hne].
    + rewrite lookup_insert_eq. exists noteDoc. split; [done|]. split; [done|].
      destruct (decide (t ∈ tags noteDoc)) as [Ht|Ht]; [done|].
      apply HC in Hin as (n & Hn & _). congruence.
    + rewrite lookup_insert_ne by done. apply HC.
      destruct (decide _); [|done].
      apply elem_of_union in Hin as [?|Hin]; [done|]. by apply elem_of_singleton in Hin.
Qed.

(** X8.  [purgeNote] keeps the index consistent: for an indexed note whose
    folder and tags have entries, once the store has purged it the call
    returns, [noteMap] no longer holds the note, and the index is consistent
    again. *)
Theorem purgeNote_preserves_indexConsistent w (sid noteId : string) s (noteDoc : NoteDoc)
    (d2 : D) :
  storageMap w !! sid = Some s →
  indexConsistent s →
  keyedById s →
  noteMap s !! noteId = Some noteDoc →
  is_Some (folderOf s (folderPathname noteDoc)) →
  (∀ t, t ∈ tags noteDoc → is_Some (tagMap s !! t)) →
  db_purgeNote noteId (stores w (db s)) = (Returned tt, d2) →
  ∃ w2 s2, purgeNote sid noteId w = (Returned tt, w2)
    ∧ storageMap w2 !! sid = Some s2
    ∧ noteMap s2 !! noteId = None
    ∧ indexConsistent s2.
Proof.
  intros Hs Hcons Hkeyed Hnote Hfolder Htags Hpurge.
  destruct (purgeNote_index w sid noteId s noteDoc d2 Hs Hnote Hfolder Htags Hpurge)
    as (w2 & s2 & Hrun & Hs2 & Hnm & Hfids & Htids).
  exists w2, s2. split; [done|]. split; [done|].
  split; [rewrite Hnm; apply lookup_delete_eq|].
  pose proof (Hkeyed _ _ Hnote) as Hid. cbn in Hid.
  apply indexConsistent_alt in Hcons as (HA & HB & HC).
  apply indexConsistent_alt. split; [|split].
  - intros k n Hn Hntr. rewrite Hnm in Hn.
    apply lookup_delete_Some in Hn as [Hne Hn].
    pose proof (Hkeyed _ _ Hn) as Hk. cbn in Hk.
    destruct (HA _ _ Hn Hntr) as [Hf Ht]. split.
    + rewrite Hfids. destruct (decide _); [|done].
      apply elem_of_difference. split; [done|]. rewrite elem_of_singleton. congruence.
    + intros t Hin. rewrite Htids. destruct (decide _); [|by apply Ht].
      apply elem_of_difference. split; [by apply Ht|]. rewrite elem_of_singleton. congruence.
  - intros p i Hin. rewrite Hfids in Hin. rewrite Hnm.
    destruct (decide (p = folderPathname noteDoc)) as [->|Hp].
    + apply elem_of_difference in Hin as [Hin Hne]. rewrite elem_of_singleton in Hne.
      rewrite lookup_delete_ne by congruence. by apply HB.
    + destruct (HB _ _ Hin) as (n & Hn & Hntr & Hfp).
      rewrite lookup_delete_ne; [by exists n|]. intros <-. congruence.
  - intros t i Hin. rewrite Htids in Hin. rewrite Hnm.
    destruct (decide (t ∈ tags noteDoc)) as [Ht|Ht].
    + apply elem_of_difference in Hin as [Hin Hne]. rewrite elem_of_singleton in Hne.
      rewrite lookup_delete_ne by congruence. by apply HC.
    + destruct (HC _ _ Hin) as (n & Hn & Hntr & Htag).
      rewrite lookup_delete_ne; [by exists n|]. intros <-. congruence.
Qed.

(** X5.  [trashNote] keeps the index consistent.  The store trashes the
    note and answers with a trashed document of that id; its folder has an
    entry, and the note the index holds under that id, if any, has the same
    folder and tags.  Then the call returns the document with the id of the
    storage added, [noteMap] holds it, its id is filed under no folder and
    no tag, and the index is consistent again. *)
Theorem trashNote_preserves_indexConsistent w (sid noteId : string) s (upd : NoteDoc)
    (d' : D) :
  storageMap w !! sid = Some s →
  indexConsistent s →
  keyedById s →
  db_trashNote noteId (stores w (db s)) = (Returned (Some upd), d') →
  _id upd = noteId →
  trashed upd = true →
  is_Some (folderOf s (folderPathname upd)) →
  (∀ n, noteMap s !! noteId = Some n →
     folderPathname n = folderPathname upd ∧ tags n = tags upd) →
  ∃ w' s', trashNote sid noteId w = (Returned (Some (populate sid upd)), w')
    ∧ storageMap w' !! sid = Some s'
    ∧ noteMap s' !! noteId = Some (populate sid upd)
    ∧ notFiled s' noteId
    ∧ indexConsistent s'.
Proof.
  intros Hs Hcons Hkeyed Htrash Hid Htr [f Hf] Hagree.
  destruct (trashNote_index w sid noteId s upd d' f Hs Htrash Hf)
    as (w' & s' & Hrun & Hs' & _ & _ & Hnm & Hfids & Htids & _).
  rewrite Hid in *.
  exists w', s'. split; [done|]. split; [done|].
  split; [by rewrite Hnm, lookup_insert_eq|].
  apply indexConsistent_alt in Hcons as (HA & HB & HC).
  split.
  { split.
    - intros p Hin. rewrite Hfids in Hin.
      destruct (decide (p = folderPathname upd)) as [->|Hp].
      + apply elem_of_difference in Hin as [_ Hne]. by rewrite elem_of_singleton in Hne.
      + destruct (HB _ _ Hin) as (n0 & Hn0 & _ & Hfp).
        destruct (Hagree _ Hn0) as [Hsame _]. congruence.
    - intros t Hin. rewrite Htids in Hin.
      destruct (decide (t ∈ tags upd)) as [Ht|Ht].
      + apply elem_of_difference in Hin as [_ Hne]. by rewrite elem_of_singleton in Hne.
      + destruct (HC _ _ Hin) as (n0 & Hn0 & _ & Htag).
        destruct (Hagree _ Hn0) as [_ Hsame]. congruence. }
  apply indexConsistent_alt. split; [|split].
  - intros k n0 Hn0 Hntr. rewrite Hnm in Hn0.
    destruct (decide (noteId = k)) as [<-|Hne].
    { rewrite lookup_insert_eq in Hn0. injection Hn0 as <-. cbn in Hntr. congruence. }
    rewrite lookup_insert_ne in Hn0 by done.
    pose proof (Hkeyed _ _ Hn0) as Hk. cbn in Hk.
    destruct (HA _ _ Hn0 Hntr) as [Hfo Hta]. split.
    + rewrite Hfids. destruct (decide _); [|done].
      apply elem_of_difference. split; [done|]. rewrite elem_of_singleton. congruence.
    + intros t Hin. rewrite Htids. destruct (decide _); [|by apply Hta].
      apply elem_of_difference. split; [by apply Hta|]. rewrite elem_of_singleton. congruence.
  - intros p i Hin. rewrite Hfids in Hin. rewrite Hnm.
    destruct (decide (p = folderPathname upd)) as [->|Hp].
    + apply elem_of_difference in Hin as [Hin Hne]. rewrite elem_of_singleton in Hne.
      rewrite lookup_insert_ne by congruence. by apply HB.
    + destruct (HB _ _ Hin) as (n0 & Hn0 & Hntr & Hfp).
      rewrite lookup_insert_ne; [by exists n0|]. intros <-.
      destruct (Hagree _ Hn0) as [Hsame _]. congruence.
  - intros t i Hin. rewrite Htids in Hin. rewrite Hnm.
    destruct (decide (t ∈ tags upd)) as [Ht|Ht].
    + apply elem_of_difference in Hin as [Hin Hne]. rewrite elem_of_singleton in Hne.
      rewrite lookup_insert_ne by congruence. by apply HC.
    + destruct (HC _ _ Hin) as (n0 & Hn0 & Hntr & Htag).
      rewrite lookup_insert_ne; [by exists n0|]. intros <-.
      destruct (Hagree _ Hn0) as [_ Hsame]. congruence.
Qed.

End IndexInvariant.

Section Untrash.
Context {D : Type} `{!NoteDb D}.
Implicit Types (w : World D) (s storage : NoteStorage).

(** X6.  [untrashNote] keeps the index consistent: when it returns the
    restored note, and the index held that note as trashed (or not at all),
    the note is in [noteMap], its id is filed under its folder, and the
    index is consistent again. *)
Theorem untrashNote_preserves_indexConsistent w (sid noteId : string) s (noteDoc : NoteDoc) w1 :
  storageMap w !! sid = Some s →
  indexConsistent s →
  (∀ n, noteMap s !! _id noteDoc = Some n → trashed n = true) →
  trashed noteDoc = false →
  tagIdsFollowPrefix s →
  storeTagIdsFollowPrefix (stores w1 (db s)) →
  untrashNote sid noteId w = (Returned (Some noteDoc), w1) →
  ∃ s1, storageMap w1 !! sid = Some s1
    ∧ noteMap s1 !! _id noteDoc = Some noteDoc
    ∧ _id noteDoc ∈ folderNoteIds s1 (folderPathname noteDoc)
    ∧ indexConsistent s1.
Proof.
  intros Hs Hcons Htrashed Htr Hidx Hstore Hrun.
  destruct (untrashNote_index _ _ _ _ _ _ Hs Hidx Hstore Hrun)
    as (s1 & Hs1 & Hdb & Hnm & Hfids & Htids).
  exists s1. split; [done|]. split; [rewrite Hnm; apply lookup_insert_eq|].
  split.
  { rewrite Hfids, decide_True by done. apply elem_of_union. right. by apply elem_of_singleton. }
  apply indexConsistent_alt in Hcons as (HA & HB & HC).
  assert (Hnot : ∀ n, noteMap s !! _id noteDoc = Some n → trashed n = false → False).
  { intros n Hn Hf. rewrite (Htrashed _ Hn) in Hf. done. }
  apply indexConsistent_alt. split; [|split].
  - intros k n Hn Hntr. rewrite Hnm in Hn.
    destruct (decide (_id noteDoc = k)) as [<-|Hne].
    + rewrite lookup_insert_eq in Hn. injection Hn as <-. split.
      * rewrite Hfids, decide_True by done. apply elem_of_union. right.
        by apply elem_of_singleton.
      * intros t Hin. rewrite Htids, decide_True by done. apply elem_of_union. right.
        by apply elem_of_singleton.
    + rewrite lookup_insert_ne in Hn by done.
      destruct (HA _ _ Hn Hntr) as [Hf Ht]. split.
      * rewrite Hfids. destruct (decide _); [|done]. apply elem_of_union. by left.
      * intros t Hin. rewrite Htids. destruct (decide _); [|by apply Ht].
        apply elem_of_union. left. by apply Ht.
  - intros p i Hin. rewrite Hfids in Hin. rewrite Hnm.
    destruct (decide (i = _id noteDoc)) as [->|Hne].
    + rewrite lookup_insert_eq. exists noteDoc. split; [done|]. split; [done|].
      destruct (decide (p = folderPathname noteDoc)) as [->|Hp]; [done|].
      apply HB in Hin as (n & Hn & Hntr & _). by destruct (Hnot n).
    + rewrite lookup_insert_ne by done. apply HB.
      destruct (decide _); [|done].
      apply elem_of_union in Hin as [?|Hin]; [done|]. by apply elem_of_singleton in Hin.
  - intros t i Hin. rewrite Htids in Hin. rewrite Hnm.
    destruct (decide (i = _id noteDoc)) as [->|Hne].
    + rewrite lookup_insert_eq. exists noteDoc. split; [done|]. split; [done|].
      destruct (decide (t ∈ tags noteDoc)) as [Ht|Ht]; [done|].
      apply HC in Hin as (n & Hn & Hntr & _). by destruct (Hnot n).
    + rewrite lookup_insert_ne by done. apply HC.
      destruct (decide _); [|done].
      apply elem_of_union in Hin as [?|Hin]; [done|]. by apply elem_of_singleton in Hin.
Qed.

Lemma remove_add_member (X : gset string) (i : string) :
  i ∈ X → (X ∖ {[ i ]}) ∪ {[ i ]} = X.
Proof.
  intros Hin. apply set_eq. intros x.
  rewrite elem_of_union, elem_of_difference, elem_of_singleton.
  split; [intros [[? ?]|Heq]; [done|by rewrite Heq]|].
  intros Hx. destruct (decide (x = i)); [by right|by left].
Qed.

(** X7.  [trashNote] followed by [untrashNote] restores the index: when
    both return and the store hands back the note with the same id, folder
    and tags, every folder path and every tag has the set of note ids it had
    before the note was trashed. *)
Theorem trashNote_untrashNote_round_trip w (sid noteId : string) s (n1 n2 : NoteDoc) w1 w2 :
  storageMap w !! sid = Some s →
  tagIdsFollowPrefix s →
  storeTagIdsFollowPrefix (stores w2 (db s)) →
  trashNote sid noteId w = (Returned (Some n1), w1) →
  untrashNote sid noteId w1 = (Returned (Some n2), w2) →
  _id n2 = _id n1 → folderPathname n2 = folderPathname n1 → tags n2 = tags n1 →
  _id n1 ∈ folderNoteIds s (folderPathname n1) →
  (∀ t, t ∈ tags n1 → _id n1 ∈ tagNoteIds s t) →
  ∃ s2, storageMap w2 !! sid = Some s2
    ∧ noteMap s2 !! _id n1 = Some n2
    ∧ (∀ p, folderNoteIds s2 p = folderNoteIds s p)
    ∧ (∀ t, tagNoteIds s2 t = tagNoteIds s t).
Proof.
  intros Hs Hidx Hstore Hrun1 Hrun2 Hid Hfp Htg Hfiled Htagged.
  destruct (db_trashNote noteId (stores w (db s))) as [[[upd|]|e] d1] eqn:Htrash.
  2:{ unfold trashNote in Hrun1. rewrite Hs in Hrun1.
      unfold bind, awaitWrite in Hrun1. by rewrite Htrash in Hrun1. }
  2:{ unfold trashNote in Hrun1. rewrite Hs in Hrun1.
      unfold bind, awaitWrite in Hrun1. by rewrite Htrash in Hrun1. }
  assert (Hfolder : ∃ f, folderOf s (folderPathname upd) = Some f).
  { destruct (folderOf s (folderPathname upd)) as [f|] eqn:Hf; [by exists f|].
    exfalso. unfold trashNote in Hrun1. rewrite Hs in Hrun1.
    unfold bind at 1 in Hrun1. unfold awaitWrite at 1 in Hrun1. rewrite Htrash in Hrun1.
    unfold bind at 1 in Hrun1. unfold setStorageMap at 1 in Hrun1.
    erewrite draftAt_run in Hrun1; [|exact Hs].
    unfold bind at 1 in Hrun1.
    match type of Hrun1 with context [queueSyncingStorage ?a ?b ?w0] =>
      destruct (queueSyncingStorage_index a b w0) as (w3 & Hq & _) end.
    rewrite Hq in Hrun1. unfold ret in Hrun1. injection Hrun1 as <- <-.
    unfold folderNoteIds in Hfiled.
    change (folderPathname (populate sid upd)) with (folderPathname upd) in Hfiled.
    rewrite Hf in Hfiled. by apply not_elem_of_empty in Hfiled. }
  destruct Hfolder as [f Hf].
  destruct (trashNote_index w sid noteId s upd d1 f Hs Htrash Hf)
    as (w' & s1 & Hrun & Hs1 & _ & Hdb1 & Hnm1 & Hfids1 & Htids1 & Hnone1 & Hids1).
  rewrite Hrun in Hrun1. injection Hrun1 as <- <-.
  change (_id (populate sid upd)) with (_id upd) in *.
  change (folderPathname (populate sid upd)) with (folderPathname upd) in *.
  change (tags (populate sid upd)) with (tags upd) in *.
  assert (Hidx1 : tagIdsFollowPrefix s1).
  { intros t e' He'. cbn. destruct (tagMap s !! t) as [e|] eqn:He.
    - pose proof (Hids1 _ _ He) as Hpt. rewrite He' in Hpt. cbn in Hpt.
      injection Hpt as ->. by apply (Hidx _ _ He).
    - apply Hnone1 in He. congruence. }
  rewrite <- Hdb1 in Hstore.
  destruct (untrashNote_index _ _ _ _ _ _ Hs1 Hidx1 Hstore Hrun2)
    as (s2 & Hs2 & Hdb2 & Hnm2 & Hfids2 & Htids2).
  exists s2. split; [done|]. split; [by rewrite Hnm2, Hid, lookup_insert_eq|].
  split.
  - intros p. rewrite Hfids2, Hfids1, Hfp, Hid.
    destruct (decide (p = folderPathname upd)) as [->|]; [|done].
    by apply remove_add_member.
  - intros t. rewrite Htids2, Htids1, Htg, Hid.
    destruct (decide (t ∈ tags upd)); [|done].
    apply remove_add_member. by apply Htagged.
Qed.

End Untrash.

(** ** [updateNote] *)

Section UpdateDelta.
Context {D : Type} `{!NoteDb D}.
Implicit Types (w : World D) (s storage : NoteStorage).

Lemma folderEntriesKeyed_lookup s (p : string) (f : PopulatedFolderDoc) :
  folderEntriesKeyed s → folderOf s p = Some f → pf_pathname f = p.
Proof.
  intros Hk Hf. unfold folderOf in Hf.
  destruct (folderMap s !! p) as [entry|] eqn:Hp; [|done]. cbn in Hf. subst entry.
  exact (Hk _ _ Hp).
Qed.

Lemma untagAll_returns s (i : string) (l : list string) (m : gmap string PopulatedTagDoc) :
  untagAll s i l = Returned m → ∀ t, t ∈ l → is_Some (tagMap s !! t).
Proof.
  unfold untagAll. generalize (∅ : gmap string PopulatedTagDoc).
  induction l as [|t0 l IH]; intros acc Hrun t Hin; [by apply elem_of_nil in Hin|].
  cbn [foldl obind] in Hrun.
  destruct (tagMap s !! t0) as [e0|] eqn:He0.
  - apply elem_of_cons in Hin as [->|Hin]; [by eexists|]. by eapply IH.
  - by rewrite foldl_obind_Threw in Hrun.
Qed.

Lemma elem_of_js_difference (l k : list string) (t : string) :
  t ∈ difference l k ↔ t ∈ l ∧ t ∉ k.
Proof. unfold difference. by rewrite elem_of_remove_dups, list_elem_of_difference. Qed.

Lemma refresh_parents_ids (parents : list FolderDoc)
    (fm : gmap string (option PopulatedFolderDoc)) (p : string) :
  (∀ fd, fd ∈ parents →
     from_option noteIdSet ∅ (mjoin (fm !! folder_pathname fd)) = ∅) →
  from_option noteIdSet ∅
    (mjoin (foldl (λ fm a, <[pf_pathname a := Some a]> fm) fm
              ((λ folderDoc, populateFolder (Some folderDoc) (folder_pathname folderDoc) ∅)
                 <$> parents) !! p))
  = from_option noteIdSet ∅ (mjoin (fm !! p)).
Proof. intros Hnone. rewrite foldl_fmap. by apply (withParents_ids parents fm p). Qed.

Lemma updateNote_index w (sid noteId : string) (props : NoteProps) s
    (prev : option NoteDoc) (noteDoc : NoteDoc) w1 :
  storageMap w !! sid = Some s →
  folderEntriesKeyed s →
  tagIdsFollowPrefix s →
  storeTagIdsFollowPrefix (stores w1 (db s)) →
  storeReturnsRequestedFolders (stores w1 (db s)) →
  db_getNote noteId (stores w (db s)) = Returned prev →
  updateNote sid noteId props w = (Returned (Some noteDoc), w1) →
  ∃ s1 indexed, storageMap w1 !! sid = Some s1
    ∧ noteMap s !! _id noteDoc = Some indexed
    ∧ noteMap s1 = <[_id noteDoc := noteDoc]> (noteMap s)
    ∧ (∀ p, folderNoteIds s1 p
            = if decide (p = folderPathname noteDoc)
              then folderNoteIds s p ∪ {[ _id noteDoc ]}
              else if decide (p = folderPathname (default noteDoc prev))
                   then folderNoteIds s p ∖ {[ noteId ]}
                   else folderNoteIds s p)
    ∧ (∀ t, tagNoteIds s1 t
            = if decide (t ∈ tags noteDoc)
              then tagNoteIds s t ∪ {[ _id noteDoc ]}
              else if decide (t ∈ tags indexed)
                   then tagNoteIds s t ∖ {[ _id noteDoc ]}
                   else tagNoteIds s t).
Proof.
  intros Hs Hkeyed Hidx Hstore Hfolders Hget.
  unfold updateNote. rewrite Hs.
  unfold bind at 1. unfold awaitRead at 1. rewrite Hget.
  unfold bind at 1. unfold awaitWrite at 1.
  destruct (db_updateNote noteId props (stores w (db s))) as [[[upd|]|e] d1]; [|done..].
  set (w0 := set_stores _ w).
  assert (Hw0 : storageMap w0 = storageMap w) by done.
  clearbody w0.
  set (nd := populate sid upd).
  set (p0 := folderPathname (default nd prev)).
  unfold bind at 1. unfold awaitRead at 1.
  destruct (db_getFoldersByPathnames _ (stores w0 (db s))) as [parents|e] eqn:Hparents;
    [|done].
  unfold bind at 1.
  destruct (folderWithNote s nd w0) as [[folder|e] w0'] eqn:Hfolder; [|done].
  pose proof Hfolder as Hfolder'.
  apply folderWithNote_inv in Hfolder' as [-> Hfset].
  specialize (Hfset _ eq_refl).
  assert (Hfpath : pf_pathname folder = folderPathname nd).
  { unfold folderWithNote in Hfolder.
    destruct (folderOf s (folderPathname nd)) as [f0|] eqn:Hf0.
    - injection Hfolder as <-. cbn. exact (folderEntriesKeyed_lookup s _ _ Hkeyed Hf0).
    - unfold bind, awaitRead, ret in Hfolder. destruct (db_getFolder _ _); [|done].
      by injection Hfolder as <-. }
  unfold bind at 1. unfold liftOutcome at 1.
  destruct (noteMap s !! _id nd) as [indexed|] eqn:Hindexed; [|done].
  destruct (untagAll s (_id nd) (difference (tags indexed) (tags nd))) as [removed|e]
    eqn:Hremoved; [|done].
  unfold bind at 1. unfold tagsWithNote. unfold bind at 1.
  pose proof (promiseAll_tagWithNote_world s nd (tags nd) w0) as Hworld.
  destruct (promiseAll (tagWithNote s nd) (tags nd) w0) as [[l|e] w0'] eqn:Htags;
    simpl in Hworld; subst w0'; [|done].
  unfold liftOutcome. destruct (keyTagsById l) as [m|e] eqn:Hkey; [|done].
  unfold bind at 1. unfold setStorageMap at 1.
  erewrite draftSeq_run; [|apply draftAt_run; rewrite Hw0; exact Hs].
  erewrite draftSeq_run; [|apply draftForEach_at, lookup_insert_eq].
  erewrite draftAt_run; [|apply lookup_insert_eq].
  unfold bind at 1.
  match goal with |- context [queueSyncingStorage ?a ?b ?w2] =>
    destruct (queueSyncingStorage_index a b w2) as (w3 & Hq & Hst & _ & _ & Hmaps) end.
  rewrite Hq. unfold ret. intros [= <- <-].
  destruct (Hmaps sid) as [_ Hsome].
  edestruct Hsome as (s1 & Hs1 & Hnm & Hfm & Htm & _ & _ & Hdb).
  { cbn [storageMap set_storageMap]. apply lookup_insert_eq. }
  cbn [stores set_storageMap] in Hst. rewrite Hst in Hstore, Hfolders.
  apply promiseAll_tagWithNote in Htags as [_ Htags]; [|done..].
  specialize (Htags _ eq_refl).
  pose proof (keyTagsById_spec _ _ _ _ _ Htags Hkey) as Hm.
  pose proof (untagAll_returns _ _ _ _ Hremoved) as Hentries.
  destruct (untagAll_spec s (_id nd) _ Hentries) as (removed' & Hremoved' & Hrem).
  rewrite Hremoved in Hremoved'. injection Hremoved' as <-.
  cbn [noteMap folderMap tagMap set_noteMap set_folderMap set_tagMap] in Hnm, Hfm, Htm.
  match type of Hfm with context [foldl ?f ?s0 ?l0] =>
    destruct (foldl_set_folderMap l0 pf_pathname Some s0) as (Hf1 & Hf2 & Hf3 & Hf4) end.
  cbn [noteMap folderMap tagMap set_noteMap set_folderMap set_tagMap] in Hf1, Hf2, Hf3, Hf4.
  exists s1, indexed. split; [done|]. split; [done|].
  split; [by rewrite Hnm, Hf2|].
  split.
  { intros p. change (folderPathname (default nd prev)) with p0.
    unfold folderNoteIds at 1. unfold folderOf. rewrite Hfm, Hf1.
    rewrite !foldl_app. cbn [foldl]. rewrite Hfpath.
    destruct (decide (p = folderPathname nd)) as [->|Hne].
    { by rewrite lookup_insert_eq. }
    rewrite lookup_insert_ne by done.
    assert (Hrequested : ∀ fd, fd ∈ parents → folderOf s (folder_pathname fd) = None).
    { intros fd Hin. apply (Hfolders _ _ Hparents) in Hin.
      unfold parentFolderPathnamesToCheck in Hin.
      apply list_elem_of_In, filter_In in Hin as [_ Hnone].
      by apply bool_decide_eq_true_1 in Hnone. }
    match goal with |- context [foldl _ (foldl _ (folderMap s) ?rp) (_ <$> parents)] =>
      set (l1 := rp) end.
    assert (Hl1 : (l1 = [] ∧ (p0 = folderPathname nd ∨ folderOf s p0 = None))
                ∨ (∃ pf, folderOf s p0 = Some pf ∧ pf_pathname pf = p0
                     ∧ p0 ≠ folderPathname nd
                     ∧ l1 = [withNoteIdSet (noteIdSet pf ∖ {[ noteId ]}) pf])).
    { subst l1. fold p0. destruct (String.eqb_spec p0 (folderPathname nd)) as [Heq|Hchanged];
        cbn [negb]; [left; split; [done|by left]|].
      destruct (folderOf s p0) as [pf|] eqn:Hpf; [|left; split; [done|by right]].
      right. exists pf. split; [done|]. split; [|done].
      exact (folderEntriesKeyed_lookup s _ _ Hkeyed Hpf). }
    clearbody l1.
    rewrite refresh_parents_ids.
    - destruct Hl1 as [[-> Hp0]|(pf & Hpf & Hpfp & Hchanged & ->)]; cbn [foldl].
      + destruct (decide (p = p0)) as [->|Hp]; [|done].
        destruct Hp0 as [Hp0|Hp0]; [done|].
        unfold folderNoteIds. rewrite Hp0. cbn. fold (folderOf s p0). rewrite Hp0. cbn.
        apply set_eq. intros x. rewrite elem_of_difference. split; [done|]. by intros [??].
      + cbn [withNoteIdSet pf_pathname]. rewrite Hpfp.
        destruct (decide (p = p0)) as [->|Hp].
        * rewrite lookup_insert_eq. cbn. unfold folderNoteIds. by rewrite Hpf.
        * by rewrite lookup_insert_ne.
    - intros fd Hin. apply Hrequested in Hin.
      destruct Hl1 as [[-> _]|(pf & Hpf & Hpfp & Hchanged & ->)]; cbn [foldl].
      + unfold folderOf in Hin. by rewrite Hin.
      + cbn [withNoteIdSet pf_pathname]. rewrite Hpfp.
        rewrite lookup_insert_ne by (intros Heq; rewrite Heq, Hin in Hpf; done).
        unfold folderOf in Hin. by rewrite Hin. }
  intros t. unfold tagNoteIds at 1. rewrite Htm.
  destruct (Hm t) as [Hyes Hno].
  destruct (decide (t ∈ tags nd)) as [Hin|Hout].
  - destruct (Hyes Hin) as (e & He & Hset).
    rewrite (lookup_union_l' _ _ _ (mk_is_Some _ _ He)), He. done.
  - rewrite (lookup_union_r _ _ _ (Hno Hout)).
    destruct (Hrem t) as [Hryes Hrno].
    destruct (decide (t ∈ tags indexed)) as [Hti|Hti].
    + destruct Hryes as (e0 & He0 & Hr0); [by apply elem_of_js_difference|].
      rewrite (lookup_union_l' _ _ _ (mk_is_Some _ _ Hr0)), Hr0. cbn.
      unfold tagNoteIds. by rewrite He0.
    + assert (Hnotin : t ∉ difference (tags indexed) (tags nd)).
      { intros [? _]%elem_of_js_difference. done. }
      by rewrite (lookup_union_r _ _ _ (Hrno Hnotin)).
Qed.

End UpdateDelta.

Section UpdateInvariant.
Context {D : Type} `{!NoteDb D}.
Implicit Types (w : World D) (s storage : NoteStorage).

(** X4.  [updateNote] keeps the index consistent: when it returns a note
    that is not trashed, the note is in [noteMap], its id is filed under its
    new folder and no longer under the previous one when the folder changed,
    and the index is consistent again.  The index and the store must agree
    on the folder the note was in before. *)
Theorem updateNote_preserves_indexConsistent w (sid noteId : string) (props : NoteProps) s
    (prev : option NoteDoc) (noteDoc : NoteDoc) w1 :
  storageMap w !! sid = Some s →
  indexConsistent s → keyedById s → folderEntriesKeyed s → tagIdsFollowPrefix s →
  storeTagIdsFollowPrefix (stores w1 (db s)) →
  storeReturnsRequestedFolders (stores w1 (db s)) →
  db_getNote noteId (stores w (db s)) = Returned prev →
  updateNote sid noteId props w = (Returned (Some noteDoc), w1) →
  _id noteDoc = noteId →
  trashed noteDoc = false →
  (∀ indexed, noteMap s !! noteId = Some indexed →
     folderPathname (default noteDoc prev) = folderPathname indexed) →
  ∃ s1, storageMap w1 !! sid = Some s1
    ∧ noteMap s1 !! noteId = Some noteDoc
    ∧ noteId ∈ folderNoteIds s1 (folderPathname noteDoc)
    ∧ (folderPathname (default noteDoc prev) ≠ folderPathname noteDoc →
       noteId ∉ folderNoteIds s1 (folderPathname (default noteDoc prev)))
    ∧ indexConsistent s1.
Proof.
  intros Hs Hcons Hkeyed Hfkeyed Hidx Hstore Hfolders Hget Hrun Hid Htr Hagree.
  destruct (updateNote_index _ _ _ _ _ _ _ _ Hs Hfkeyed Hidx Hstore Hfolders Hget Hrun)
    as (s1 & indexed & Hs1 & Hindexed & Hnm & Hfids & Htids).
  rewrite Hid in *. specialize (Hagree _ Hindexed).
  set (p0 := folderPathname (default noteDoc prev)) in *.
  exists s1. split; [done|]. split; [rewrite Hnm; apply lookup_insert_eq|].
  split.
  { rewrite Hfids, decide_True by done. apply elem_of_union. right. by apply elem_of_singleton. }
  split.
  { intros Hchanged. rewrite Hfids, decide_False, decide_True by done.
    intros [_ Hne]%elem_of_difference. by apply Hne, elem_of_singleton. }
  apply indexConsistent_alt in Hcons as (HA & HB & HC).
  apply indexConsistent_alt. split; [|split].
  - intros k n Hn Hntr. rewrite Hnm in Hn.
    destruct (decide (noteId = k)) as [<-|Hne].
    + rewrite lookup_insert_eq in Hn. injection Hn as <-. rewrite Hid. split.
      * rewrite Hfids, decide_True by done. apply elem_of_union. right.
        by apply elem_of_singleton.
      * intros t Hin. rewrite Htids, decide_True by done. apply elem_of_union. right.
        by apply elem_of_singleton.
    + rewrite lookup_insert_ne in Hn by done.
      pose proof (Hkeyed _ _ Hn) as Hk. cbn in Hk.
      destruct (HA _ _ Hn Hntr) as [Hf Ht]. split.
      * rewrite Hfids. destruct (decide _); [apply elem_of_union; by left|].
        destruct (decide _); [|done].
        apply elem_of_difference. split; [done|]. rewrite elem_of_singleton. congruence.
      * intros t Hin. rewrite Htids. destruct (decide _); [apply elem_of_union; left; by apply Ht|].
        destruct (decide _); [|by apply Ht].
        apply elem_of_difference. split; [by apply Ht|]. rewrite elem_of_singleton. congruence.
  - intros p i Hin. rewrite Hfids in Hin. rewrite Hnm.
    destruct (decide (i = noteId)) as [->|Hne].
    + rewrite lookup_insert_eq. exists noteDoc. split; [done|]. split; [done|].
      destruct (decide (p = folderPathname noteDoc)) as [->|Hp]; [done|].
      destruct (decide (p = p0)) as [->|Hp0].
      * apply elem_of_difference in Hin as [_ Hnot]. by rewrite elem_of_singleton in Hnot.
      * destruct (HB _ _ Hin) as (n & Hn & _ & Hfp). congruence.
    + rewrite lookup_insert_ne by done. apply HB.
      destruct (decide _).
      * apply elem_of_union in Hin as [?|Hin]; [done|]. by apply elem_of_singleton in Hin.
      * destruct (decide _); [|done]. by apply elem_of_difference in Hin as [? _].
  - intros t i Hin. rewrite Htids in Hin. rewrite Hnm.
    destruct (decide (i = noteId)) as [->|Hne].
    + rewrite lookup_insert_eq. exists noteDoc. split; [done|]. split; [done|].
      destruct (decide (t ∈ tags noteDoc)) as [Ht|Ht]; [done|].
      destruct (decide (t ∈ tags indexed)) as [Hti|Hti].
      * apply elem_of_difference in Hin as [_ Hnot]. by rewrite elem_of_singleton in Hnot.
      * destruct (HC _ _ Hin) as (n & Hn & _ & Htag). congruence.
    + rewrite lookup_insert_ne by done. apply HC.
      destruct (decide _).
      * apply elem_of_union in Hin as [?|Hin]; [done|]. by apply elem_of_singleton in Hin.
      * destruct (decide _); [|done]. by apply elem_of_difference in Hin as [? _].
Qed.

End UpdateInvariant.

(** ** [renameFolder] and the depth of a path *)

Section RenameDepth.
Context {D : Type} `{!NoteDb D}.
Implicit Types (w : World D) (s storage : NoteStorage).

Lemma string_app_cons (a : ascii) (p t : string) : String a p +:+ t = String a (p +:+ t).
Proof. reflexivity. Qed.

Lemma prefix_decompose (p t : string) :
  String.prefix p t = true → t = p +:+ string_drop (String.length p) t.
Proof.
  revert t. induction p as [|a p IH]; intros t Hp; [reflexivity|].
  destruct t as [|b t]; [done|]. cbn [String.prefix] in Hp.
  destruct (ascii_dec a b) as [->|]; [|done].
  cbn [String.length string_drop]. rewrite string_app_cons. f_equal. by apply IH.
Qed.

Lemma prefix_app_l (p q t : string) :
  String.prefix (p +:+ q) t = true → String.prefix p t = true.
Proof.
  revert t. induction p as [|a p IH]; intros t Hp; [by destruct t|].
  rewrite string_app_cons in Hp.
  destruct t as [|b t]; [done|]. cbn [String.prefix] in *.
  destruct (ascii_dec a b); [|done]. by apply IH.
Qed.

Lemma occurrences_app (c : ascii) (a b : string) :
  occurrences c (a +:+ b) = (occurrences c a + occurrences c b)%nat.
Proof.
  induction a as [|x a IH]; [reflexivity|].
  rewrite string_app_cons. cbn [occurrences]. rewrite IH. lia.
Qed.

Lemma string_app_nil_r (a : string) : a +:+ "" = a.
Proof. induction a as [|x a IH]; [reflexivity|]. by rewrite string_app_cons, IH. Qed.

Lemma string_drop_all (a : string) : string_drop (String.length a) a = "".
Proof. induction a as [|x a IH]; [reflexivity|]. exact IH. Qed.

Lemma string_prefix_refl (a : string) : String.prefix a a = true.
Proof.
  induction a as [|x a IH]; [reflexivity|]. cbn [String.prefix].
  by destruct (ascii_dec x x).
Qed.

Lemma promiseAll_all_throw {A B : Type} (f : A → M (World D) B) (l : list A) w :
  (∀ a, a ∈ l → ∃ o, f a w = (o, w)) →
  ∃ o, promiseAll f l w = (o, w).
Proof.
  induction l as [|a l IH]; intros Hall; simpl; [by eexists|].
  destruct (Hall a) as [o1 ->]; [by left|].
  destruct IH as [o2 ->]; [intros a' Ha'; apply Hall; by right|].
  by eexists.
Qed.

(** A replacement text without [$] is inserted as it is. *)
Lemma getSubstitution_plain (matched before after rep : string) :
  includesDollar rep = false → getSubstitution matched before after rep = rep.
Proof.
  induction rep as [|c rep IH]; [done|].
  cbn [includesDollar]. intros [Hc Hrep]%orb_false_elim.
  cbn [getSubstitution]. rewrite Hc. f_equal. by apply IH.
Qed.

Lemma replacePrefix_plain (pathname newPathname folderPathname : string) :
  includesDollar newPathname = false →
  String.prefix pathname folderPathname = true →
  replacePrefix pathname newPathname folderPathname
  = newPathname +:+ string_drop (String.length pathname) folderPathname.
Proof.
  intros Hplain Hp. unfold replacePrefix. rewrite Hp. cbv zeta.
  by rewrite getSubstitution_plain.
Qed.

(** When every callback is rejected and writes nothing, so is the whole. *)
Lemma promiseAll_all_reject {A B : Type} (f : A → M (World D) B) (a : A) (l : list A) w :
  (∀ a', a' ∈ a :: l → ∃ e, f a' w = (Threw e, w)) →
  ∃ e, promiseAll f (a :: l) w = (Threw e, w).
Proof.
  intros Hall. cbn [promiseAll].
  destruct (Hall a) as [e ->]; [by left|].
  destruct (promiseAll_all_throw f l w) as [o ->].
  { intros a' Ha'. destruct (Hall a') as [e' He']; [by right|]. by eexists. }
  by exists e.
Qed.

(** The callback of [renameFolder] on a folder whose new path has another
    depth: it reads the store and rejects. *)
Lemma renameOne_changed_depth s (pathname newPathname folderPathname : string) w :
  includesDollar newPathname = false →
  String.prefix pathname folderPathname = true →
  split_length pathname ≠ split_length newPathname →
  ∃ e, renameOne s pathname newPathname folderPathname w = (Threw e, w).
Proof.
  intros Hplain Hp Hdepth. unfold renameOne. cbv zeta.
  unfold bind at 1. unfold awaitRead at 1.
  destruct (db_getFolder folderPathname _) as [[f|]|e]; [| by eexists..].
  unfold bind at 1. unfold awaitRead at 1.
  destruct (db_getFolder _ _) as [[g|]|e]; [by eexists| |by eexists].
  assert (Hne : split_length folderPathname
                ≠ split_length (replacePrefix pathname newPathname folderPathname)).
  { rewrite (replacePrefix_plain _ _ _ Hplain Hp).
    rewrite (prefix_decompose _ _ Hp) at 1.
    unfold split_length in *. rewrite !occurrences_app. lia. }
  apply Nat.eqb_neq in Hne. rewrite Hne. cbn [negb]. by eexists.
Qed.

(** X14.  [renameFolder] refuses a new path of another depth.  For valid
    paths, a new path without [$] and with a number of segments other than
    that of the old path, every callback (that of the folder and those of
    the folders below it) is rejected before it writes anything; so the call
    is rejected and changes nothing, neither in the index nor in the store,
    whichever rejection is reported.  The callback of the folder itself,
    when the store has the folder and none at the new path, is rejected with
    [New name is invalid.] for the new path. *)
Theorem renameFolder_rejects_changed_depth w (sid pathname newPathname : string) s :
  storageMap w !! sid = Some s →
  isFolderPathnameValid pathname = true →
  isFolderPathnameValid newPathname = true →
  includesDollar newPathname = false →
  split_length pathname ≠ split_length newPathname →
  (∀ folderPathname,
     folderPathname
       ∈ pathname :: List.filter (λ aPathname, startsWith aPathname (pathname +:+ "/"))
                       (folderKeys s) →
     ∃ e, renameOne s pathname newPathname folderPathname w = (Threw e, w))
  ∧ (∀ f, db_getFolder pathname (stores w (db s)) = Returned (Some f) →
          db_getFolder newPathname (stores w (db s)) = Returned None →
          renameOne s pathname newPathname pathname w
          = (Threw (UnprocessableEntityError
                      ("New name is invalid. `" +:+ newPathname +:+ "`")), w))
  ∧ ∃ e, renameFolder sid pathname newPathname w = (Threw e, w).
Proof.
  intros Hs Hv1 Hv2 Hplain Hdepth.
  assert (Hall : ∀ folderPathname,
    folderPathname
      ∈ pathname :: List.filter (λ aPathname, startsWith aPathname (pathname +:+ "/"))
                      (folderKeys s) →
    ∃ e, renameOne s pathname newPathname folderPathname w = (Threw e, w)).
  { intros a Ha. apply (renameOne_changed_depth s pathname newPathname a w Hplain); [|done].
    apply elem_of_cons in Ha as [->|Ha]; [apply string_prefix_refl|].
    apply list_elem_of_In, filter_In in Ha as [_ Ha].
    unfold startsWith in Ha. by apply prefix_app_l in Ha. }
  split; [exact Hall|]. split.
  - intros f Hold Hnew. unfold renameOne. cbv zeta.
    rewrite (replacePrefix_plain _ _ _ Hplain (string_prefix_refl pathname)).
    rewrite string_drop_all, string_app_nil_r.
    unfold bind at 1. unfold awaitRead at 1. rewrite Hold.
    unfold bind at 1. unfold awaitRead at 1. rewrite Hnew.
    apply Nat.eqb_neq in Hdepth. by rewrite Hdepth.
  - unfold renameFolder. rewrite Hs, Hv1, Hv2. cbn [negb]. cbv zeta.
    unfold bind at 1.
    destruct (promiseAll_all_reject (renameOne s pathname newPathname) pathname
                (List.filter (λ aPathname, startsWith aPathname (pathname +:+ "/"))
                   (folderKeys s)) w Hall) as [e ->].
    by exists e.
Qed.

End RenameDepth.

(** ** [prepareStorage] *)

Section Prepare.
Context {D : Type} `{!NoteDb D}.
Implicit Types (w : World D) (s storage st : NoteStorage).

Lemma sameShell_refl st : sameShell st st.
Proof. by repeat split. Qed.

Lemma sameShell_trans st1 st2 st3 : sameShell st1 st2 → sameShell st2 st3 → sameShell st1 st3.
Proof.
  intros (?&?&?&?&?&?&?) (?&?&?&?&?&?&?). repeat split; congruence.
Qed.

Lemma indexTags_spec (i : string) (tl : list string) st :
  (∀ t, t ∈ tl → is_Some (tagMap st !! t)) →
  ∃ st', indexTags i (Returned st) tl = Returned st'
    ∧ sameShell st st' ∧ folderMap st' = folderMap st
    ∧ (∀ t, tagNoteIds st' t
            = if decide (t ∈ tl) then tagNoteIds st t ∪ {[ i ]} else tagNoteIds st t)
    ∧ (∀ t, tagMap st' !! t = None ↔ tagMap st !! t = None).
Proof.
  revert st. induction tl as [|t0 tl IH]; intros st Hall; cbn [indexTags foldl obind].
  { exists st. split; [done|]. split; [apply sameShell_refl|]. split; [done|].
    split; [|done]. intros t. by rewrite decide_False by apply not_elem_of_nil. }
  destruct (Hall t0) as [e0 He0]; [by left|]. rewrite He0.
  set (st1 := set_tagMap _ st).
  destruct (IH st1) as (st' & Hrun & Hshell & Hfm & Hids & Hkeys).
  { intros t Ht. subst st1. cbn. destruct (decide (t0 = t)) as [<-|Hne].
    - rewrite lookup_insert_eq. by eexists.
    - rewrite lookup_insert_ne by done. apply Hall. by right. }
  exists st'. split; [exact Hrun|].
  split; [eapply sameShell_trans; [|exact Hshell]; by repeat split|].
  split; [by rewrite Hfm|]. split.
  - intros t. rewrite Hids. unfold tagNoteIds. subst st1. cbn.
    destruct (decide (t0 = t)) as [<-|Hne].
    + rewrite lookup_insert_eq, He0, (decide_True (P := t0 ∈ t0 :: tl)) by (by left). cbn.
      destruct (decide (t0 ∈ tl)); [|done].
      apply set_eq. intros x. rewrite !elem_of_union. tauto.
    + rewrite lookup_insert_ne by done.
      destruct (decide (t ∈ tl)) as [Hl|Hl].
      * by rewrite decide_True by (by right).
      * by rewrite decide_False by (by intros [?|?]%elem_of_cons).
  - intros t. rewrite Hkeys. subst st1. cbn. destruct (decide (t0 = t)) as [<-|Hne].
    + rewrite lookup_insert_eq, He0. done.
    + by rewrite lookup_insert_ne.
Qed.

Lemma indexTags_missing (i : string) (tl : list string) st (t : string) :
  t ∈ tl → tagMap st !! t = None →
  indexTags i (Returned st) tl = Threw TypeError.
Proof.
  revert st. induction tl as [|t0 tl IH]; intros st Hin Hnone;
    [by apply elem_of_nil in Hin|].
  cbn [indexTags foldl obind].
  destruct (tagMap st !! t0) as [e0|] eqn:He0.
  - apply elem_of_cons in Hin as [->|Hin]; [congruence|].
    apply IH; [done|]. cbn. rewrite lookup_insert_ne; [done|]. congruence.
  - apply foldl_obind_Threw.
Qed.

Lemma indexNote_unfold st (n : NoteDoc) :
  indexNote (Returned st) n
  = if trashed n then Returned st
    else match folderOf st (folderPathname n) with
         | None => Threw TypeError
         | Some f =>
           indexTags (_id n)
             (Returned (set_folderMap
                (<[folderPathname n := Some (withNoteIdSet (noteIdSet f ∪ {[ _id n ]}) f)]>
                   (folderMap st)) st))
             (tags n)
         end.
Proof. reflexivity. Qed.

Lemma indexNote_spec st (n : NoteDoc) :
  (trashed n = false →
     is_Some (folderOf st (folderPathname n)) ∧ ∀ t, t ∈ tags n → is_Some (tagMap st !! t)) →
  ∃ st', indexNote (Returned st) n = Returned st' ∧ indexedBy n st st'.
Proof.
  intros Hok. rewrite indexNote_unfold. destruct (trashed n) eqn:Htr.
  { exists st. split; [done|]. split; [apply sameShell_refl|].
    split; [intros p; rewrite decide_False; [done|intros [? ?]; congruence]|].
    split; [intros t; rewrite decide_False; [done|intros [? ?]; congruence]|]. done. }
  destruct (Hok eq_refl) as [[f Hf] Htags]. rewrite Hf.
  set (st1 := set_folderMap _ st).
  destruct (indexTags_spec (_id n) (tags n) st1 Htags)
    as (st' & Hrun & Hshell & Hfm & Hids & Hkeys).
  exists st'. split; [exact Hrun|]. split.
  { eapply sameShell_trans; [|exact Hshell]. by repeat split. }
  split.
  { intros p. unfold folderNoteIds, folderOf. rewrite Hfm. subst st1. cbn.
    destruct (decide (p = folderPathname n)) as [->|Hne].
    - rewrite decide_True by done. rewrite lookup_insert_eq. cbn.
      unfold folderOf in Hf. by rewrite Hf.
    - rewrite decide_False by (by intros [??]). by rewrite lookup_insert_ne. }
  split.
  { intros t. rewrite Hids. destruct (decide (t ∈ tags n)).
    - by rewrite decide_True.
    - by rewrite decide_False by (by intros [??]). }
  split.
  { intros p. unfold folderOf. rewrite Hfm. subst st1. cbn.
    destruct (decide (p = folderPathname n)) as [->|Hne].
    - rewrite lookup_insert_eq. unfold folderOf in Hf. rewrite Hf. done.
    - by rewrite lookup_insert_ne. }
  split; [exact Hkeys|]. split.
  - intros Hk p entry. rewrite Hfm. subst st1. cbn.
    destruct (decide (p = folderPathname n)) as [->|Hne].
    + rewrite lookup_insert_eq. intros [= <-]. cbn.
      exact (folderEntriesKeyed_lookup st _ _ Hk Hf).
    + rewrite lookup_insert_ne by done. apply Hk.
  - intros Hd p entry. rewrite Hfm. subst st1. cbn.
    destruct (decide (p = folderPathname n)) as [->|Hne].
    + rewrite lookup_insert_eq. intros [= <-]. by eexists.
    + rewrite lookup_insert_ne by done. apply Hd.
Qed.

(** The whole loop. *)
Lemma indexNotes_spec (l : list NoteDoc) st :
  (∀ n, n ∈ l → trashed n = false →
     is_Some (folderOf st (folderPathname n)) ∧ ∀ t, t ∈ tags n → is_Some (tagMap st !! t)) →
  ∃ st', foldl indexNote (Returned st) l = Returned st'
    ∧ sameShell st st'
    ∧ (∀ p i, i ∈ folderNoteIds st' p ↔
         i ∈ folderNoteIds st p
         ∨ ∃ n, n ∈ l ∧ _id n = i ∧ trashed n = false ∧ folderPathname n = p)
    ∧ (∀ t i, i ∈ tagNoteIds st' t ↔
         i ∈ tagNoteIds st t
         ∨ ∃ n, n ∈ l ∧ _id n = i ∧ trashed n = false ∧ t ∈ tags n)
    ∧ (∀ p, folderOf st' p = None ↔ folderOf st p = None)
    ∧ (∀ t, tagMap st' !! t = None ↔ tagMap st !! t = None)
    ∧ (folderEntriesKeyed st → folderEntriesKeyed st')
    ∧ (folderMapDefined st → folderMapDefined st').
Proof.
  revert st. induction l as [|a l IH]; intros st Hok; cbn [foldl].
  { exists st. split; [done|]. split; [apply sameShell_refl|].
    split; [intros p i; split; [by left|intros [?|(n & Hn & _)]; [done|by apply elem_of_nil in Hn]]|].
    split; [intros t i; split; [by left|intros [?|(n & Hn & _)]; [done|by apply elem_of_nil in Hn]]|].
    done. }
  destruct (indexNote_spec st a) as (st1 & Hrun1 & Hshell1 & Hf1 & Ht1 & Hfk1 & Htk1 & Hk1 & Hd1).
  { apply Hok. by left. }
  rewrite Hrun1.
  destruct (IH st1) as (st' & Hrun & Hshell & Hf & Ht & Hfk & Htk & Hk & Hd).
  { intros n Hn Htr. destruct (Hok n (list_elem_of_further _ _ _ Hn) Htr) as [Hfo Hta]. split.
    - destruct Hfo as [f Hfo]. destruct (folderOf st1 (folderPathname n)) eqn:E; [by eexists|].
      apply Hfk1 in E. congruence.
    - intros t Hin. destruct (Hta t Hin) as [e He].
      destruct (tagMap st1 !! t) eqn:E; [by eexists|]. apply Htk1 in E. congruence. }
  exists st'. split; [exact Hrun|]. split; [by eapply sameShell_trans|].
  split; [|split; [|split; [|split; [|split; [tauto|tauto]]]]].
  3:{ intros p. by rewrite Hfk, Hfk1. }
  3:{ intros t. by rewrite Htk, Htk1. }
  - intros p i. rewrite Hf, Hf1. destruct (decide (trashed a = false ∧ p = folderPathname a))
      as [[Htr ->]|Hno].
    + rewrite elem_of_union, elem_of_singleton. split.
      * intros [[?| ->]|(n & Hn & ?)]; [by left| |].
        -- right. exists a. split; [by left|done].
        -- right. exists n. split; [by right|done].
      * intros [?|(n & [-> |Hn]%elem_of_cons & Hid & ?)]; [by left; left| |].
        -- left; right. done.
        -- right. by exists n.
    + split.
      * intros [?|(n & Hn & ?)]; [by left|]. right. exists n. split; [by right|done].
      * intros [?|(n & [-> |Hn]%elem_of_cons & Hid & Htr & Hp)]; [by left| |].
        -- exfalso. apply Hno. done.
        -- right. by exists n.
  - intros t i. rewrite Ht, Ht1. destruct (decide (trashed a = false ∧ t ∈ tags a))
      as [[Htr Hin]|Hno].
    + rewrite elem_of_union, elem_of_singleton. split.
      * intros [[?| ->]|(n & Hn & ?)]; [by left| |].
        -- right. exists a. split; [by left|done].
        -- right. exists n. split; [by right|done].
      * intros [?|(n & [-> |Hn]%elem_of_cons & Hid & ?)]; [by left; left| |].
        -- left; right. done.
        -- right. by exists n.
    + split.
      * intros [?|(n & Hn & ?)]; [by left|]. right. exists n. split; [by right|done].
      * intros [?|(n & [-> |Hn]%elem_of_cons & Hid & Htr & Hp)]; [by left| |].
        -- exfalso. apply Hno. done.
        -- right. by exists n.
Qed.

Lemma indexNotes_dangling (l : list NoteDoc) st (n : NoteDoc) :
  n ∈ l → trashed n = false →
  (folderOf st (folderPathname n) = None ∨ ∃ t, t ∈ tags n ∧ tagMap st !! t = None) →
  foldl indexNote (Returned st) l = Threw TypeError.
Proof.
  revert st. induction l as [|a l IH]; intros st Hin Htr Hbad; [by apply elem_of_nil in Hin|].
  cbn [foldl]. rewrite indexNote_unfold.
  destruct (trashed a) eqn:Hta.
  { apply elem_of_cons in Hin as [->|Hin]; [congruence|]. by apply IH. }
  destruct (folderOf st (folderPathname a)) as [f|] eqn:Hf; [|apply foldl_obind_Threw].
  set (st1 := set_folderMap _ st).
  assert (Hst1 : (∀ p, folderOf st1 p = None ↔ folderOf st p = None)
               ∧ tagMap st1 = tagMap st).
  { split; [|done]. intros p. unfold folderOf. subst st1. cbn.
    destruct (decide (p = folderPathname a)) as [->|Hne].
    - rewrite lookup_insert_eq. unfold folderOf in Hf. by rewrite Hf.
    - by rewrite lookup_insert_ne. }
  destruct Hst1 as [Hfk1 Htm1].
  destruct (decide (Forall (λ t, is_Some (tagMap st1 !! t)) (tags a))) as [Hall|Hnot].
  - destruct (indexTags_spec (_id a) (tags a) st1) as (st' & Hrun & _ & Hfm & _ & Htk).
    { by apply Forall_forall. }
    rewrite Hrun.
    assert (Hbad' : folderOf st' (folderPathname n) = None
                    ∨ ∃ t, t ∈ tags n ∧ tagMap st' !! t = None).
    { destruct Hbad as [Hb|(t & Ht & Hb)].
      - left. unfold folderOf. rewrite Hfm. by apply Hfk1.
      - right. exists t. split; [done|]. apply Htk. by rewrite Htm1. }
    apply elem_of_cons in Hin as [->|Hin]; [|by apply IH].
    exfalso. destruct Hbad as [Hb|(t & Ht & Hb)]; [congruence|].
    apply (proj1 (Forall_forall _ _)) with (x := t) in Hall; [|done].
    rewrite Htm1, Hb in Hall. by destruct Hall.
  - apply not_Forall_Exists in Hnot; [|apply _].
    apply Exists_exists in Hnot as (t & Ht & Hnone).
    assert (Hnone' : tagMap st1 !! t = None).
    { by apply eq_None_not_Some. }
    rewrite (indexTags_missing _ _ _ _ Ht Hnone'). apply foldl_obind_Threw.
Qed.

Lemma prepareStorage_unfold (sd : NoteStorageData) w (d1 : D) (docs : AllDocsMap) :
  db_init (stores w (sd_id sd)) = (Returned tt, d1) →
  db_getAllDocsMap d1 = Returned docs →
  prepareStorage sd w
  = (foldl indexNote
       (Returned
          (mkStorage (sd_id sd) (sd_name sd) (sd_cloudStorage sd) (adm_noteMap docs)
             (map_imap (λ pathname folderDoc,
                          Some (Some (populateFolder (Some folderDoc) pathname ∅)))
                (adm_folderMap docs))
             (map_imap (λ name tagDoc, Some (mkTag (Some (tag_id tagDoc)) (Some name) ∅))
                (adm_tagMap docs))
             (sd_id sd) None None))
       (map_to_list (adm_noteMap docs)).*2,
     set_stores (<[sd_id sd := d1]> (stores w)) w).
Proof.
  intros Hinit Hdocs. unfold prepareStorage.
  unfold bind at 1. unfold awaitWrite at 1. rewrite Hinit.
  unfold bind at 1. unfold awaitRead at 1. rewrite stores_insert_eq, Hdocs.
  cbv zeta. by destruct (foldl indexNote _ _).
Qed.

(** What [prepareStorage] returns, for a store whose notes name only
    folders and tags that have a document. *)
Lemma prepareStorage_indexes w (sd : NoteStorageData) (d1 : D)
    (docs : AllDocsMap) :
  db_init (stores w (sd_id sd)) = (Returned tt, d1) →
  db_getAllDocsMap d1 = Returned docs →
  map_Forall (λ k n, _id n = k) (adm_noteMap docs) →
  docsClosed docs →
  ∃ s, prepareStorage sd w = (Returned s, set_stores (<[sd_id sd := d1]> (stores w)) w)
    ∧ ns_id s = sd_id sd ∧ ns_name s = sd_name sd ∧ cloudStorage s = sd_cloudStorage sd
    ∧ noteMap s = adm_noteMap docs ∧ syncTimer s = None ∧ sync s = None
    ∧ (∀ p, folderOf s p = None ↔ adm_folderMap docs !! p = None)
    ∧ (∀ t, tagMap s !! t = None ↔ adm_tagMap docs !! t = None)
    ∧ indexConsistent s ∧ folderMapDefined s ∧ folderEntriesKeyed s.
Proof.
  intros Hinit Hdocs Hkeyed Hclosed.
  rewrite (prepareStorage_unfold sd w d1 docs Hinit Hdocs).
  set (st0 := mkStorage _ _ _ _ _ _ _ _ _).
  assert (Hf0 : ∀ p, folderOf st0 p
                     = (λ fd, populateFolder (Some fd) p ∅) <$> adm_folderMap docs !! p).
  { intros p. unfold folderOf. subst st0. cbn. rewrite map_lookup_imap.
    by destruct (adm_folderMap docs !! p). }
  assert (Ht0 : ∀ t, tagMap st0 !! t
                     = (λ td, mkTag (Some (tag_id td)) (Some t) ∅) <$> adm_tagMap docs !! t).
  { intros t. subst st0. cbn. rewrite map_lookup_imap.
    by destruct (adm_tagMap docs !! t). }
  assert (Hvalues : ∀ n, n ∈ (map_to_list (adm_noteMap docs)).*2 ↔
                         ∃ k, adm_noteMap docs !! k = Some n).
  { intros n. rewrite list_elem_of_fmap. split.
    - intros ([k n'] & -> & Hin). exists k. by apply elem_of_map_to_list.
    - intros (k & Hk). exists (k, n). split; [done|]. by apply elem_of_map_to_list. }
  destruct (indexNotes_spec (map_to_list (adm_noteMap docs)).*2 st0)
    as (s & Hrun & Hshell & Hfids & Htids & Hfk & Htk & Hk & Hd).
  { intros n Hn Htr. apply Hvalues in Hn as (k & Hkn).
    destruct (Hclosed _ _ Hkn Htr) as [[fd Hfd] Htags]. split.
    - rewrite Hf0, Hfd. by eexists.
    - intros t Hin. apply (proj1 (Forall_forall _ _)) with (x := t) in Htags; [|done].
      destruct Htags as [td Htd]. rewrite Ht0, Htd. by eexists. }
  destruct Hshell as (Hid & Hname & Hcloud & Hnm & Hdb & Htimer & Hsync).
  exists s. rewrite Hrun. split; [done|].
  split; [done|]. split; [done|]. split; [done|]. split; [done|].
  split; [done|]. split; [done|].
  split.
  { intros p. rewrite Hfk, Hf0. by destruct (adm_folderMap docs !! p). }
  split.
  { intros t. rewrite Htk, Ht0. by destruct (adm_tagMap docs !! t). }
  assert (Hempty_f : ∀ p i, i ∉ folderNoteIds st0 p).
  { intros p i. unfold folderNoteIds. rewrite Hf0.
    destruct (adm_folderMap docs !! p); cbn; apply not_elem_of_empty. }
  assert (Hempty_t : ∀ t i, i ∉ tagNoteIds st0 t).
  { intros t i. unfold tagNoteIds. rewrite Ht0.
    destruct (adm_tagMap docs !! t); cbn; apply not_elem_of_empty. }
  split; [|split].
  - apply indexConsistent_alt. rewrite Hnm. cbn [noteMap st0].
    split; [|split].
    + intros k n Hn Htr. split.
      * apply Hfids. right. exists n. split; [apply Hvalues; by exists k|done].
      * intros t Hin. apply Htids. right. exists n. split; [apply Hvalues; by exists k|done].
    + intros p i [Hin|(n & Hn & Hni & Htr & Hp)]%Hfids; [by apply Hempty_f in Hin|].
      apply Hvalues in Hn as (k & Hkn). pose proof (Hkeyed _ _ Hkn) as Hkey. cbn in Hkey.
      exists n. split; [congruence|done].
    + intros t i [Hin|(n & Hn & Hni & Htr & Hp)]%Htids; [by apply Hempty_t in Hin|].
      apply Hvalues in Hn as (k & Hkn). pose proof (Hkeyed _ _ Hkn) as Hkey. cbn in Hkey.
      exists n. split; [congruence|done].
  - apply Hd. intros p entry. subst st0. cbn. rewrite map_lookup_imap.
    destruct (adm_folderMap docs !! p); cbn; [|done]. intros [= <-]. by eexists.
  - apply Hk. intros p entry. subst st0. cbn. rewrite map_lookup_imap.
    destruct (adm_folderMap docs !! p); cbn; [|done]. by intros [= <-].
Qed.

(** X1.  Opening a storage builds a consistent index.  If the store
    initialises and hands out its documents, the notes keyed by their ids,
    and the folder and the tags of every note that is not trashed have a
    document, then [prepareStorage] returns a storage with the id, name and
    cloud storage of the descriptor, the notes of the store, no timer and no
    replication, an entry for exactly the folders and tags of the store, and
    an index that is consistent, binds no folder path to [undefined] and
    keys every folder entry by its path. *)
Theorem prepareStorage_builds_consistent_index w (sd : NoteStorageData) (d1 : D)
    (docs : AllDocsMap) :
  db_init (stores w (sd_id sd)) = (Returned tt, d1) →
  db_getAllDocsMap d1 = Returned docs →
  map_Forall (λ k n, _id n = k) (adm_noteMap docs) →
  docsClosed docs →
  ∃ s, prepareStorage sd w = (Returned s, set_stores (<[sd_id sd := d1]> (stores w)) w)
    ∧ ns_id s = sd_id sd ∧ ns_name s = sd_name sd ∧ cloudStorage s = sd_cloudStorage sd
    ∧ noteMap s = adm_noteMap docs ∧ syncTimer s = None ∧ sync s = None
    ∧ (∀ p, folderOf s p = None ↔ adm_folderMap docs !! p = None)
    ∧ (∀ t, tagMap s !! t = None ↔ adm_tagMap docs !! t = None)
    ∧ indexConsistent s ∧ folderMapDefined s ∧ folderEntriesKeyed s.
Proof.
  intros Hinit Hdocs Hkeyed Hclosed.
  destruct (prepareStorage_indexes w sd d1 docs Hinit Hdocs Hkeyed Hclosed)
    as (s & Hrun & Hid & Hindex).
  exists s. split; [exact Hrun|]. split; [exact Hid|exact Hindex].
Qed.

(** X2.  [prepareStorage] has no guard for a note whose folder or tag has
    no document: if some note that is not trashed names a missing folder or
    a missing tag, the call raises a [TypeError] and returns no storage,
    after the store was initialised. *)
Theorem prepareStorage_throws_on_dangling_note w (sd : NoteStorageData) (d1 : D)
    (docs : AllDocsMap) (k : string) (n : NoteDoc) :
  db_init (stores w (sd_id sd)) = (Returned tt, d1) →
  db_getAllDocsMap d1 = Returned docs →
  adm_noteMap docs !! k = Some n →
  trashed n = false →
  (adm_folderMap docs !! folderPathname n = None
   ∨ ∃ t, t ∈ tags n ∧ adm_tagMap docs !! t = None) →
  prepareStorage sd w = (Threw TypeError, set_stores (<[sd_id sd := d1]> (stores w)) w).
Proof.
  intros Hinit Hdocs Hn Htr Hbad.
  rewrite (prepareStorage_unfold sd w d1 docs Hinit Hdocs).
  rewrite (indexNotes_dangling _ _ n); [done| |done|].
  - apply list_elem_of_fmap. exists (k, n). split; [done|]. by apply elem_of_map_to_list.
  - destruct Hbad as [Hb|(t & Ht & Hb)].
    + left. unfold folderOf. cbn. by rewrite map_lookup_imap, Hb.
    + right. exists t. split; [done|]. cbn. by rewrite map_lookup_imap, Hb.
Qed.

End Prepare.

(** ** The [complete] event and the expiry of a timer *)

Section SyncEvents.
Context {D : Type} `{!NoteDb D}.
Implicit Types (w : World D) (s storage st : NoteStorage).

Lemma indexConsistent_same_maps s s' :
  noteMap s' = noteMap s → folderMap s' = folderMap s → tagMap s' = tagMap s →
  indexConsistent s → indexConsistent s'.
Proof.
  intros Hn Hf Ht. unfold indexConsistent, folderNoteIds, folderOf, tagNoteIds.
  by rewrite Hn, Hf, Ht.
Qed.

(** X28.  The [complete] event of a replication rebuilds the storage from
    its store: under the conditions of X1 on the store, the handler returns,
    armed timers are left alone, and the storage (if it is still in the map)
    is replaced by one with the captured name, [syncedAt] set to the time of
    the event, no replication and no [syncTimer], the notes of the store and
    a consistent index.  A storage that left the map is not put back. *)
Theorem syncComplete_rebuilds_storage w (h : nat) (now : N) (sess : Session)
    (cs : CloudNoteStorageData) (d1 : D) (docs : AllDocsMap) :
  sessions w !! h = Some sess →
  sd_cloudStorage (sess_storage sess) = Some cs →
  db_init (stores w (sd_id (sess_storage sess))) = (Returned tt, d1) →
  db_getAllDocsMap d1 = Returned docs →
  map_Forall (λ k n, _id n = k) (adm_noteMap docs) →
  docsClosed docs →
  ∃ w', onSyncComplete h now w = (Returned tt, w')
    ∧ sessions w' !! h = None
    ∧ timers w' = timers w
    ∧ match storageMap w !! sess_storageId sess with
      | None => storageMap w' = storageMap w
      | Some _ =>
        ∃ s', storageMap w' !! sess_storageId sess = Some s'
          ∧ ns_name s' = sd_name (sess_storage sess)
          ∧ cloudStorage s' = Some (mkCloud (cloud_id cs) (cloud_name cs) (Some now))
          ∧ sync s' = None ∧ syncTimer s' = None
          ∧ noteMap s' = adm_noteMap docs
          ∧ indexConsistent s'
      end.
Proof.
  intros Hsess Hcloud Hinit Hdocs Hkeyed Hclosed.
  unfold onSyncComplete. rewrite Hsess.
  unfold bind at 1. cbn [endSession].
  set (w0 := set_sessions _ w).
  destruct (prepareStorage_indexes w0 (sess_storage sess) d1 docs
              Hinit Hdocs Hkeyed Hclosed)
    as (s & Hrun & Hid & Hname & Hcs & Hnm & Htimer & Hsync & _ & _ & Hcons & _).
  unfold bind at 1. rewrite Hrun. rewrite Hcs, Hcloud.
  unfold setStorageMap. cbn [storageMap set_stores w0 set_sessions].
  destruct (storageMap w !! sess_storageId sess) as [old|] eqn:Hold.
  - eexists. split; [reflexivity|]. cbn. split; [apply lookup_delete_eq|]. split; [done|].
    eexists. split; [apply lookup_insert_eq|]. cbn.
    split; [done|]. split; [done|]. split; [done|]. split; [done|]. split; [done|].
    by apply (indexConsistent_same_maps s).
  - eexists. split; [reflexivity|]. cbn. split; [apply lookup_delete_eq|]. done.
Qed.

(** X23.  When the timer of a linked storage expires (a signed-in user,
    automatic synchronisation on, no replication in flight), a silent
    replication of that storage starts and a new timer is armed for it with
    the one-hour interval; the expired timer is gone, and the notes, folders
    and tags of the storage are unchanged. *)
Theorem fireTimer_starts_sync_and_rearms w (h : nat) (sid : string) (x : N) s
    (u : string) (c : CloudNoteStorageData) :
  timers w !! h = Some (sid, x) →
  enableAutoSync w = true →
  user w = Some u →
  storageMap w !! sid = Some s →
  cloudStorage s = Some c → sync s = None → syncTimer s = Some h →
  ∃ w' s', fireTimer h w = (Returned tt, w')
    ∧ storageMap w' !! sid = Some s'
    ∧ sync s' = Some (nextHandle w)
    ∧ sessions w' !! nextHandle w
      = Some (mkSession sid true (mkStorageData (ns_id s) (ns_name s) (Some c)))
    ∧ syncTimer s' = Some (S (nextHandle w))
    ∧ timers w' = <[S (nextHandle w) := (sid, autoSyncIntervalTime)]> (delete h (timers w))
    ∧ noteMap s' = noteMap s ∧ folderMap s' = folderMap s ∧ tagMap s' = tagMap s.
Proof.
  intros Hh Hauto Hu Hs Hc Hsync Htimer.
  unfold fireTimer. rewrite Hh.
  unfold bind at 1. cbn [clearTimeout].
  unfold bind at 1. unfold syncStorage. cbn [user storageMap set_timers].
  rewrite Hu, Hs, Hc, Hsync.
  unfold bind at 1. cbn [startSession].
  unfold setStorageMap, draftAt. cbn [storageMap set_nextHandle set_sessions set_timers].
  rewrite Hs.
  unfold queueSyncingStorage.
  cbn [enableAutoSync set_storageMap set_nextHandle set_sessions set_timers storageMap].
  rewrite Hauto. cbn [negb]. rewrite lookup_insert_eq.
  cbn [syncTimer set_sync]. rewrite Htimer.
  unfold bind, clearTimeout, setTimeout, setStorageMap. cbn.
  eexists _, _. split; [reflexivity|]. cbn.
  split; [apply lookup_insert_eq|]. cbn.
  split; [done|]. split; [apply lookup_insert_eq|]. split; [done|].
  split; [|done]. by rewrite delete_delete_eq.
Qed.

End SyncEvents.

(** ** Every storage at once *)

Section AllStorages.
Context {D : Type} `{!NoteDb D}.
Implicit Types (w : World D) (s storage st : NoteStorage).

Lemma elem_of_storageIds w (sid : string) : sid ∈ storageIds w ↔ is_Some (storageMap w !! sid).
Proof.
  unfold storageIds. rewrite list_elem_of_fmap. split.
  - intros ([k v] & -> & Hin). apply elem_of_map_to_list in Hin. by eexists.
  - intros [v Hv]. exists (sid, v). split; [done|]. by apply elem_of_map_to_list.
Qed.

Lemma set_syncTimer_None_id s : syncTimer s = None → set_syncTimer None s = s.
Proof. intros Hn. destruct s. cbn in *. by subst. Qed.

Lemma cancelSyncingStorageQueue_run (sid : string) w :
  ∃ w', cancelSyncingStorageQueue sid w = (Returned tt, w')
    ∧ storageMap w' = alter (set_syncTimer None) sid (storageMap w)
    ∧ timers w' = from_option (λ h, delete h (timers w)) (timers w)
                    (timerOf (storageMap w) sid)
    ∧ sessions w' = sessions w ∧ stores w' = stores w ∧ toasts w' = toasts w.
Proof.
  unfold cancelSyncingStorageQueue, timerOf.
  destruct (storageMap w !! sid) as [s|] eqn:Hs; cbn.
  - destruct (syncTimer s) as [h|] eqn:Hh; cbn.
    + eexists. split; [reflexivity|]. cbn. split; [|done].
      apply map_eq. intros k. destruct (decide (sid = k)) as [<-|Hne].
      * by rewrite lookup_insert_eq, lookup_alter_eq, Hs.
      * by rewrite lookup_insert_ne, lookup_alter_ne.
    + eexists. split; [reflexivity|]. split; [|done].
      apply map_eq. intros k. destruct (decide (sid = k)) as [<-|Hne].
      * rewrite lookup_alter_eq, Hs. cbn. by rewrite set_syncTimer_None_id.
      * by rewrite lookup_alter_ne.
  - eexists. split; [reflexivity|]. split; [|done].
    apply map_eq. intros k. destruct (decide (sid = k)) as [<-|Hne].
    + by rewrite lookup_alter_eq, Hs.
    + by rewrite lookup_alter_ne.
Qed.

Lemma cancel_forOf (l : list string) w :
  ∃ w', forOf l cancelSyncingStorageQueue w = (Returned tt, w')
    ∧ (∀ sid, storageMap w' !! sid
              = if decide (sid ∈ l) then set_syncTimer None <$> storageMap w !! sid
                else storageMap w !! sid)
    ∧ (∀ h, timers w' !! h = None ∨ timers w' !! h = timers w !! h)
    ∧ (∀ sid h, sid ∈ l → timerOf (storageMap w) sid = Some h → timers w' !! h = None)
    ∧ sessions w' = sessions w ∧ stores w' = stores w ∧ toasts w' = toasts w.
Proof.
  revert w. induction l as [|a l IH]; intros w; cbn [forOf].
  { exists w. split; [done|]. split; [intros sid; by rewrite decide_False by apply not_elem_of_nil|].
    split; [by right|]. split; [by intros ?? ?%elem_of_nil|done]. }
  destruct (cancelSyncingStorageQueue_run a w) as (w1 & Hrun1 & Hm1 & Ht1 & Hs1 & Hst1 & Hto1).
  destruct (IH w1) as (w' & Hrun & Hm & Hshrink & Ht & Hs & Hst & Hto).
  unfold bind. rewrite Hrun1, Hrun.
  assert (Hshrink1 : ∀ h, timers w1 !! h = None ∨ timers w1 !! h = timers w !! h).
  { intros h. rewrite Ht1. destruct (timerOf (storageMap w) a) as [h0|]; cbn; [|by right].
    destruct (decide (h0 = h)) as [->|Hne].
    - left. apply lookup_delete_eq.
    - right. by apply lookup_delete_ne. }
  exists w'. split; [done|]. split; [|split; [|split; [|repeat split; congruence]]].
  - intros sid. rewrite Hm, Hm1.
    destruct (decide (a = sid)) as [<-|Hne].
    + rewrite lookup_alter_eq, (decide_True (P := a ∈ a :: l)) by (by left).
      destruct (decide (a ∈ l)); [|done].
      by destruct (storageMap w !! a).
    + rewrite lookup_alter_ne by done.
      destruct (decide (sid ∈ l)) as [Hl|Hl].
      * by rewrite (decide_True (P := sid ∈ a :: l)) by (by right).
      * by rewrite (decide_False (P := sid ∈ a :: l)) by (by intros [?|?]%elem_of_cons).
  - intros h. destruct (Hshrink h) as [?|Heq]; [by left|]. rewrite Heq. apply Hshrink1.
  - intros sid h Hin Hh.
    assert (Hw1 : timers w1 !! h = None ∨ (sid ∈ l ∧ timerOf (storageMap w1) sid = Some h)).
    { destruct (decide (a = sid)) as [<-|Hne].
      - left. rewrite Ht1, Hh. cbn. apply lookup_delete_eq.
      - right. apply elem_of_cons in Hin as [?|Hin]; [done|]. split; [done|].
        unfold timerOf in *. by rewrite Hm1, lookup_alter_ne. }
    destruct Hw1 as [Hnone|[Hl Hh1]]; [|by eapply Ht].
    destruct (Hshrink h) as [?|Heq]; [done|]. by rewrite Heq.
Qed.

(** X21.  After [cancelAllSyncingStorageQueue] no timer is armed: if every
    armed timer is the one its storage records, the call returns, the table
    of armed timers is empty, every storage is left without [syncTimer] and
    otherwise unchanged, and no replication and no store is touched. *)
Theorem cancelAllSyncingStorageQueue_disarms_every_storage w :
  timersRecorded w →
  ∃ w', cancelAllSyncingStorageQueue w = (Returned tt, w')
    ∧ timers w' = ∅
    ∧ (∀ sid, storageMap w' !! sid = set_syncTimer None <$> storageMap w !! sid)
    ∧ sessions w' = sessions w ∧ stores w' = stores w.
Proof.
  intros Hrec. unfold cancelAllSyncingStorageQueue.
  destruct (cancel_forOf (storageIds w) w)
    as (w' & Hrun & Hm & Hshrink & Ht & Hs & Hst & _).
  exists w'. split; [done|]. split; [|split; [|done]].
  - apply map_empty. intros h. destruct (timers w !! h) as [[sid x]|] eqn:Hh.
    + specialize (Hrec _ _ Hh). cbn in Hrec. apply (Ht sid); [|done].
      apply elem_of_storageIds. unfold timerOf in Hrec.
      destruct (storageMap w !! sid); [by eexists|done].
    + destruct (Hshrink h) as [?|Heq]; [done|]. by rewrite Heq.
  - intros sid. rewrite Hm. destruct (decide (sid ∈ storageIds w)) as [|Hnot]; [done|].
    destruct (storageMap w !! sid) eqn:E; [|done].
    exfalso. apply Hnot, elem_of_storageIds. by eexists.
Qed.

Lemma queueSyncingStorage_run (sid : string) (delay : N) w s :
  enableAutoSync w = true →
  storageMap w !! sid = Some s →
  queueSyncingStorage sid delay w
  = (Returned tt,
     set_storageMap (<[sid := set_syncTimer (Some (nextHandle w)) s]> (storageMap w))
       (set_nextHandle (S (nextHandle w))
          (set_timers
             (<[nextHandle w := (sid, delay)]>
                (from_option (λ h, delete h (timers w)) (timers w) (syncTimer s)))
             w))).
Proof.
  intros Hauto Hs. unfold queueSyncingStorage. rewrite Hauto, Hs. cbn [negb].
  destruct (syncTimer s) as [h0|]; reflexivity.
Qed.

Lemma queue_forOf (l : list string) (delay : N) w :
  enableAutoSync w = true →
  NoDup l →
  (∀ sid, sid ∈ l → is_Some (storageMap w !! sid)) →
  handlesBelow w →
  ∃ w', forOf l (λ sid, queueSyncingStorage sid delay) w = (Returned tt, w')
    ∧ (nextHandle w ≤ nextHandle w')%nat
    ∧ (∀ sid, sid ∉ l → storageMap w' !! sid = storageMap w !! sid)
    ∧ (∀ sid s, sid ∈ l → storageMap w !! sid = Some s →
         ∃ h, storageMap w' !! sid = Some (set_syncTimer (Some h) s)
           ∧ (nextHandle w ≤ h < nextHandle w')%nat
           ∧ timers w' !! h = Some (sid, delay))
    ∧ (∀ h, (h < nextHandle w)%nat →
         (∀ sid s, sid ∈ l → storageMap w !! sid = Some s → syncTimer s ≠ Some h) →
         timers w' !! h = timers w !! h)
    ∧ sessions w' = sessions w ∧ stores w' = stores w ∧ toasts w' = toasts w.
Proof.
  revert w. induction l as [|a l IH]; intros w Hauto Hnodup Hpresent Hbelow; cbn [forOf].
  { exists w. split; [done|]. split; [done|]. split; [done|].
    split; [by intros ?? ?%elem_of_nil|]. done. }
  apply NoDup_cons in Hnodup as [Hfresh Hnodup].
  destruct (Hpresent a) as [sa Hsa]; [by left|].
  unfold bind. rewrite (queueSyncingStorage_run a delay w sa Hauto Hsa).
  set (w1 := set_storageMap _ _).
  assert (Hm1 : ∀ sid, sid ≠ a → storageMap w1 !! sid = storageMap w !! sid).
  { intros sid Hne. subst w1. cbn. by rewrite lookup_insert_ne. }
  destruct (IH w1) as (w' & Hrun & Hle & Hout & Hin & Hkeep & Hs & Hst & Hto).
  { done. }
  { done. }
  { intros sid Hsid. rewrite Hm1; [apply Hpresent; by right|]. intros ->. done. }
  { intros sid s. subst w1. cbn. destruct (decide (a = sid)) as [<-|Hne].
    - rewrite lookup_insert_eq. intros [= <-]. cbn. lia.
    - rewrite lookup_insert_ne by done. intros Hsid. specialize (Hbelow _ _ Hsid).
      cbn in Hbelow. destruct (syncTimer s); cbn in *; [lia|done]. }
  rewrite Hrun.
  assert (Hn1 : nextHandle w1 = S (nextHandle w)) by done.
  exists w'. split; [done|]. split; [lia|].
  split; [|split; [|split; [|by rewrite Hs, Hst, Hto]]].
  - intros sid Hnot. rewrite Hout, Hm1; [done| |].
    + intros ->. apply Hnot. by left.
    + intros Hl. apply Hnot. by right.
  - intros sid s Hsid Hlook. apply elem_of_cons in Hsid as [->|Hsid].
    + rewrite Hsa in Hlook. injection Hlook as <-.
      exists (nextHandle w). split; [|split; [lia|]].
      * rewrite (Hout _ Hfresh). subst w1. cbn. apply lookup_insert_eq.
      * rewrite Hkeep; [subst w1; cbn; apply lookup_insert_eq|lia|].
        intros sid s Hl Hlook. rewrite Hm1 in Hlook by (intros ->; done).
        specialize (Hbelow _ _ Hlook). cbn in Hbelow.
        destruct (syncTimer s) as [h1|]; cbn in *; [|done]. intros [= ->]. lia.
    + destruct (Hin sid s Hsid) as (h & Hlook' & Hrange & Harmed).
      { rewrite Hm1; [done|]. intros ->. done. }
      exists h. split; [done|]. split; [lia|done].
  - intros h Hlt Hnot. rewrite Hkeep; [|lia|].
    + subst w1. cbn. rewrite lookup_insert_ne by lia.
      destruct (syncTimer sa) as [h0|] eqn:Hh0; cbn; [|done].
      apply lookup_delete_ne. intros ->. apply (Hnot a sa); [by left|done..].
    + intros sid s Hl Hlook. rewrite Hm1 in Hlook by (intros ->; done).
      apply (Hnot sid s); [by right|done].
Qed.

(** X22.  With automatic synchronisation on, [queueSyncingAllStorage] arms
    one timer for every storage of the map, with the given delay or one hour
    when none is given, records it in the [syncTimer] of that storage and
    changes nothing else of the storage; no storage is added or removed, and
    no replication and no store is touched. *)
Theorem queueSyncingAllStorage_arms_every_storage w (delay : option N) :
  enableAutoSync w = true →
  handlesBelow w →
  ∃ w', queueSyncingAllStorage delay w = (Returned tt, w')
    ∧ (∀ sid s, storageMap w !! sid = Some s →
         ∃ h, storageMap w' !! sid = Some (set_syncTimer (Some h) s)
           ∧ timers w' !! h = Some (sid, default autoSyncIntervalTime delay))
    ∧ (∀ sid, storageMap w' !! sid = None ↔ storageMap w !! sid = None)
    ∧ sessions w' = sessions w ∧ stores w' = stores w.
Proof.
  intros Hauto Hbelow. unfold queueSyncingAllStorage.
  destruct (queue_forOf (storageIds w) (default autoSyncIntervalTime delay) w Hauto)
    as (w' & Hrun & _ & Hout & Hin & _ & Hs & Hst & _).
  { apply NoDup_fst_map_to_list. }
  { intros sid Hsid. by apply elem_of_storageIds. }
  { done. }
  exists w'. split; [done|]. split; [|split; [|done]].
  - intros sid s Hlook. destruct (Hin sid s) as (h & Hlook' & _ & Harmed); [|done|].
    { apply elem_of_storageIds. by eexists. }
    by exists h.
  - intros sid. destruct (storageMap w !! sid) as [s|] eqn:Hlook.
    + destruct (Hin sid s) as (h & Hlook' & _); [|done|].
      { apply elem_of_storageIds. by eexists. }
      rewrite Hlook'. done.
    + rewrite Hout, Hlook; [done|]. intros Hsid%elem_of_storageIds.
      rewrite Hlook in Hsid. by destruct Hsid.
Qed.

End AllStorages.

(** ** [removeFolder] *)

Section RemoveFolderInvariant.
Context {D : Type} `{!NoteDb D}.
Implicit Types (w : World D) (s storage st : NoteStorage).

Lemma pushUnder_ids (noteId : string) (l : list string) (acc : gmap string (list string))
    (t k : string) :
  k ∈ default [] (pushUnder noteId acc l !! t) →
  k ∈ default [] (acc !! t) ∨ (k = noteId ∧ t ∈ l).
Proof.
  unfold pushUnder. revert acc.
  induction l as [|t0 l IH]; intros acc Hk; cbn [foldl] in Hk; [by left|].
  apply IH in Hk as [Hk|[-> Hl]]; [|right; split; [done|by right]].
  destruct (decide (t0 = t)) as [->|Hne].
  - rewrite lookup_insert_eq in Hk. cbn in Hk.
    apply elem_of_app in Hk as [Hk|Hk]; [by left|].
    apply list_elem_of_singleton in Hk. right. split; [done|by left].
  - rewrite lookup_insert_ne in Hk by done. by left.
Qed.

Lemma affectedTags_ids (deleted : list string) (notes : list (string * NoteDoc))
    (t k : string) :
  k ∈ default [] (affectedTags deleted notes !! t) →
  ∃ n, (k, n) ∈ notes ∧ includes deleted (folderPathname n) = true ∧ t ∈ tags n.
Proof.
  unfold affectedTags. rewrite affectedTags_fold.
  assert (Hgen : ∀ acc : gmap string (list string),
    k ∈ default [] (foldl (λ acc kn, if includes deleted (folderPathname kn.2)
                                     then pushUnder kn.1 acc (tags kn.2) else acc)
                      acc notes !! t) →
    k ∈ default [] (acc !! t)
    ∨ ∃ n, (k, n) ∈ notes ∧ includes deleted (folderPathname n) = true ∧ t ∈ tags n).
  { induction notes as [|[k0 n0] notes IH]; intros acc Hk; cbn [foldl] in Hk; [by left|].
    apply IH in Hk as [Hk|(n & Hin & Hd & Ht)].
    - cbn in Hk. destruct (includes deleted (folderPathname n0)) eqn:Hd; [|by left].
      apply pushUnder_ids in Hk as [Hk|[-> Ht]]; [by left|].
      right. exists n0. split; [by left|done].
    - right. exists n. split; [by right|done]. }
  intros Hk. apply Hgen in Hk as [Hk|?]; [|done].
  rewrite lookup_empty in Hk. by apply elem_of_nil in Hk.
Qed.

Lemma untagAffected_full s (l : list (string * list string)) :
  NoDup l.*1 →
  (∀ t ids, (t, ids) ∈ l → is_Some (tagMap s !! t)) →
  ∃ m, untagAffected s l = Returned m
    ∧ (∀ t ids, (t, ids) ∈ l →
        ∃ e0, tagMap s !! t = Some e0
          ∧ m !! t = Some (withTagNoteIdSet (tagNoteIdSet e0 ∖ list_to_set ids) e0))
    ∧ (∀ t, t ∉ l.*1 → m !! t = None).
Proof.
  unfold untagAffected. intros Hnodup Hall.
  assert (Hgen : ∀ acc : gmap string PopulatedTagDoc,
    ∃ m, foldl (λ (acc : Outcome (gmap string PopulatedTagDoc)) '(tag, noteIds),
             obind acc (λ acc,
               match tagMap s !! tag with
               | None => Threw TypeError
               | Some t =>
                 Returned (<[tag := withTagNoteIdSet
                                      (tagNoteIdSet t ∖ list_to_set noteIds) t]> acc)
               end)) (Returned acc) l = Returned m
      ∧ (∀ t ids, (t, ids) ∈ l →
           ∃ e0, tagMap s !! t = Some e0
             ∧ m !! t = Some (withTagNoteIdSet (tagNoteIdSet e0 ∖ list_to_set ids) e0))
      ∧ (∀ t, t ∉ l.*1 → m !! t = acc !! t)).
  { induction l as [|[t0 ids0] l IH]; intros acc; simpl.
    - exists acc. split; [done|]. split; [|done]. by intros t ids ?%elem_of_nil.
    - apply NoDup_cons in Hnodup as [Hfresh Hnodup]. simpl in Hfresh.
      destruct (Hall t0 ids0) as [e0 He0]; [by left|]. rewrite He0.
      destruct (IH Hnodup (λ t ids Ht, Hall t ids (list_elem_of_further _ _ _ Ht))
                  (<[t0 := withTagNoteIdSet (tagNoteIdSet e0 ∖ list_to_set ids0) e0]> acc))
        as (m & Hm & Hin & Hout).
      exists m. split; [done|]. split.
      + intros t ids [[= -> ->]|Ht]%elem_of_cons; [|by apply Hin].
        exists e0. split; [done|]. by rewrite (Hout _ Hfresh), lookup_insert_eq.
      + intros t Hnot. rewrite Hout.
        * apply lookup_insert_ne. intros ->. apply Hnot. by left.
        * intros Hl. apply Hnot. by right. }
  destruct (Hgen ∅) as (m & Hm & Hin & Hout). exists m. split; [done|]. split; [done|].
  intros t Hnot. by rewrite Hout.
Qed.

Lemma removeFolder_index w (sid pathname : string) s (d' : D) :
  storageMap w !! sid = Some s →
  tagsIndexed s →
  db_removeFolder pathname (stores w (db s)) = (Returned tt, d') →
  ∃ w' s', removeFolder sid pathname w = (Returned tt, w')
    ∧ storageMap w' !! sid = Some s'
    ∧ stores w' = <[db s := d']> (stores w)
    ∧ (∀ q, folderMap s' !! q
            = if decide (q ∈ deletedFolderPathnames s pathname) then None
              else folderMap s !! q)
    ∧ (∀ i, noteMap s' !! i
            = (λ n, if includes (deletedFolderPathnames s pathname) (folderPathname n)
                    then setTrashed true n else n) <$> noteMap s !! i)
    ∧ (∀ t i, i ∈ tagNoteIds s' t ↔
         i ∈ tagNoteIds s t
         ∧ ¬ ∃ n, noteMap s !! i = Some n
               ∧ includes (deletedFolderPathnames s pathname) (folderPathname n) = true
               ∧ t ∈ tags n).
Proof.
  intros Hs Htags Hdb.
  unfold removeFolder. rewrite Hs.
  unfold bind at 1. unfold awaitWrite at 1. rewrite Hdb.
  fold (deletedFolderPathnames s pathname).
  set (deleted := deletedFolderPathnames s pathname).
  set (w0 := set_stores _ w).
  assert (Hrouter : ∃ w1, (if startsWith (location w +:+ "/")
             ("/app/storages/" +:+ sid +:+ "/notes" +:+ pathname +:+ "/")
        then routerReplace
               ("/app/storages/" +:+ sid +:+ "/notes" +:+ getParentFolderPathname pathname)
        else ret tt) w0 = (Returned tt, w1) ∧ storageMap w1 = storageMap w
        ∧ stores w1 = stores w0).
  { destruct (startsWith _ _); by eexists. }
  destruct Hrouter as (w1 & Hrouter & Hw1 & Hst1).
  unfold bind at 1. rewrite Hrouter.
  set (affected := affectedTags deleted (map_to_list (noteMap s))).
  destruct (untagAffected_full s (map_to_list affected)) as (m & Hm & Hmin & Hmout).
  { apply NoDup_fst_map_to_list. }
  { intros t ids Hin. apply elem_of_map_to_list in Hin.
    destruct (affectedTags_origin deleted (map_to_list (noteMap s)) t) as (k & n & Hkn & Ht).
    { by eexists. }
    apply elem_of_map_to_list in Hkn. by eapply tagsIndexed_lookup. }
  unfold bind at 1. unfold liftOutcome. rewrite Hm.
  unfold bind at 1. unfold setStorageMap at 1.
  erewrite draftSeq_run; [|apply draftForEach_at; rewrite Hw1; exact Hs].
  erewrite draftSeq_run; [|apply draftAt_run, lookup_insert_eq].
  erewrite draftAt_run; [|apply lookup_insert_eq].
  match goal with |- context [queueSyncingStorage ?a ?b ?w2] =>
    destruct (queueSyncingStorage_index a b w2) as (w3 & Hq & Hst3 & _ & _ & Hmaps) end.
  rewrite Hq.
  destruct (Hmaps sid) as [_ Hsome].
  edestruct Hsome as (s' & Hs' & Hnm & Hfm & Htm & _).
  { cbn [storageMap set_storageMap]. apply lookup_insert_eq. }
  cbn [noteMap folderMap tagMap set_noteMap set_folderMap set_tagMap] in Hnm, Hfm, Htm.
  destruct (foldl_delete_folderMap deleted s) as (Hdel & Hn0 & Ht0 & _).
  cbv zeta in Hdel, Hn0, Ht0.
  exists w3, s'. split; [done|]. split; [done|].
  split; [by rewrite Hst3; cbn; rewrite Hst1|].
  split; [intros q; by rewrite Hfm, Hdel|].
  split.
  { intros i. rewrite Hnm, Hn0, lookup_union, lookup_fmap, map_lookup_filter.
    destruct (noteMap s !! i) as [n|] eqn:Hn; cbn; [|done].
    case_guard as Hin; cbn.
    - by rewrite Hin.
    - apply not_true_is_false in Hin. by rewrite Hin. }
  intros t i. unfold tagNoteIds at 1. rewrite Htm, Ht0, lookup_union.
  destruct (affected !! t) as [ids|] eqn:Hids.
  - destruct (Hmin t ids) as (e0 & He0 & Hmt); [by apply elem_of_map_to_list|].
    rewrite Hmt, He0. cbn. unfold tagNoteIds. rewrite He0. cbn.
    rewrite elem_of_difference, elem_of_list_to_set. split.
    + intros [Hi Hnot]. split; [done|]. intros (n & Hn & Hd & Ht). apply Hnot.
      destruct (affectedTags_covers deleted (map_to_list (noteMap s)) i n t)
        as (ids' & Hids' & Hi'); [by apply elem_of_map_to_list|done..|].
      fold affected in Hids'. congruence.
    + intros [Hi Hnot]. split; [done|]. intros Hin. apply Hnot.
      destruct (affectedTags_ids deleted (map_to_list (noteMap s)) t i) as (n & Hn & Hd & Ht).
      { fold affected. by rewrite Hids. }
      exists n. split; [by apply elem_of_map_to_list|done].
  - rewrite Hmout.
    2:{ intros Hin. apply list_elem_of_fmap in Hin as ([t' ids] & -> & Hin).
        apply elem_of_map_to_list in Hin. cbn in Hids. congruence. }
    rewrite (left_id_L None (∪)). unfold tagNoteIds. split; [|by intros [? _]].
    intros Hi. split; [done|]. intros (n & Hn & Hd & Ht).
    destruct (affectedTags_covers deleted (map_to_list (noteMap s)) i n t)
      as (ids' & Hids' & Hi'); [by apply elem_of_map_to_list|done..|].
    fold affected in Hids'. congruence.
Qed.

(** X9.  [removeFolder] keeps the index consistent: if every tag carried by
    a note has an entry and the store's call returns, then [removeFolder]
    returns, the notes of the removed folder and of the folders below it are
    marked trashed in [noteMap] and the others are untouched, and the index
    is consistent again. *)
Theorem removeFolder_preserves_indexConsistent w (sid pathname : string) s (d' : D) :
  storageMap w !! sid = Some s →
  indexConsistent s → keyedById s → tagsIndexed s →
  db_removeFolder pathname (stores w (db s)) = (Returned tt, d') →
  ∃ w' s', removeFolder sid pathname w = (Returned tt, w')
    ∧ storageMap w' !! sid = Some s'
    ∧ (∀ i n, noteMap s !! i = Some n →
         noteMap s' !! i
         = Some (if includes (deletedFolderPathnames s pathname) (folderPathname n)
                 then setTrashed true n else n))
    ∧ indexConsistent s'.
Proof.
  intros Hs Hcons Hkeyed Htags Hdb.
  destruct (removeFolder_index w sid pathname s d' Hs Htags Hdb)
    as (w' & s' & Hrun & Hs' & _ & Hfm & Hnm & Htids).
  exists w', s'. split; [done|]. split; [done|].
  split; [intros i n Hn; by rewrite Hnm, Hn|].
  set (deleted := deletedFolderPathnames s pathname) in *.
  apply indexConsistent_alt in Hcons as (HA & HB & HC).
  assert (Hfids : ∀ p, folderNoteIds s' p
                       = if decide (p ∈ deleted) then ∅ else folderNoteIds s p).
  { intros p. unfold folderNoteIds, folderOf. rewrite Hfm. by destruct (decide _). }
  apply indexConsistent_alt. split; [|split].
  - intros k n' Hn' Htr. rewrite Hnm in Hn'.
    destruct (noteMap s !! k) as [n|] eqn:Hn; [|done]. cbn in Hn'. injection Hn' as <-.
    destruct (includes deleted (folderPathname n)) eqn:Hd; [done|].
    pose proof (Hkeyed _ _ Hn) as Hk. cbn in Hk.
    destruct (HA _ _ Hn Htr) as [Hf Ht]. split.
    + rewrite Hfids, decide_False; [done|].
      intros Hin. unfold includes in Hd. apply bool_decide_eq_false in Hd. done.
    + intros t Hin. apply Htids. split; [by apply Ht|].
      intros (n0 & Hn0 & Hd0 & _). rewrite Hk, Hn in Hn0. injection Hn0 as <-. congruence.
  - intros p i Hin. rewrite Hfids in Hin.
    destruct (decide (p ∈ deleted)) as [|Hp]; [by apply not_elem_of_empty in Hin|].
    destruct (HB _ _ Hin) as (n & Hn & Htr & Hfp).
    exists n. rewrite Hnm, Hn. cbn. split; [|done].
    rewrite Hfp. unfold includes. by rewrite bool_decide_eq_false_2.
  - intros t i [Hin Hnot]%Htids.
    destruct (HC _ _ Hin) as (n & Hn & Htr & Ht).
    exists n. rewrite Hnm, Hn. cbn. split; [|done].
    destruct (includes deleted (folderPathname n)) eqn:Hd; [|done].
    exfalso. apply Hnot. by exists n.
Qed.

End RemoveFolderInvariant.

(** ** [createFolder] and [removeTag] *)

Section FoldersAndTags.
Context {D : Type} `{!NoteDb D}.
Implicit Types (w : World D) (s storage st : NoteStorage).

(** X12.  [createFolder] only adds entries: the notes, the tags and every
    existing folder entry (with its note ids) are left as they were, each
    created folder or parent folder that had no entry gets one with its path
    and no note, and a consistent index stays consistent. *)
Theorem createFolder_keeps_existing_entries w (sid pathname : string) s
    (folder : FolderDoc) (d' : D) (parents : list FolderDoc) :
  storageMap w !! sid = Some s →
  db_createFolder pathname (stores w (db s)) = (Returned folder, d') →
  db_getFoldersByPathnames (getAllParentFolderPathnames pathname) d' = Returned parents →
  ∃ w' s', createFolder sid pathname w = (Returned tt, w')
    ∧ storageMap w' !! sid = Some s'
    ∧ noteMap s' = noteMap s ∧ tagMap s' = tagMap s
    ∧ (∀ q, is_Some (folderOf s q) → folderMap s' !! q = folderMap s !! q)
    ∧ (∀ q, q ∉ folder_pathname <$> (folder :: parents) →
         folderMap s' !! q = folderMap s !! q)
    ∧ (∀ q, q ∈ folder_pathname <$> (folder :: parents) → folderOf s q = None →
         ∃ f, folderOf s' q = Some f ∧ pf_pathname f = q ∧ noteIdSet f = ∅)
    ∧ (indexConsistent s → indexConsistent s').
Proof.
  intros Hs Hdb Hparents. unfold createFolder. rewrite Hs.
  unfold bind at 1. unfold tryCatch, bind at 1, awaitWrite. rewrite Hdb. unfold ret at 1.
  unfold bind at 1. unfold awaitRead. rewrite stores_insert_eq, Hparents.
  unfold bind at 1. unfold setStorageMap at 1.
  erewrite (draftForEach_gen _ _ (enterCreated s) sid _ s); [|exact Hs|].
  2:{ intros a m1 s1 Hm1. unfold enterCreated.
      destruct (folderOf s (folder_pathname a)).
      - unfold draftSkip. by rewrite insert_id.
      - unfold draftAt. by rewrite Hm1. }
  match goal with |- context [queueSyncingStorage ?a ?b ?w2] =>
    destruct (queueSyncingStorage_index a b w2) as (w3 & Hq & _ & _ & _ & Hmaps) end.
  rewrite Hq.
  destruct (Hmaps sid) as [_ Hsome].
  edestruct Hsome as (s' & Hs' & Hnm & Hfm & Htm & _).
  { cbn [storageMap set_storageMap]. apply lookup_insert_eq. }
  destruct (enterCreated_fold s (reverse (folder :: parents)) s)
    as (Hn & Ht & _ & Hout & Hkeep & Hin).
  cbv zeta in Hn, Ht, Hout, Hkeep, Hin.
  exists w3, s'. split; [done|]. split; [done|].
  assert (Hcreated : ∀ q, q ∈ folder_pathname <$> (folder :: parents) → folderOf s q = None →
            ∃ f, folderOf s' q = Some f ∧ pf_pathname f = q ∧ noteIdSet f = ∅).
  { intros q Hq' Hnone.
    destruct (Hin q) as (fd & _ & Hlook); [|done|].
    { apply list_elem_of_fmap in Hq' as (fd & -> & Hfd).
      apply list_elem_of_fmap. exists fd. split; [done|]. by apply elem_of_reverse. }
    eexists. unfold folderOf. rewrite Hfm, Hlook. done. }
  assert (Hunchanged : ∀ q, q ∉ folder_pathname <$> (folder :: parents) →
            folderMap s' !! q = folderMap s !! q).
  { intros q Hq'. rewrite Hfm. apply Hout. intros Hin'. apply Hq'.
    apply list_elem_of_fmap in Hin' as (fd & -> & Hfd).
    apply list_elem_of_fmap. exists fd. split; [reflexivity|]. by apply elem_of_reverse. }
  split; [by rewrite Hnm|]. split; [by rewrite Htm|].
  split; [|split; [done|split; [done|]]].
  2:{ assert (Hids : ∀ q, folderNoteIds s' q = folderNoteIds s q).
      { intros q. unfold folderNoteIds.
        destruct (folderOf s q) as [g|] eqn:Hg.
        - unfold folderOf in *. rewrite Hfm, Hkeep; [by rewrite Hg|].
          unfold folderOf. rewrite Hg. by eexists.
        - destruct (decide (q ∈ folder_pathname <$> (folder :: parents))) as [Hq'|Hq'].
          + destruct (Hcreated q Hq' Hg) as (f & -> & _ & Hempty). cbn. by rewrite Hempty.
          + unfold folderOf in *. by rewrite (Hunchanged q Hq'), Hg. }
      intros Hcons. apply indexConsistent_alt in Hcons as (HA & HB & HC).
      assert (Htids : ∀ t, tagNoteIds s' t = tagNoteIds s t).
      { intros t. unfold tagNoteIds. by rewrite Htm, Ht. }
      apply indexConsistent_alt. rewrite Hnm, Hn.
      split; [|split].
      - intros k n Hk Htr. rewrite Hids. destruct (HA k n Hk Htr) as [Hf Hta].
        split; [done|]. intros t Htag. rewrite Htids. by apply Hta.
      - intros p i. rewrite Hids. apply HB.
      - intros t i. rewrite Htids. apply HC. }
  intros q Hq'. rewrite Hfm. by apply Hkeep.
Qed.

(** X11.  [removeTag] removes the tag from the index and from every note:
    once the store's call returns, the tag has no entry, the other tag
    entries and all folder entries are as before, no note of [noteMap]
    carries the tag and the notes are otherwise unchanged; a consistent
    index stays consistent. *)
Theorem removeTag_strips_tag w (sid tag : string) s (d' : D) :
  storageMap w !! sid = Some s →
  db_removeTag tag (stores w (db s)) = (Returned tt, d') →
  ∃ w' s', removeTag sid tag w = (Returned tt, w')
    ∧ storageMap w' !! sid = Some s'
    ∧ tagMap s' = delete tag (tagMap s)
    ∧ folderMap s' = folderMap s
    ∧ (∀ i, noteMap s' !! i
            = (λ n, setTags (List.filter (λ noteTag, negb (String.eqb noteTag tag)) (tags n)) n)
                <$> noteMap s !! i)
    ∧ (∀ i n, noteMap s' !! i = Some n → tag ∉ tags n)
    ∧ (indexConsistent s → indexConsistent s').
Proof.
  intros Hs Hdb. unfold removeTag. rewrite Hs.
  unfold bind at 1. unfold awaitWrite at 1. rewrite Hdb.
  unfold bind at 1.
  assert (Hroute : ∀ w0, ∃ w1,
    (if String.eqb (location w) ("/app/storages/" +:+ sid +:+ "/tags/" +:+ tag)
     then routerReplace ("/app/storages/" +:+ sid +:+ "/notes")
     else ret tt) w0 = (Returned tt, w1) ∧ storageMap w1 = storageMap w0).
  { intros w0. destruct (String.eqb _ _); by eexists. }
  match goal with |- context [(if _ then _ else _) ?w0] =>
    destruct (Hroute w0) as (w1 & -> & Hw1) end.
  unfold bind at 1. unfold setStorageMap at 1.
  erewrite draftAt_run; [|rewrite Hw1; exact Hs].
  match goal with |- context [queueSyncingStorage ?a ?b ?w2] =>
    destruct (queueSyncingStorage_index a b w2) as (w3 & Hq & _ & _ & _ & Hmaps) end.
  rewrite Hq.
  destruct (Hmaps sid) as [_ Hsome].
  edestruct Hsome as (s' & Hs' & Hnm & Hfm & Htm & _).
  { cbn. apply lookup_insert_eq. }
  cbn in Hnm, Hfm, Htm.
  assert (Hnotes : ∀ i, noteMap s' !! i
            = (λ n, setTags (List.filter (λ noteTag, negb (String.eqb noteTag tag)) (tags n)) n)
                <$> noteMap s !! i).
  { intros i. rewrite Hnm. rewrite lookup_union, lookup_fmap, map_lookup_filter.
    destruct (noteMap s !! i) as [n|] eqn:Hn; cbn; [|done].
    case_guard as Hin; cbn; [done|].
    apply not_true_is_false in Hin. unfold includes in Hin.
    apply bool_decide_eq_false in Hin. cbn in Hin.
    rewrite (filter_other_tags _ _ Hin). by destruct n. }
  exists w3, s'. split; [done|]. split; [done|]. split; [done|]. split; [done|].
  split; [done|].
  split.
  { intros i n Hn. rewrite Hnotes in Hn.
    destruct (noteMap s !! i) as [n0|]; [|done]. cbn in Hn. injection Hn as <-. cbn.
    intros Hin. apply list_elem_of_In, filter_In in Hin as [_ Hneq].
    by rewrite String.eqb_refl in Hneq. }
  intros Hcons. apply indexConsistent_alt in Hcons as (HA & HB & HC).
  assert (Hfids : ∀ p, folderNoteIds s' p = folderNoteIds s p).
  { intros p. unfold folderNoteIds, folderOf. by rewrite Hfm. }
  assert (Htids : ∀ t, tagNoteIds s' t = if decide (t = tag) then ∅ else tagNoteIds s t).
  { intros t. unfold tagNoteIds. rewrite Htm. destruct (decide (t = tag)) as [->|Hne].
    - by rewrite lookup_delete_eq.
    - by rewrite lookup_delete_ne. }
  apply indexConsistent_alt. split; [|split].
  - intros k n' Hn' Htr. rewrite Hnotes in Hn'.
    destruct (noteMap s !! k) as [n|] eqn:Hn; [|done]. cbn in Hn'. injection Hn' as <-.
    cbn in *. destruct (HA _ _ Hn Htr) as [Hf Ht]. split; [by rewrite Hfids|].
    intros t Hin. apply list_elem_of_In, filter_In in Hin as [Hin Hneq].
    apply list_elem_of_In in Hin. rewrite Htids, decide_False; [by apply Ht|].
    intros ->. by rewrite String.eqb_refl in Hneq.
  - intros p i Hin. rewrite Hfids in Hin. destruct (HB _ _ Hin) as (n & Hn & Htr & Hfp).
    eexists. rewrite Hnotes, Hn. cbn. done.
  - intros t i Hin. rewrite Htids in Hin.
    destruct (decide (t = tag)) as [|Hne]; [by apply not_elem_of_empty in Hin|].
    destruct (HC _ _ Hin) as (n & Hn & Htr & Ht).
    eexists. rewrite Hnotes, Hn. cbn. split; [done|]. split; [done|].
    apply list_elem_of_In, filter_In. split; [by apply list_elem_of_In|].
    apply negb_true_iff, String.eqb_neq. done.
Qed.

End FoldersAndTags.

(** ** [moveNoteToOtherStorage] between two storages *)

Section MoveDelta.
Context {D : Type} `{!NoteDb D}.
Implicit Types (w : World D) (s storage st : NoteStorage).

Lemma promiseAll_targetTag sT (newId : string) (l : list string) w o w' :
  tagEntriesNamed sT →
  promiseAll (targetTag sT newId) l w = (o, w') →
  w' = w ∧ ∀ r, o = Returned r →
    Forall2 (λ t e, name e = Some t ∧ tagNoteIdSet e = tagNoteIds sT t ∪ {[ newId ]}) l r.
Proof.
  intros Hnamed. revert o w'.
  induction l as [|t l IH]; intros o w'; cbn [promiseAll].
  - intros [= <- <-]. split; [done|]. intros r [= <-]. constructor.
  - assert (H1 : ∃ o1, targetTag sT newId t w = (o1, w)
               ∧ ∀ e, o1 = Returned e →
                   name e = Some t ∧ tagNoteIdSet e = tagNoteIds sT t ∪ {[ newId ]}).
    { unfold targetTag, tagNoteIds. destruct (tagMap sT !! t) as [e0|] eqn:Ht.
      - eexists. split; [done|]. intros e [= <-]. cbn. split; [|done].
        exact (Hnamed _ _ Ht).
      - unfold bind, awaitRead, ret. destruct (db_getTag t _) as [td|err].
        + eexists. split; [done|]. intros e' [= <-]. cbn.
          by rewrite (left_id_L ∅ (∪)).
        + eexists. split; [done|]. by intros e' [=]. }
    destruct H1 as (o1 & -> & He).
    destruct (promiseAll (targetTag sT newId) l w) as [o2 w2] eqn:H2.
    destruct (IH _ _ eq_refl) as [-> Hr].
    intros [= <- <-]. split; [done|].
    intros r Hret. destruct o1 as [e|]; [|done]. destruct o2 as [r2|]; [|done].
    injection Hret as <-. constructor; auto.
Qed.

(** Writing tag entries under their [name], one after the other. *)
Lemma tag_writes (l : list PopulatedTagDoc) (spec : string → gset string) s0 :
  (∀ e, e ∈ l → ∃ t, name e = Some t ∧ tagNoteIdSet e = spec t) →
  let s' := foldl (λ s e, set_tagMap (<[propertyKey (name e) := e]> (tagMap s)) s) s0 l in
  noteMap s' = noteMap s0 ∧ folderMap s' = folderMap s0
  ∧ ∀ t, tagNoteIds s' t
         = if decide (Some t ∈ name <$> l) then spec t else tagNoteIds s0 t.
Proof.
  revert s0. induction l as [|e l IH]; intros s0 Hall; cbn [foldl].
  { split; [done|]. split; [done|]. intros t.
    by rewrite decide_False by (cbn; apply not_elem_of_nil). }
  destruct (Hall e) as (te & Hname & Hspec); [by left|].
  destruct (IH (set_tagMap (<[propertyKey (name e) := e]> (tagMap s0)) s0))
    as (Hn & Hf & Ht).
  { intros e' He'. apply Hall. by right. }
  split; [by rewrite Hn|]. split; [by rewrite Hf|].
  intros t. rewrite Ht. cbn [fmap list_fmap].
  destruct (decide (Some t ∈ name <$> l)) as [Hl|Hl].
  - by rewrite decide_True by (by right).
  - unfold tagNoteIds. cbn [tagMap set_tagMap]. rewrite Hname. cbn [propertyKey default].
    destruct (decide (te = t)) as [->|Hne].
    + rewrite decide_True by (left; done). rewrite lookup_insert_eq. done.
    + rewrite lookup_insert_ne by done.
      rewrite decide_False; [done|]. intros [[= ?]|?]%elem_of_cons; done.
Qed.

Lemma move_index w (S T noteId targetFolderPathname : string) sS sT
    (n1 created : NoteDoc) (dT' : D) w' :
  S ≠ T →
  storageMap w !! S = Some sS →
  storageMap w !! T = Some sT →
  folderEntriesKeyed sS → folderEntriesKeyed sT →
  tagEntriesNamed sS → tagEntriesNamed sT →
  targetFolderPathname ∉ getAllParentFolderPathnames targetFolderPathname →
  storeReturnsRequestedFolders (stores w' (db sT)) →
  db_getNote noteId (stores w (db sS)) = Returned (Some n1) →
  db_createNote
    (mkNoteProps (Some (title n1)) (Some (content n1)) (Some (tags n1))
       (Some targetFolderPathname) (Some (data n1)))
    (stores w (db sT)) = (Returned created, dT') →
  moveNoteToOtherStorage S noteId T targetFolderPathname w = (Returned tt, w') →
  ∃ sS' sT',
    storageMap w' !! S = Some sS'
    ∧ storageMap w' !! T = Some sT'
    ∧ noteMap sS' = delete (_id n1) (noteMap sS)
    ∧ (∀ p, folderNoteIds sS' p
            = if decide (p = folderPathname n1)
              then folderNoteIds sS p ∖ {[ _id n1 ]} else folderNoteIds sS p)
    ∧ (∀ t, tagNoteIds sS' t
            = if decide (t ∈ tags n1)
              then tagNoteIds sS t ∖ {[ _id n1 ]} else tagNoteIds sS t)
    ∧ noteMap sT' = <[_id created := populate (ns_id sT) created]> (noteMap sT)
    ∧ (∀ p, folderNoteIds sT' p
            = if decide (p = targetFolderPathname)
              then folderNoteIds sT p ∪ {[ _id created ]} else folderNoteIds sT p)
    ∧ (∀ t, tagNoteIds sT' t
            = if decide (t ∈ tags created)
              then tagNoteIds sT t ∪ {[ _id created ]} else tagNoteIds sT t).
Proof.
  intros HST HS HT HkS HkT HnS HnT Hself Hfolders Hget Hcreate.
  unfold moveNoteToOtherStorage. rewrite HS, HT.
  unfold bind at 1. unfold awaitRead at 1. rewrite Hget.
  unfold bind at 1. unfold awaitWrite at 1. rewrite Hcreate.
  set (w1 := set_stores _ w).
  unfold bind at 1. unfold awaitWrite at 1.
  destruct (db_purgeNote (_id n1) (stores w1 (db sS))) as [[[]|e] dS']; [|done].
  set (w2 := set_stores _ w1).
  assert (Hw2 : storageMap w2 = storageMap w) by done.
  clearbody w2. clear w1.
  set (newId := _id (populate (ns_id sT) created)).
  change (tags (populate (ns_id sT) created)) with (tags created).
  fold (targetTag sT newId).
  (* the target folder *)
  unfold bind at 1.
  assert (Htf : ∃ o, (match folderOf sT targetFolderPathname with
                      | None =>
                        let* fd := awaitRead (db sT) (db_getFolder targetFolderPathname) in
                        ret (populateFolder fd targetFolderPathname ∅)
                      | Some f => ret f
                      end) w2 = (o, w2)
                ∧ ∀ tf, o = Returned tf →
                    pf_pathname tf = targetFolderPathname
                    ∧ noteIdSet tf = folderNoteIds sT targetFolderPathname).
  { unfold folderNoteIds. destruct (folderOf sT targetFolderPathname) as [f|] eqn:Hf.
    - eexists. split; [done|]. intros tf [= <-]. split; [|done].
      exact (folderEntriesKeyed_lookup sT _ _ HkT Hf).
    - unfold bind, awaitRead, ret. destruct (db_getFolder _ _) as [fd|err].
      + eexists. split; [done|]. by intros tf [= <-].
      + eexists. split; [done|]. by intros tf [=]. }
  destruct Htf as (otf & -> & Htf).
  destruct otf as [tf|e]; [|done]. destruct (Htf _ eq_refl) as [Htfp Htfs]. clear Htf.
  unfold bind at 1. unfold awaitRead at 1.
  destruct (db_getFoldersByPathnames _ (stores w2 (db sT))) as [parents|e] eqn:Hparents;
    [|done].
  unfold bind at 1.
  destruct (promiseAll (targetTag sT newId) (tags created) w2) as [[r|e] w2'] eqn:Htags;
    apply promiseAll_targetTag in Htags as [-> Htags]; [|done..].
  specialize (Htags _ eq_refl).
  set (mf := (λ f, withNoteIdSet (noteIdSet f ∖ {[ _id n1 ]}) f)
               <$> folderOf sS (folderPathname n1)).
  set (folderStep := λ ds : NoteStorage,
         match mf with
         | Some f => set_folderMap (<[pf_pathname f := Some f]> (folderMap ds)) ds
         | None => ds
         end).
  assert (Hstep : ∀ (m : gmap string NoteStorage) s1, m !! S = Some s1 →
    (match mf with
     | Some f => draftAt S (λ ds, set_folderMap (<[pf_pathname f := Some f]> (folderMap ds)) ds)
     | None => draftSkip
     end) m = Returned (<[S := folderStep s1]> m)).
  { intros m s1 Hm. subst folderStep. cbv beta. destruct mf.
    - unfold draftAt. by rewrite Hm.
    - unfold draftSkip. by rewrite insert_id. }
  unfold bind at 1. unfold setStorageMap at 1.
  erewrite draftSeq_run; [|apply draftAt_run; rewrite Hw2; exact HS].
  erewrite draftSeq_run; [|apply Hstep, lookup_insert_eq].
  erewrite draftSeq_run; [|apply draftForEach_at, lookup_insert_eq].
  erewrite draftSeq_run;
    [|apply draftAt_run; rewrite !lookup_insert_ne by done; rewrite Hw2; exact HT].
  erewrite draftSeq_run; [|apply draftForEach_at, lookup_insert_eq].
  erewrite draftForEach_at; [|apply lookup_insert_eq].
  unfold bind at 1.
  match goal with |- context [queueSyncingStorage ?a ?b ?w0] =>
    destruct (queueSyncingStorage_index a b w0) as (w3 & Hq & Hst3 & _ & _ & Hmaps) end.
  rewrite Hq.
  assert (Hneq : negb (S =? T)%string = true).
  { apply negb_true_iff. by apply String.eqb_neq. }
  rewrite Hneq.
  destruct (queueSyncingStorage_index T autoSyncDebounceWaitingTime w3)
    as (w4 & Hq4 & Hst4 & _ & _ & Hmaps4).
  cbv beta iota. rewrite Hq4. intros [= <-].
  rewrite Hst4, Hst3 in Hfolders. cbn [stores set_storageMap] in Hfolders.
  destruct (Hmaps S) as [_ HsomeS]. destruct (Hmaps T) as [_ HsomeT].
  edestruct HsomeS as (sS3 & HsS3 & HnmS & HfmS & HtmS & _).
  { cbn [storageMap set_storageMap]. rewrite !lookup_insert_ne by done.
    apply lookup_insert_eq. }
  edestruct HsomeT as (sT3 & HsT3 & HnmT & HfmT & HtmT & _).
  { cbn [storageMap set_storageMap]. apply lookup_insert_eq. }
  destruct (Hmaps4 S) as [_ HsomeS4]. destruct (Hmaps4 T) as [_ HsomeT4].
  destruct (HsomeS4 _ HsS3) as (sS' & HsS' & HnmS' & HfmS' & HtmS' & _).
  destruct (HsomeT4 _ HsT3) as (sT' & HsT' & HnmT' & HfmT' & HtmT' & _).
  rewrite HnmS in HnmS'. rewrite HfmS in HfmS'. rewrite HtmS in HtmS'.
  rewrite HnmT in HnmT'. rewrite HfmT in HfmT'. rewrite HtmT in HtmT'.
  clear HnmS HfmS HtmS HnmT HfmT HtmT Hmaps Hmaps4 HsomeS HsomeT HsomeS4 HsomeT4 Hq Hq4.
  (* source side *)
  match type of HtmS' with context [foldl ?f ?s0 ?l0] =>
    destruct (tag_writes l0 (λ t, tagNoteIds sS t ∖ {[ _id n1 ]}) s0) as (HSn & HSf & HSt);
    [|set (srcTags := l0) in *]
  end.
  { intros e He. apply list_elem_of_fmap in He as (e0 & -> & He0).
    apply list_elem_of_omap in He0 as (t & Ht & He0).
    exists t. cbn. split; [exact (HnS _ _ He0)|]. unfold tagNoteIds. by rewrite He0. }
  cbv zeta in HSn, HSf, HSt.
  assert (Hsrc : ∀ t, Some t ∈ name <$> srcTags ↔ t ∈ tags n1 ∧ is_Some (tagMap sS !! t)).
  { intros t. subst srcTags. rewrite list_elem_of_fmap. split.
    - intros (e & He & Hin). apply list_elem_of_fmap in Hin as (e0 & -> & He0).
      apply list_elem_of_omap in He0 as (t0 & Ht0 & He0). cbn in He.
      rewrite (HnS _ _ He0) in He. injection He as ->. split; [done|by eexists].
    - intros [Hin [e0 He0]].
      exists (withTagNoteIdSet (tagNoteIdSet e0 ∖ {[ _id n1 ]}) e0). cbn.
      split; [by rewrite (HnS _ _ He0)|].
      apply list_elem_of_fmap. exists e0. split; [done|].
      apply list_elem_of_omap. by exists t. }
  (* target side *)
  match type of HtmT' with context [foldl ?f ?s0 r] =>
    destruct (tag_writes r (λ t, tagNoteIds sT t ∪ {[ newId ]}) s0) as (HTn & HTf & HTt)
  end.
  { intros e He. apply list_elem_of_lookup in He as (i & Hi).
    destruct (Forall2_lookup_r _ _ _ _ _ Htags Hi) as (t & _ & Hname & Hset).
    by exists t. }
  cbv zeta in HTn, HTf, HTt.
  assert (Htgt : ∀ t, Some t ∈ name <$> r ↔ t ∈ tags created).
  { intros t. clear -Htags. induction Htags as [|t0 e0 l r [Hname _] Hall IH]; cbn.
    - split; by intros ?%elem_of_nil.
    - rewrite !elem_of_cons, IH, Hname. split; (intros [Heq|?]; [left|by right]); congruence. }
  match type of HTf with context [foldl ?f ?s0 ?l0] =>
    destruct (foldl_set_folderMap l0 pf_pathname Some s0) as (Hf1 & Hf2 & Hf3 & _) end.
  cbv zeta in Hf1, Hf2, Hf3.
  cbn [noteMap folderMap tagMap set_noteMap set_folderMap set_tagMap] in Hf1, Hf2, Hf3.
  exists sS', sT'. split; [done|]. split; [done|].
  split.
  { rewrite HnmS', HSn. subst folderStep. cbv beta. by destruct mf. }
  split.
  { intros p. unfold folderNoteIds at 1. unfold folderOf. rewrite HfmS', HSf.
    subst folderStep mf. cbv beta.
    destruct (folderOf sS (folderPathname n1)) as [f|] eqn:Hf; cbn.
    - rewrite (folderEntriesKeyed_lookup sS _ _ HkS Hf).
      destruct (decide (p = folderPathname n1)) as [->|Hne].
      + rewrite lookup_insert_eq. cbn. unfold folderNoteIds. by rewrite Hf.
      + by rewrite lookup_insert_ne.
    - destruct (decide (p = folderPathname n1)) as [->|Hne]; [|done].
      unfold folderNoteIds. fold (folderOf sS (folderPathname n1)). rewrite Hf. cbn.
      apply set_eq. intros x. rewrite elem_of_difference. split; [done|]. by intros [??]. }
  split.
  { intros t. unfold tagNoteIds at 1. rewrite HtmS'. fold (tagNoteIds
      (foldl (λ s e, set_tagMap (<[propertyKey (name e) := e]> (tagMap s)) s)
         (folderStep (set_noteMap (delete (_id n1) (noteMap sS)) sS)) srcTags) t).
    rewrite HSt.
    assert (Hbase : tagNoteIds (folderStep (set_noteMap (delete (_id n1) (noteMap sS)) sS)) t
                    = tagNoteIds sS t).
    { unfold tagNoteIds. subst folderStep. cbv beta. by destruct mf. }
    rewrite Hbase.
    destruct (decide (Some t ∈ name <$> srcTags)) as [Hyes|Hno].
    - apply Hsrc in Hyes as [Hin _]. by rewrite decide_True.
    - destruct (decide (t ∈ tags n1)) as [Hin|Hout]; [|done].
      destruct (tagMap sS !! t) as [e0|] eqn:He0.
      + exfalso. apply Hno, Hsrc. split; [done|by eexists].
      + unfold tagNoteIds. rewrite He0. cbn.
        apply set_eq. intros x. rewrite elem_of_difference. split; [done|]. by intros [??]. }
  split.
  { rewrite HnmT', HTn, Hf2. done. }
  split.
  { intros p. unfold folderNoteIds at 1. unfold folderOf. rewrite HfmT', HTf, Hf1.
    cbn [foldl withNoteIdSet pf_pathname]. rewrite Htfp.
    rewrite refresh_parents_ids.
    - destruct (decide (p = targetFolderPathname)) as [->|Hne].
      + rewrite lookup_insert_eq. cbn. by rewrite Htfs.
      + by rewrite lookup_insert_ne.
    - intros fd Hin. apply (Hfolders _ _ Hparents) in Hin.
      unfold parentFolderPathnamesToCheck in Hin.
      apply list_elem_of_In, filter_In in Hin as [Hanc Hnone].
      apply bool_decide_eq_true_1 in Hnone. apply list_elem_of_In in Hanc.
      rewrite lookup_insert_ne by (intros Heq; rewrite <- Heq in Hanc; done).
      unfold folderOf in Hnone. by rewrite Hnone. }
  intros t. unfold tagNoteIds at 1. rewrite HtmT'.
  match goal with |- context [foldl ?f ?s0 r] =>
    fold (tagNoteIds (foldl f s0 r) t) end.
  rewrite HTt.
  destruct (decide (Some t ∈ name <$> r)) as [Hyes|Hno].
  - apply Htgt in Hyes. by rewrite decide_True.
  - rewrite decide_False by (by intros ?%Htgt).
    unfold tagNoteIds. by rewrite Hf3.
Qed.

End MoveDelta.

Section MoveInvariant.
Context {D : Type} `{!NoteDb D}.
Implicit Types (w : World D) (s storage st : NoteStorage).

(** X10.  [moveNoteToOtherStorage] between two different storages keeps
    both indexes consistent: when it returns, the note is gone from the
    [noteMap] of the source, the note the target store created is in the
    [noteMap] of the target and filed under the target folder, and both
    indexes are consistent.  (With the same storage on both sides the index
    is broken: C1.) *)
Theorem move_between_storages_preserves_indexConsistent
    w (S T noteId targetFolderPathname : string) sS sT (n1 created : NoteDoc) (dT' : D) w' :
  S ≠ T →
  storageMap w !! S = Some sS →
  storageMap w !! T = Some sT →
  indexConsistent sS → keyedById sS → folderEntriesKeyed sS → tagEntriesNamed sS →
  indexConsistent sT → folderEntriesKeyed sT → tagEntriesNamed sT →
  targetFolderPathname ∉ getAllParentFolderPathnames targetFolderPathname →
  storeReturnsRequestedFolders (stores w' (db sT)) →
  db_getNote noteId (stores w (db sS)) = Returned (Some n1) →
  (∀ indexed, noteMap sS !! _id n1 = Some indexed →
     folderPathname indexed = folderPathname n1 ∧ tags indexed = tags n1) →
  db_createNote
    (mkNoteProps (Some (title n1)) (Some (content n1)) (Some (tags n1))
       (Some targetFolderPathname) (Some (data n1)))
    (stores w (db sT)) = (Returned created, dT') →
  noteMap sT !! _id created = None →
  trashed created = false →
  folderPathname created = targetFolderPathname →
  moveNoteToOtherStorage S noteId T targetFolderPathname w = (Returned tt, w') →
  ∃ sS' sT',
    storageMap w' !! S = Some sS'
    ∧ storageMap w' !! T = Some sT'
    ∧ noteMap sS' !! _id n1 = None
    ∧ noteMap sT' !! _id created = Some (populate (ns_id sT) created)
    ∧ _id created ∈ folderNoteIds sT' targetFolderPathname
    ∧ indexConsistent sS'
    ∧ indexConsistent sT'.
Proof.
  intros HST HS HT HcS HkeyS HkS HnS HcT HkT HnT Hself Hfolders Hget Hagree Hcreate
    Hfresh Htr Hfp Hrun.
  destruct (move_index w S T noteId targetFolderPathname sS sT n1 created dT' w'
              HST HS HT HkS HkT HnS HnT Hself Hfolders Hget Hcreate Hrun)
    as (sS' & sT' & HsS' & HsT' & HnmS & HfS & HtS & HnmT & HfT & HtT).
  exists sS', sT'. split; [done|]. split; [done|].
  split; [rewrite HnmS; apply lookup_delete_eq|].
  split; [rewrite HnmT; apply lookup_insert_eq|].
  split.
  { rewrite HfT, decide_True by done. apply elem_of_union. right. by apply elem_of_singleton. }
  split.
  - apply indexConsistent_alt in HcS as (HA & HB & HC).
    apply indexConsistent_alt. split; [|split].
    + intros k n Hn Hntr. rewrite HnmS in Hn.
      apply lookup_delete_Some in Hn as [Hne Hn].
      pose proof (HkeyS _ _ Hn) as Hk. cbn in Hk.
      destruct (HA _ _ Hn Hntr) as [Hf Ht]. split.
      * rewrite HfS. destruct (decide _); [|done].
        apply elem_of_difference. split; [done|]. rewrite elem_of_singleton. congruence.
      * intros t Hin. rewrite HtS. destruct (decide _); [|by apply Ht].
        apply elem_of_difference. split; [by apply Ht|]. rewrite elem_of_singleton. congruence.
    + intros p i Hin. rewrite HfS in Hin. rewrite HnmS.
      destruct (decide (p = folderPathname n1)) as [->|Hp].
      * apply elem_of_difference in Hin as [Hin Hne]. rewrite elem_of_singleton in Hne.
        rewrite lookup_delete_ne by congruence. by apply HB.
      * destruct (HB _ _ Hin) as (n & Hn & Hntr & Hnfp).
        rewrite lookup_delete_ne; [by exists n|]. intros <-.
        destruct (Hagree _ Hn) as [Hfolder _]. congruence.
    + intros t i Hin. rewrite HtS in Hin. rewrite HnmS.
      destruct (decide (t ∈ tags n1)) as [Ht|Ht].
      * apply elem_of_difference in Hin as [Hin Hne]. rewrite elem_of_singleton in Hne.
        rewrite lookup_delete_ne by congruence. by apply HC.
      * destruct (HC _ _ Hin) as (n & Hn & Hntr & Htag).
        rewrite lookup_delete_ne; [by exists n|]. intros <-.
        destruct (Hagree _ Hn) as [_ Htags]. congruence.
  - apply indexConsistent_alt in HcT as (HA & HB & HC).
    set (nd := populate (ns_id sT) created) in *.
    apply indexConsistent_alt. split; [|split].
    + intros k n Hn Hntr. rewrite HnmT in Hn.
      destruct (decide (_id created = k)) as [<-|Hne].
      * rewrite lookup_insert_eq in Hn. injection Hn as <-. cbn. split.
        -- rewrite HfT, decide_True by done. apply elem_of_union. right.
           by apply elem_of_singleton.
        -- intros t Hin. rewrite HtT, decide_True by done. apply elem_of_union. right.
           by apply elem_of_singleton.
      * rewrite lookup_insert_ne in Hn by done.
        destruct (HA _ _ Hn Hntr) as [Hf Ht]. split.
        -- rewrite HfT. destruct (decide _); [|done]. apply elem_of_union. by left.
        -- intros t Hin. rewrite HtT. destruct (decide _); [|by apply Ht].
           apply elem_of_union. left. by apply Ht.
    + intros p i Hin. rewrite HfT in Hin. rewrite HnmT.
      destruct (decide (i = _id created)) as [->|Hne].
      * rewrite lookup_insert_eq. exists nd. split; [done|]. split; [done|].
        destruct (decide (p = targetFolderPathname)) as [->|Hp]; [done|].
        apply HB in Hin as (n & Hn & _). congruence.
      * rewrite lookup_insert_ne by done. apply HB.
        destruct (decide _); [|done].
        apply elem_of_union in Hin as [?|Hin]; [done|]. by apply elem_of_singleton in Hin.
    + intros t i Hin. rewrite HtT in Hin. rewrite HnmT.
      destruct (decide (i = _id created)) as [->|Hne].
      * rewrite lookup_insert_eq. exists nd. split; [done|]. split; [done|].
        destruct (decide (t ∈ tags created)) as [Ht|Ht]; [done|].
        apply HC in Hin as (n & Hn & _). congruence.
      * rewrite lookup_insert_ne by done. apply HC.
        destruct (decide _); [|done].
        apply elem_of_union in Hin as [?|Hin]; [done|]. by apply elem_of_singleton in Hin.
Qed.

End MoveInvariant.

(** ** The further properties on concrete worlds *)

(** Closes a decidable statement about a concrete world by evaluation. *)
Ltac decide_by_computation := apply (bool_decide_unpack _); vm_compute; exact I.

Lemma prepareStorage_builds_consistent_index_witness :
  ∃ s, prepareStorage (mkStorageData "S" "S" None) worldClosed
       = (Returned s,
          set_stores (<["S" := (db_init (stores worldClosed "S")).2]> (stores worldClosed))
            worldClosed)
    ∧ ns_id s = "S" ∧ ns_name s = "S" ∧ cloudStorage s = None
    ∧ noteMap s = {[ "N1" := noteN1 ]} ∧ syncTimer s = None ∧ sync s = None
    ∧ indexConsistent s ∧ folderMapDefined s ∧ folderEntriesKeyed s.
Proof.
  pose (docs := mkAllDocs (m_notes (db_init (stores worldClosed "S")).2)
                  (m_folders (db_init (stores worldClosed "S")).2)
                  (m_tags (db_init (stores worldClosed "S")).2)).
  assert (Hkeyed : map_Forall (λ k n, _id n = k) (adm_noteMap docs)).
  { decide_by_computation. }
  assert (Hclosed : docsClosed docs).
  { decide_by_computation. }
  assert (Hinit : db_init (stores worldClosed (sd_id (mkStorageData "S" "S" None)))
                  = (Returned tt, (db_init (stores worldClosed "S")).2)).
  { vm_compute. reflexivity. }
  assert (Hdocs : db_getAllDocsMap (db_init (stores worldClosed "S")).2 = Returned docs).
  { vm_compute. reflexivity. }
  destruct (prepareStorage_builds_consistent_index worldClosed (mkStorageData "S" "S" None)
              (db_init (stores worldClosed "S")).2 docs Hinit Hdocs Hkeyed Hclosed)
    as (s & Hrun & Hid & Hname & Hcloud & Hnm & Htimer & Hsync & _ & _ & Hcons & Hdef & Hk).
  exists s. split; [exact Hrun|]. split; [exact Hid|]. split; [exact Hname|].
  split; [exact Hcloud|]. split; [|split; [exact Htimer|split; [exact Hsync|]]].
  - rewrite Hnm. vm_compute. reflexivity.
  - split; [exact Hcons|]. split; [exact Hdef|exact Hk].
Defined.

Lemma prepareStorage_throws_on_dangling_note_witness :
  prepareStorage (mkStorageData "S" "S" None) worldBroken
  = (Threw TypeError,
     set_stores (<["S" := (db_init (stores worldBroken "S")).2]> (stores worldBroken))
       worldBroken).
Proof.
  refine (prepareStorage_throws_on_dangling_note worldBroken (mkStorageData "S" "S" None)
            (db_init (stores worldBroken "S")).2
            (mkAllDocs (m_notes (db_init (stores worldBroken "S")).2)
               (m_folders (db_init (stores worldBroken "S")).2)
               (m_tags (db_init (stores worldBroken "S")).2))
            "N1" noteN1 _ _ _ eq_refl _).
  - vm_compute. reflexivity.
  - vm_compute. reflexivity.
  - vm_compute. reflexivity.
  - left. vm_compute. reflexivity.
Defined.

Lemma createNote_preserves_indexConsistent_witness :
  ∃ s n w1 s1,
    storageMap worldST !! "S" = Some s
    ∧ indexConsistent s
    ∧ createNote "S" newNoteProps worldST = (Returned (Some n), w1)
    ∧ storageMap w1 !! "S" = Some s1
    ∧ noteMap s1 !! _id n = Some n
    ∧ indexConsistent s1.
Proof.
  assert (HS : ∃ s, storageMap worldST !! "S" = Some s ∧ db s = "S"
                    ∧ indexConsistent s ∧ noteMap s !! "note:0" = None
                    ∧ tagIdsFollowPrefix s).
  { eexists. split; [vm_compute; reflexivity|]. split; [vm_compute; reflexivity|].
    split; [decide_by_computation|]. split; [vm_compute; reflexivity|].
    decide_by_computation. }
  destruct HS as (s & HS & Hdb & Hcons & Hfresh & Hidx).
  pose (n := mkNoteDoc "note:0" "new" "text" ["urgent"; "later"] "/work/drafts/old" "{}"
               false (Some "S")).
  assert (Hrun1 : (createNote "S" newNoteProps worldST).1 = Returned (Some n)).
  { vm_compute. reflexivity. }
  pose proof (run_exec (createNote "S" newNoteProps) worldST _ Hrun1) as Hrun.
  assert (Hstore : storeTagIdsFollowPrefix
                     (stores (exec (createNote "S" newNoteProps) worldST) (db s))).
  { rewrite Hdb. apply mem_storeTagIdsFollowPrefix. decide_by_computation. }
  assert (Hfolders : storeReturnsRequestedFolders
                       (stores (exec (createNote "S" newNoteProps) worldST) (db s))).
  { rewrite Hdb. apply mem_storeReturnsRequestedFolders. decide_by_computation. }
  destruct (createNote_preserves_indexConsistent worldST "S" newNoteProps s n _ HS Hcons
              Hfresh eq_refl Hidx Hstore Hfolders Hrun) as (s1 & Hs1 & Hn & Hcons1).
  exists s, n, (exec (createNote "S" newNoteProps) worldST), s1.
  split; [exact HS|]. split; [exact Hcons|]. split; [exact Hrun|].
  split; [exact Hs1|]. split; [exact Hn|exact Hcons1].
Defined.

Lemma updateNote_preserves_indexConsistent_witness :
  ∃ s n w1 s1,
    storageMap worldST !! "S" = Some s
    ∧ indexConsistent s
    ∧ updateNote "S" "N1" refileProps worldST = (Returned (Some n), w1)
    ∧ folderPathname n = "/inbox"
    ∧ storageMap w1 !! "S" = Some s1
    ∧ noteMap s1 !! "N1" = Some n
    ∧ "N1" ∈ folderNoteIds s1 "/inbox"
    ∧ ("N1" ∉ folderNoteIds s1 "/work")
    ∧ indexConsistent s1.
Proof.
  assert (HS : ∃ s, storageMap worldST !! "S" = Some s ∧ db s = "S"
                    ∧ indexConsistent s ∧ keyedById s ∧ folderEntriesKeyed s
                    ∧ tagIdsFollowPrefix s ∧ noteMap s !! "N1" = Some noteN1).
  { eexists. split; [vm_compute; reflexivity|]. split; [vm_compute; reflexivity|].
    split; [decide_by_computation|]. split; [decide_by_computation|].
    split; [decide_by_computation|]. split; [decide_by_computation|].
    vm_compute. reflexivity. }
  destruct HS as (s & HS & Hdb & Hcons & Hkeyed & Hfk & Hidx & Hnote).
  pose (n := mkNoteDoc "N1" "title" "content" ["later"] "/inbox" "{}" false (Some "S")).
  assert (Hrun1 : (updateNote "S" "N1" refileProps worldST).1 = Returned (Some n)).
  { vm_compute. reflexivity. }
  pose proof (run_exec (updateNote "S" "N1" refileProps) worldST _ Hrun1) as Hrun.
  assert (Hstore : storeTagIdsFollowPrefix
                     (stores (exec (updateNote "S" "N1" refileProps) worldST) (db s))).
  { rewrite Hdb. apply mem_storeTagIdsFollowPrefix. decide_by_computation. }
  assert (Hfolders : storeReturnsRequestedFolders
                       (stores (exec (updateNote "S" "N1" refileProps) worldST) (db s))).
  { rewrite Hdb. apply mem_storeReturnsRequestedFolders. decide_by_computation. }
  assert (Hget : db_getNote "N1" (stores worldST (db s)) = Returned (Some noteN1)).
  { rewrite Hdb. vm_compute. reflexivity. }
  assert (Hagree : ∀ indexed, noteMap s !! "N1" = Some indexed →
            folderPathname (default n (Some noteN1)) = folderPathname indexed).
  { intros indexed Hindexed. rewrite Hnote in Hindexed. injection Hindexed as <-.
    reflexivity. }
  destruct (updateNote_preserves_indexConsistent worldST "S" "N1" refileProps s
              (Some noteN1) n _ HS Hcons Hkeyed Hfk Hidx Hstore Hfolders Hget Hrun
              eq_refl eq_refl Hagree) as (s1 & Hs1 & Hn & Hin & Hout & Hcons1).
  exists s, n, (exec (updateNote "S" "N1" refileProps) worldST), s1.
  split; [exact HS|]. split; [exact Hcons|]. split; [exact Hrun|]. split; [reflexivity|].
  split; [exact Hs1|]. split; [exact Hn|]. split; [exact Hin|].
  split; [apply Hout; discriminate|exact Hcons1].
Defined.

Lemma trashNote_preserves_indexConsistent_witness :
  ∃ s n upd w' s',
    storageMap worldNewNote !! "S" = Some s
    ∧ indexConsistent s
    ∧ noteMap s !! "note:0" = Some n
    ∧ storageId n = Some "S"
    ∧ storageId upd = None
    ∧ trashNote "S" "note:0" worldNewNote = (Returned (Some (populate "S" upd)), w')
    ∧ storageMap w' !! "S" = Some s'
    ∧ noteMap s' !! "note:0" = Some (populate "S" upd)
    ∧ notFiled s' "note:0"
    ∧ indexConsistent s'.
Proof.
  pose (n := mkNoteDoc "note:0" "new" "text" ["urgent"; "later"] "/work/drafts/old" "{}"
               false (Some "S")).
  pose (upd := mkNoteDoc "note:0" "new" "text" ["urgent"; "later"] "/work/drafts/old" "{}"
                 true None).
  assert (HS : ∃ s, storageMap worldNewNote !! "S" = Some s ∧ db s = "S"
                    ∧ indexConsistent s ∧ keyedById s
                    ∧ noteMap s !! "note:0" = Some n
                    ∧ is_Some (folderOf s (folderPathname upd))).
  { eexists. split; [vm_compute; reflexivity|]. split; [vm_compute; reflexivity|].
    split; [decide_by_computation|]. split; [decide_by_computation|].
    split; [vm_compute; reflexivity|]. decide_by_computation. }
  destruct HS as (s & HS & Hdb & Hcons & Hkeyed & Hnote & Hfolder).
  assert (Htrash : db_trashNote "note:0" (stores worldNewNote (db s))
                   = (Returned (Some upd), (db_trashNote "note:0" (stores worldNewNote "S")).2)).
  { rewrite Hdb. vm_compute. reflexivity. }
  assert (Hagree : ∀ n0, noteMap s !! "note:0" = Some n0 →
            folderPathname n0 = folderPathname upd ∧ tags n0 = tags upd).
  { intros n0 Hn0. rewrite Hnote in Hn0. injection Hn0 as <-. split; reflexivity. }
  destruct (trashNote_preserves_indexConsistent worldNewNote "S" "note:0" s upd _ HS Hcons
              Hkeyed Htrash eq_refl eq_refl Hfolder Hagree)
    as (w' & s' & Hrun & Hs' & Hnm & Hnot & Hcons').
  exists s, n, upd, w', s'. split; [exact HS|]. split; [exact Hcons|]. split; [exact Hnote|].
  split; [reflexivity|]. split; [reflexivity|]. split; [exact Hrun|]. split; [exact Hs'|].
  split; [exact Hnm|]. split; [exact Hnot|exact Hcons'].
Defined.

Lemma untrashNote_preserves_indexConsistent_witness :
  ∃ s n w1 s1,
    storageMap worldTrashed !! "S" = Some s
    ∧ indexConsistent s
    ∧ untrashNote "S" "N1" worldTrashed = (Returned (Some n), w1)
    ∧ storageMap w1 !! "S" = Some s1
    ∧ noteMap s1 !! "N1" = Some n
    ∧ "N1" ∈ folderNoteIds s1 "/work"
    ∧ indexConsistent s1.
Proof.
  assert (HS : ∃ s, storageMap worldTrashed !! "S" = Some s ∧ db s = "S"
                    ∧ indexConsistent s ∧ tagIdsFollowPrefix s
                    ∧ noteMap s !! "N1" = Some (populate "S" (setTrashed true noteN1))).
  { eexists. split; [vm_compute; reflexivity|]. split; [vm_compute; reflexivity|].
    split; [decide_by_computation|]. split; [decide_by_computation|].
    vm_compute. reflexivity. }
  destruct HS as (s & HS & Hdb & Hcons & Hidx & Hnote).
  pose (n := mkNoteDoc "N1" "title" "content" ["urgent"] "/work" "{}" false (Some "S")).
  assert (Hrun1 : (untrashNote "S" "N1" worldTrashed).1 = Returned (Some n)).
  { vm_compute. reflexivity. }
  pose proof (run_exec (untrashNote "S" "N1") worldTrashed _ Hrun1) as Hrun.
  assert (Hstore : storeTagIdsFollowPrefix
                     (stores (exec (untrashNote "S" "N1") worldTrashed) (db s))).
  { rewrite Hdb. apply mem_storeTagIdsFollowPrefix. decide_by_computation. }
  assert (Htrashed : ∀ n0, noteMap s !! _id n = Some n0 → trashed n0 = true).
  { intros n0 Hn0. change (_id n) with "N1" in Hn0. rewrite Hnote in Hn0.
    injection Hn0 as <-. reflexivity. }
  destruct (untrashNote_preserves_indexConsistent worldTrashed "S" "N1" s n _ HS Hcons
              Htrashed eq_refl Hidx Hstore Hrun) as (s1 & Hs1 & Hn & Hin & Hcons1).
  exists s, n, (exec (untrashNote "S" "N1") worldTrashed), s1.
  split; [exact HS|]. split; [exact Hcons|]. split; [exact Hrun|].
  split; [exact Hs1|]. split; [exact Hn|]. split; [exact Hin|exact Hcons1].
Defined.

Lemma purgeNote_preserves_indexConsistent_witness :
  ∃ s w2 s2,
    storageMap worldST !! "S" = Some s
    ∧ indexConsistent s
    ∧ purgeNote "S" "N1" worldST = (Returned tt, w2)
    ∧ storageMap w2 !! "S" = Some s2
    ∧ noteMap s2 !! "N1" = None
    ∧ indexConsistent s2.
Proof.
  assert (HS : ∃ s, storageMap worldST !! "S" = Some s ∧ db s = "S"
                    ∧ indexConsistent s ∧ keyedById s
                    ∧ noteMap s !! "N1" = Some noteN1
                    ∧ is_Some (folderOf s (folderPathname noteN1))
                    ∧ is_Some (tagMap s !! "urgent")).
  { eexists. split; [vm_compute; reflexivity|]. split; [vm_compute; reflexivity|].
    split; [decide_by_computation|]. split; [decide_by_computation|].
    split; [vm_compute; reflexivity|]. split; decide_by_computation. }
  destruct HS as (s & HS & Hdb & Hcons & Hkeyed & Hnote & Hfolder & Htag).
  assert (Htags : ∀ t, t ∈ tags noteN1 → is_Some (tagMap s !! t)).
  { intros t Ht. apply list_elem_of_singleton in Ht. rewrite Ht. exact Htag. }
  destruct (purgeNote_preserves_indexConsistent worldST "S" "N1" s noteN1
              (db_purgeNote "N1" (stores worldST (db s))).2 HS Hcons Hkeyed Hnote Hfolder
              Htags (mem_purgeNote_returns _ _)) as (w2 & s2 & Hrun & Hs2 & Hgone & Hcons2).
  exists s, w2, s2. split; [exact HS|]. split; [exact Hcons|]. split; [exact Hrun|].
  split; [exact Hs2|]. split; [exact Hgone|exact Hcons2].
Defined.

Lemma mem_removeFolder_returns (p : string) (d : MemDb) :
  db_removeFolder p d = (Returned tt, (db_removeFolder p d).2).
Proof. reflexivity. Qed.

Lemma mem_removeTag_returns (t : string) (d : MemDb) :
  db_removeTag t d = (Returned tt, (db_removeTag t d).2).
Proof. reflexivity. Qed.

Lemma removeFolder_preserves_indexConsistent_witness :
  ∃ s w' s',
    storageMap worldXY !! "S" = Some s
    ∧ indexConsistent s
    ∧ removeFolder "S" "/x" worldXY = (Returned tt, w')
    ∧ storageMap w' !! "S" = Some s'
    ∧ noteMap s' !! "N" = Some (setTrashed true noteN)
    ∧ noteMap s' !! "M" = Some (setTrashed true noteM)
    ∧ indexConsistent s'.
Proof.
  assert (HS : ∃ s, storageMap worldXY !! "S" = Some s ∧ db s = "S"
                    ∧ indexConsistent s ∧ keyedById s ∧ tagsIndexed s
                    ∧ noteMap s !! "N" = Some noteN ∧ noteMap s !! "M" = Some noteM
                    ∧ includes (deletedFolderPathnames s "/x") "/x" = true
                    ∧ includes (deletedFolderPathnames s "/x") "/x/y" = true).
  { eexists. split; [vm_compute; reflexivity|]. split; [vm_compute; reflexivity|].
    split; [decide_by_computation|]. split; [decide_by_computation|].
    split; [decide_by_computation|].
    split; [vm_compute; reflexivity|]. split; [vm_compute; reflexivity|].
    split; vm_compute; reflexivity. }
  destruct HS as (s & HS & Hdb & Hcons & Hkeyed & Htags & HN & HM & HdN & HdM).
  destruct (removeFolder_preserves_indexConsistent worldXY "S" "/x" s
              (db_removeFolder "/x" (stores worldXY (db s))).2 HS Hcons Hkeyed Htags
              (mem_removeFolder_returns _ _)) as (w' & s' & Hrun & Hs' & Hnotes & Hcons').
  exists s, w', s'. split; [exact HS|]. split; [exact Hcons|]. split; [exact Hrun|].
  split; [exact Hs'|].
  split; [rewrite (Hnotes "N" noteN HN); change (folderPathname noteN) with "/x";
          rewrite HdN; reflexivity|].
  split; [rewrite (Hnotes "M" noteM HM); change (folderPathname noteM) with "/x/y";
          rewrite HdM; reflexivity|].
  exact Hcons'.
Defined.

Lemma removeTag_strips_tag_witness :
  ∃ s w' s',
    storageMap worldST !! "S" = Some s
    ∧ removeTag "S" "urgent" worldST = (Returned tt, w')
    ∧ storageMap w' !! "S" = Some s'
    ∧ tagMap s' !! "urgent" = None
    ∧ (tags <$> noteMap s' !! "N1") = Some []
    ∧ indexConsistent s'.
Proof.
  assert (HS : ∃ s, storageMap worldST !! "S" = Some s ∧ db s = "S"
                    ∧ indexConsistent s ∧ noteMap s !! "N1" = Some noteN1).
  { eexists. split; [vm_compute; reflexivity|]. split; [vm_compute; reflexivity|].
    split; [decide_by_computation|]. vm_compute. reflexivity. }
  destruct HS as (s & HS & Hdb & Hcons & Hnote).
  destruct (removeTag_strips_tag worldST "S" "urgent" s
              (db_removeTag "urgent" (stores worldST (db s))).2 HS
              (mem_removeTag_returns _ _))
    as (w' & s' & Hrun & Hs' & Htm & _ & Hnotes & _ & Hinv).
  exists s, w', s'. split; [exact HS|]. split; [exact Hrun|]. split; [exact Hs'|].
  split; [rewrite Htm; apply lookup_delete_eq|].
  split; [rewrite Hnotes, Hnote; reflexivity|].
  exact (Hinv Hcons).
Defined.

Lemma createFolder_keeps_existing_entries_witness :
  ∃ s w' s',
    storageMap worldST !! "S" = Some s
    ∧ createFolder "S" "/work/sub" worldST = (Returned tt, w')
    ∧ storageMap w' !! "S" = Some s'
    ∧ noteMap s' = noteMap s
    ∧ folderMap s' !! "/work" = folderMap s !! "/work"
    ∧ (∃ f, folderOf s' "/work/sub" = Some f ∧ noteIdSet f = ∅)
    ∧ indexConsistent s'.
Proof.
  assert (HS : ∃ s, storageMap worldST !! "S" = Some s ∧ db s = "S"
                    ∧ indexConsistent s ∧ is_Some (folderOf s "/work")
                    ∧ folderOf s "/work/sub" = None).
  { eexists. split; [vm_compute; reflexivity|]. split; [vm_compute; reflexivity|].
    split; [decide_by_computation|]. split; [decide_by_computation|].
    vm_compute. reflexivity. }
  destruct HS as (s & HS & Hdb & Hcons & Hwork & Hsub).
  pose (folder := mkFolderDoc "folder:/work/sub" "/work/sub").
  pose (parent := mkFolderDoc "folder:/work" "/work").
  assert (Hcreate : db_createFolder "/work/sub" (stores worldST (db s))
                    = (Returned folder, (db_createFolder "/work/sub" (stores worldST "S")).2)).
  { rewrite Hdb. vm_compute. reflexivity. }
  assert (Hparents : db_getFoldersByPathnames (getAllParentFolderPathnames "/work/sub")
                       (db_createFolder "/work/sub" (stores worldST "S")).2
                     = Returned [parent]).
  { vm_compute. reflexivity. }
  destruct (createFolder_keeps_existing_entries worldST "S" "/work/sub" s folder _ [parent]
              HS Hcreate Hparents)
    as (w' & s' & Hrun & Hs' & Hnm & _ & Hold & _ & Hnew & Hinv).
  exists s, w', s'. split; [exact HS|]. split; [exact Hrun|]. split; [exact Hs'|].
  split; [exact Hnm|]. split; [exact (Hold "/work" Hwork)|].
  split.
  - destruct (Hnew "/work/sub") as (f & Hf & _ & Hempty).
    + apply list_elem_of_here.
    + exact Hsub.
    + exists f. split; [exact Hf|exact Hempty].
  - exact (Hinv Hcons).
Defined.

Lemma createFolder_rejected_by_store_witness :
  ∃ w', createFolder "S" "inbox" worldST = (Returned tt, w')
    ∧ toasts w' = toasts worldST ++ [mkToast "Error" "Folder name is invalid."]
    ∧ storageMap w' = storageMap worldST
    ∧ timers w' = timers worldST.
Proof.
  assert (HS : ∃ s, storageMap worldST !! "S" = Some s ∧ db s = "S").
  { eexists. split; vm_compute; reflexivity. }
  destruct HS as (s & HS & Hdb).
  assert (Hcreate : db_createFolder "inbox" (stores worldST (db s))
                    = (Threw (UnprocessableEntityError "pathname is invalid"),
                       (db_createFolder "inbox" (stores worldST "S")).2)).
  { rewrite Hdb. vm_compute. reflexivity. }
  exact (createFolder_rejected_by_store worldST "S" "inbox" s _ _ HS Hcreate).
Defined.

Lemma trashNote_untrashNote_round_trip_witness :
  ∃ s s2,
    storageMap worldST !! "S" = Some s
    ∧ storageMap (exec (untrashNote "S" "N1") worldTrashed) !! "S" = Some s2
    ∧ (∀ p, folderNoteIds s2 p = folderNoteIds s p)
    ∧ (∀ t, tagNoteIds s2 t = tagNoteIds s t).
Proof.
  assert (HS : ∃ s, storageMap worldST !! "S" = Some s ∧ db s = "S"
                    ∧ tagIdsFollowPrefix s
                    ∧ "N1" ∈ folderNoteIds s "/work"
                    ∧ "N1" ∈ tagNoteIds s "urgent").
  { eexists. split; [vm_compute; reflexivity|]. split; [vm_compute; reflexivity|].
    split; [decide_by_computation|]. split; decide_by_computation. }
  destruct HS as (s & HS & Hdb & Hidx & Hfiled & Htagged).
  pose (n1 := mkNoteDoc "N1" "title" "content" ["urgent"] "/work" "{}" true (Some "S")).
  pose (n2 := mkNoteDoc "N1" "title" "content" ["urgent"] "/work" "{}" false (Some "S")).
  assert (Hrun1a : (trashNote "S" "N1" worldST).1 = Returned (Some n1)).
  { vm_compute. reflexivity. }
  pose proof (run_exec (trashNote "S" "N1") worldST _ Hrun1a) as Hrun1.
  assert (Hrun2a : (untrashNote "S" "N1" worldTrashed).1 = Returned (Some n2)).
  { vm_compute. reflexivity. }
  pose proof (run_exec (untrashNote "S" "N1") worldTrashed _ Hrun2a) as Hrun2.
  assert (Hstore : storeTagIdsFollowPrefix
                     (stores (exec (untrashNote "S" "N1") worldTrashed) (db s))).
  { rewrite Hdb. apply mem_storeTagIdsFollowPrefix. decide_by_computation. }
  assert (Htags : ∀ t, t ∈ tags n1 → _id n1 ∈ tagNoteIds s t).
  { intros t Ht. apply list_elem_of_singleton in Ht. rewrite Ht. exact Htagged. }
  destruct (trashNote_untrashNote_round_trip worldST "S" "N1" s n1 n2 worldTrashed _
              HS Hidx Hstore Hrun1 Hrun2 eq_refl eq_refl eq_refl Hfiled Htags)
    as (s2 & Hs2 & _ & Hf & Ht).
  exists s, s2. split; [exact HS|]. split; [exact Hs2|]. split; [exact Hf|exact Ht].
Defined.

Lemma renameFolder_rejects_changed_depth_witness :
  ∃ s, storageMap worldAB !! "S" = Some s
    ∧ renameOne s "/a" "/c/d" "/a" worldAB
      = (Threw (UnprocessableEntityError "New name is invalid. `/c/d`"), worldAB)
    ∧ (∃ e, renameOne s "/a" "/c/d" "/a/x" worldAB = (Threw e, worldAB))
    ∧ ∃ e, renameFolder "S" "/a" "/c/d" worldAB = (Threw e, worldAB).
Proof.
  assert (HS : ∃ s, storageMap worldAB !! "S" = Some s ∧ db s = "S"
                    ∧ "/a/x" ∈ "/a" :: List.filter (λ aPathname, startsWith aPathname "/a/")
                                        (folderKeys s)).
  { eexists. split; [vm_compute; reflexivity|]. split; [vm_compute; reflexivity|].
    decide_by_computation. }
  destruct HS as (s & HS & Hdb & Hsub).
  assert (Hold : db_getFolder "/a" (stores worldAB (db s))
                 = Returned (Some (mkFolderDoc "folder:/a" "/a"))).
  { rewrite Hdb. vm_compute. reflexivity. }
  assert (Hnew : db_getFolder "/c/d" (stores worldAB (db s)) = Returned None).
  { rewrite Hdb. vm_compute. reflexivity. }
  assert (Hdepth : split_length "/a" ≠ split_length "/c/d").
  { vm_compute. discriminate. }
  assert (Hv1 : isFolderPathnameValid (D:=MemDb) "/a" = true) by reflexivity.
  assert (Hv2 : isFolderPathnameValid (D:=MemDb) "/c/d" = true) by reflexivity.
  assert (Hplain : includesDollar "/c/d" = false) by reflexivity.
  destruct (renameFolder_rejects_changed_depth worldAB "S" "/a" "/c/d" s HS Hv1 Hv2
              Hplain Hdepth) as (Hall & Hown & Hrun).
  exists s. split; [exact HS|]. split; [exact (Hown _ Hold Hnew)|].
  split; [exact (Hall "/a/x" Hsub)|exact Hrun].
Defined.

Lemma untrashNote_of_missing_note_throws_witness :
  ∃ e w', untrashNote "S" "N9" worldST = (Threw e, w')
    ∧ storageMap w' = storageMap worldST
    ∧ timers w' = timers worldST.
Proof.
  assert (HS : ∃ s, storageMap worldST !! "S" = Some s ∧ db s = "S").
  { eexists. split; vm_compute; reflexivity. }
  destruct HS as (s & HS & Hdb).
  assert (Hun : db_untrashNote "N9" (stores worldST (db s))
                = (Returned None, (db_untrashNote "N9" (stores worldST "S")).2)).
  { rewrite Hdb. vm_compute. reflexivity. }
  exact (untrashNote_of_missing_note_throws worldST "S" "N9" s _ HS Hun).
Defined.

Lemma purgeNote_without_index_entry_throws_witness :
  ∃ w', purgeNote "S" "N1" worldRemoved = (Threw TypeError, w')
    ∧ storageMap w' = storageMap worldRemoved
    ∧ timers w' = timers worldRemoved
    ∧ m_notes (stores w' "S") !! "N1" = None.
Proof.
  assert (HS : ∃ s n, storageMap worldRemoved !! "S" = Some s ∧ db s = "S"
                    ∧ noteMap s !! "N1" = Some n
                    ∧ folderOf s (folderPathname n) = None).
  { eexists _, _. split; [vm_compute; reflexivity|]. split; [vm_compute; reflexivity|].
    split; vm_compute; reflexivity. }
  destruct HS as (s & n & HS & Hdb & Hn & Hf).
  destruct (purgeNote_without_index_entry_throws worldRemoved "S" "N1" s
              (db_purgeNote "N1" (stores worldRemoved (db s))).2 HS
              (mem_purgeNote_returns _ _)
              (or_intror (ex_intro _ n (conj Hn Hf))))
    as (w' & Hrun & Hm & Ht & Hst).
  exists w'. split; [exact Hrun|]. split; [exact Hm|]. split; [exact Ht|].
  rewrite Hdb in Hst. rewrite Hst. vm_compute. reflexivity.
Defined.

Lemma index_operations_keep_timers_recorded_witness :
  timersRecorded worldQueued
  ∧ timersRecorded (exec (trashNote "S" "N1") worldQueued)
  ∧ timersRecorded (exec (removeFolder "S" "/work") worldQueued).
Proof.
  assert (Hrec : timersRecorded worldQueued) by decide_by_computation.
  destruct (index_operations_keep_timers_recorded worldQueued Hrec)
    as (_ & _ & Hremove & _ & _ & _ & Htrash & _).
  split; [exact Hrec|]. split; [exact (Htrash "S" "N1")|exact (Hremove "S" "/work")].
Defined.

Lemma scheduler_keeps_one_timer_per_storage_witness :
  timersRecorded worldQueued
  ∧ (size (timersOf worldQueued "S") ≤ 1)%nat
  ∧ timersRecorded (exec (queueSyncingStorage "S" autoSyncIntervalTime) worldQueued)
  ∧ timersRecorded (exec (fireTimer 0) worldQueued).
Proof.
  assert (Hrec : timersRecorded worldQueued) by decide_by_computation.
  destruct (scheduler_keeps_one_timer_per_storage worldQueued Hrec)
    as (Hone & Hqueue & _ & _ & _ & Hfire & _).
  split; [exact Hrec|]. split; [exact (Hone "S")|].
  split; [exact (Hqueue "S" autoSyncIntervalTime)|exact (Hfire 0%nat)].
Defined.

Lemma cancelSyncingStorageQueue_disarms_witness :
  ∃ w', cancelSyncingStorageQueue "S" worldQueued = (Returned tt, w')
    ∧ timers w' !! 0%nat = None
    ∧ sessions w' = sessions worldQueued
    ∧ fireTimer 0 w' = (Returned tt, w').
Proof.
  assert (HS : ∃ s, storageMap worldQueued !! "S" = Some s ∧ syncTimer s = Some 0%nat).
  { eexists. split; vm_compute; reflexivity. }
  destruct HS as (s & HS & Htimer).
  exact (cancelSyncingStorageQueue_disarms worldQueued "S" s 0%nat HS Htimer).
Defined.

Lemma cancelAllSyncingStorageQueue_disarms_every_storage_witness :
  timers worldQueued !! 0%nat = Some ("S", autoSyncDebounceWaitingTime)
  ∧ ∃ w', cancelAllSyncingStorageQueue worldQueued = (Returned tt, w')
      ∧ timers w' = ∅
      ∧ (syncTimer <$> storageMap w' !! "S") = Some None.
Proof.
  split; [vm_compute; reflexivity|].
  assert (Hrec : timersRecorded worldQueued) by decide_by_computation.
  assert (HS : ∃ s, storageMap worldQueued !! "S" = Some s).
  { eexists. vm_compute. reflexivity. }
  destruct HS as (s & HS).
  destruct (cancelAllSyncingStorageQueue_disarms_every_storage worldQueued Hrec)
    as (w' & Hrun & Ht & Hm & _).
  exists w'. split; [exact Hrun|]. split; [exact Ht|].
  rewrite (Hm "S"), HS. reflexivity.
Defined.

Lemma queueSyncingAllStorage_arms_every_storage_witness :
  ∃ w', queueSyncingAllStorage None worldST = (Returned tt, w')
    ∧ (∃ s h, storageMap w' !! "S" = Some s ∧ syncTimer s = Some h
         ∧ timers w' !! h = Some ("S", autoSyncIntervalTime))
    ∧ (∃ s h, storageMap w' !! "T" = Some s ∧ syncTimer s = Some h
         ∧ timers w' !! h = Some ("T", autoSyncIntervalTime)).
Proof.
  assert (Hbelow : handlesBelow worldST) by decide_by_computation.
  assert (HS : ∃ s, storageMap worldST !! "S" = Some s).
  { eexists. vm_compute. reflexivity. }
  assert (HT : ∃ s, storageMap worldST !! "T" = Some s).
  { eexists. vm_compute. reflexivity. }
  destruct HS as (sS & HS). destruct HT as (sT & HT).
  destruct (queueSyncingAllStorage_arms_every_storage worldST None eq_refl Hbelow)
    as (w' & Hrun & Harm & _).
  exists w'. split; [exact Hrun|]. split.
  - destruct (Harm "S" sS HS) as (h & Hs' & Ht). eexists _, h.
    split; [exact Hs'|]. split; [reflexivity|exact Ht].
  - destruct (Harm "T" sT HT) as (h & Hs' & Ht). eexists _, h.
    split; [exact Hs'|]. split; [reflexivity|exact Ht].
Defined.

Lemma fireTimer_starts_sync_and_rearms_witness :
  ∃ w' s', fireTimer 0 worldLinkedQueued = (Returned tt, w')
    ∧ storageMap w' !! "S" = Some s'
    ∧ sync s' = Some 1%nat
    ∧ syncTimer s' = Some 2%nat
    ∧ timers w' = {[ 2%nat := ("S", autoSyncIntervalTime) ]}.
Proof.
  assert (HS : ∃ s, storageMap worldLinkedQueued !! "S" = Some s
                    ∧ cloudStorage s = Some (mkCloud 7 "cloud" None)
                    ∧ sync s = None ∧ syncTimer s = Some 0%nat).
  { eexists. split; [vm_compute; reflexivity|]. split; [vm_compute; reflexivity|].
    split; vm_compute; reflexivity. }
  destruct HS as (s & HS & Hcloud & Hsync & Htimer).
  assert (Harmed : timers worldLinkedQueued !! 0%nat
                   = Some ("S", autoSyncDebounceWaitingTime)).
  { vm_compute. reflexivity. }
  destruct (fireTimer_starts_sync_and_rearms worldLinkedQueued 0 "S" _ s "user" _
              Harmed eq_refl eq_refl HS Hcloud Hsync Htimer)
    as (w' & s' & Hrun & Hs' & Hsy & _ & Hst & Ht & _).
  exists w', s'. split; [exact Hrun|]. split; [exact Hs'|]. split; [exact Hsy|].
  split; [exact Hst|]. rewrite Ht. vm_compute. reflexivity.
Defined.

Lemma syncError_404_pushes_one_notice_witness :
  ∃ w' s', onSyncError 0 (Some 404%N) worldSyncing = (Returned tt, w')
    ∧ toasts w' = toasts worldSyncing ++
        [mkToast "Not Found" "The cloud storage does not exist anymore."]
    ∧ storageMap w' !! "S" = Some s'
    ∧ cloudStorage s' = None ∧ sync s' = None.
Proof.
  assert (HS : ∃ s, storageMap worldSyncing !! "S" = Some s).
  { eexists. vm_compute. reflexivity. }
  destruct HS as (s & HS).
  assert (Hsess : sessions worldSyncing !! 0%nat
                  = Some (mkSession "S" false
                            (mkStorageData "S" "S" (Some (mkCloud 7 "cloud" None))))).
  { vm_compute. reflexivity. }
  exact (syncError_404_pushes_one_notice worldSyncing 0 _ s Hsess eq_refl HS).
Defined.

Lemma syncError_other_keeps_link_witness :
  ∃ w' s', onSyncError 0 (Some 500%N) worldSyncing = (Returned tt, w')
    ∧ toasts w' = toasts worldSyncing ++
        [mkToast "Sync Error"
           "Failed to sync the storage. Please check Dev Tool's console to learn more information"]
    ∧ storageMap w' !! "S" = Some s'
    ∧ cloudStorage s' = Some (mkCloud 7 "cloud" None) ∧ sync s' = None.
Proof.
  assert (HS : ∃ s, storageMap worldSyncing !! "S" = Some s
                    ∧ cloudStorage s = Some (mkCloud 7 "cloud" None)).
  { eexists. split; vm_compute; reflexivity. }
  destruct HS as (s & HS & Hcloud).
  assert (Hsess : sessions worldSyncing !! 0%nat
                  = Some (mkSession "S" false
                            (mkStorageData "S" "S" (Some (mkCloud 7 "cloud" None))))).
  { vm_compute. reflexivity. }
  assert (H409 : Some 500%N ≠ Some 409%N) by discriminate.
  assert (H404 : Some 500%N ≠ Some 404%N) by discriminate.
  destruct (syncError_other_keeps_link worldSyncing 0 _ s (Some 500%N) Hsess eq_refl HS
              H409 H404) as (w' & s' & Hrun & Ht & Hs' & Hc & Hsy).
  exists w', s'. split; [exact Hrun|]. split; [exact Ht|]. split; [exact Hs'|].
  split; [rewrite Hc; exact Hcloud|exact Hsy].
Defined.

Lemma syncError_silent_pushes_nothing_witness :
  toasts (exec (onSyncError 0 (Some 409%N)) worldSyncingSilently)
  = toasts worldSyncingSilently.
Proof.
  assert (Hsess : sessions worldSyncingSilently !! 0%nat
                  = Some (mkSession "S" true
                            (mkStorageData "S" "S" (Some (mkCloud 7 "cloud" None))))).
  { vm_compute. reflexivity. }
  assert (Hrun1 : (onSyncError 0 (Some 409%N) worldSyncingSilently).1 = Returned tt).
  { vm_compute. reflexivity. }
  pose proof (run_exec (onSyncError 0 (Some 409%N)) worldSyncingSilently _ Hrun1) as Hrun.
  exact (syncError_silent_pushes_nothing worldSyncingSilently 0 _ (Some 409%N) _
           Hsess eq_refl Hrun).
Defined.

Lemma syncError_after_storage_removed_throws_witness :
  ∃ w', onSyncError 0 (Some 404%N) worldOrphan = (Threw TypeError, w')
    ∧ storageMap w' = storageMap worldOrphan
    ∧ sessions w' !! 0%nat = None.
Proof.
  assert (Hsess : sessions worldOrphan !! 0%nat
                  = Some (mkSession "S" false
                            (mkStorageData "S" "S" (Some (mkCloud 7 "cloud" None))))).
  { vm_compute. reflexivity. }
  assert (Hgone : storageMap worldOrphan
                    !! sess_storageId
                         (mkSession "S" false
                            (mkStorageData "S" "S" (Some (mkCloud 7 "cloud" None))))
                  = None).
  { vm_compute. reflexivity. }
  exact (syncError_after_storage_removed_throws worldOrphan 0 _ (Some 404%N) Hsess Hgone).
Defined.

Lemma syncComplete_rebuilds_storage_witness :
  ∃ w' s', onSyncComplete 0 100 worldSyncing = (Returned tt, w')
    ∧ sessions w' !! 0%nat = None
    ∧ timers w' = timers worldSyncing
    ∧ storageMap w' !! "S" = Some s'
    ∧ cloudStorage s' = Some (mkCloud 7 "cloud" (Some 100%N))
    ∧ sync s' = None
    ∧ noteMap s' = {[ "N1" := noteN1 ]}
    ∧ indexConsistent s'.
Proof.
  pose (sess := mkSession "S" false
                  (mkStorageData "S" "S" (Some (mkCloud 7 "cloud" None)))).
  pose (docs := mkAllDocs (m_notes (db_init (stores worldSyncing "S")).2)
                  (m_folders (db_init (stores worldSyncing "S")).2)
                  (m_tags (db_init (stores worldSyncing "S")).2)).
  assert (Hsess : sessions worldSyncing !! 0%nat = Some sess).
  { vm_compute. reflexivity. }
  assert (Hkeyed : map_Forall (λ k n, _id n = k) (adm_noteMap docs)).
  { decide_by_computation. }
  assert (Hclosed : docsClosed docs).
  { decide_by_computation. }
  assert (Hinit : db_init (stores worldSyncing (sd_id (sess_storage sess)))
                  = (Returned tt, (db_init (stores worldSyncing "S")).2)).
  { vm_compute. reflexivity. }
  assert (Hdocs : db_getAllDocsMap (db_init (stores worldSyncing "S")).2 = Returned docs).
  { vm_compute. reflexivity. }
  assert (HS : ∃ s, storageMap worldSyncing !! sess_storageId sess = Some s).
  { eexists. vm_compute. reflexivity. }
  destruct HS as (s & HS).
  destruct (syncComplete_rebuilds_storage worldSyncing 0 100 sess _ _ docs
              Hsess eq_refl Hinit Hdocs Hkeyed Hclosed) as (w' & Hrun & Hended & Ht & Hcase).
  rewrite HS in Hcase.
  destruct Hcase as (s' & Hs' & _ & Hc & Hsy & _ & Hnm & Hcons).
  exists w', s'. split; [exact Hrun|]. split; [exact Hended|]. split; [exact Ht|].
  split; [exact Hs'|]. split; [exact Hc|]. split; [exact Hsy|].
  split; [rewrite Hnm; vm_compute; reflexivity|exact Hcons].
Defined.

Lemma move_between_storages_preserves_indexConsistent_witness :
  ∃ sS sT w' sS' sT',
    storageMap worldST !! "S" = Some sS
    ∧ storageMap worldST !! "T" = Some sT
    ∧ noteMap sS !! "N1" = Some noteN1
    ∧ moveNoteToOtherStorage "S" "N1" "T" "/inbox" worldST = (Returned tt, w')
    ∧ storageMap w' !! "S" = Some sS'
    ∧ storageMap w' !! "T" = Some sT'
    ∧ noteMap sS' !! "N1" = None
    ∧ is_Some (noteMap sT' !! "note:0")
    ∧ "note:0" ∈ folderNoteIds sT' "/inbox"
    ∧ indexConsistent sS'
    ∧ indexConsistent sT'.
Proof.
  assert (HS : ∃ s, storageMap worldST !! "S" = Some s ∧ db s = "S"
                    ∧ indexConsistent s ∧ keyedById s ∧ folderEntriesKeyed s
                    ∧ tagEntriesNamed s ∧ noteMap s !! "N1" = Some noteN1).
  { eexists. split; [vm_compute; reflexivity|]. split; [vm_compute; reflexivity|].
    split; [decide_by_computation|]. split; [decide_by_computation|].
    split; [decide_by_computation|]. split; [decide_by_computation|].
    vm_compute. reflexivity. }
  assert (HT : ∃ s, storageMap worldST !! "T" = Some s ∧ db s = "T"
                    ∧ indexConsistent s ∧ folderEntriesKeyed s
                    ∧ tagEntriesNamed s ∧ noteMap s !! "note:0" = None).
  { eexists. split; [vm_compute; reflexivity|]. split; [vm_compute; reflexivity|].
    split; [decide_by_computation|]. split; [decide_by_computation|].
    split; [decide_by_computation|]. vm_compute. reflexivity. }
  destruct HS as (sS & HS & HdbS & HcS & HkeyS & HkS & HnS & Hnote).
  destruct HT as (sT & HT & HdbT & HcT & HkT & HnT & Hfresh).
  pose (created := mkNoteDoc "note:0" "title" "content" ["urgent"] "/inbox" "{}" false None).
  assert (HneST : "S" ≠ "T") by discriminate.
  assert (Hself : "/inbox" ∉ getAllParentFolderPathnames "/inbox").
  { decide_by_computation. }
  assert (Hrun1 : (moveNoteToOtherStorage "S" "N1" "T" "/inbox" worldST).1 = Returned tt).
  { vm_compute. reflexivity. }
  pose proof (run_exec (moveNoteToOtherStorage "S" "N1" "T" "/inbox") worldST _ Hrun1) as Hrun.
  assert (Hfolders : storeReturnsRequestedFolders
            (stores (exec (moveNoteToOtherStorage "S" "N1" "T" "/inbox") worldST) (db sT))).
  { rewrite HdbT. apply mem_storeReturnsRequestedFolders. decide_by_computation. }
  assert (Hget : db_getNote "N1" (stores worldST (db sS)) = Returned (Some noteN1)).
  { rewrite HdbS. vm_compute. reflexivity. }
  assert (Hagree : ∀ indexed, noteMap sS !! _id noteN1 = Some indexed →
            folderPathname indexed = folderPathname noteN1 ∧ tags indexed = tags noteN1).
  { intros indexed Hindexed. change (_id noteN1) with "N1" in Hindexed.
    rewrite Hnote in Hindexed. injection Hindexed as <-. split; reflexivity. }
  assert (Hcreate : db_createNote
            (mkNoteProps (Some (title noteN1)) (Some (content noteN1)) (Some (tags noteN1))
               (Some "/inbox") (Some (data noteN1)))
            (stores worldST (db sT))
          = (Returned created,
             (db_createNote
                (mkNoteProps (Some "title") (Some "content") (Some ["urgent"])
                   (Some "/inbox") (Some "{}"))
                (stores worldST "T")).2)).
  { rewrite HdbT. vm_compute. reflexivity. }
  destruct (move_between_storages_preserves_indexConsistent worldST "S" "T" "N1" "/inbox"
              sS sT noteN1 created _ _ HneST HS HT HcS HkeyS HkS HnS HcT HkT HnT Hself
              Hfolders Hget Hagree Hcreate Hfresh eq_refl eq_refl Hrun)
    as (sS' & sT' & HsS' & HsT' & Hgone & Hthere & Hfiled & HcS' & HcT').
  exists sS, sT, (exec (moveNoteToOtherStorage "S" "N1" "T" "/inbox") worldST), sS', sT'.
  split; [exact HS|]. split; [exact HT|]. split; [exact Hnote|]. split; [exact Hrun|].
  split; [exact HsS'|]. split; [exact HsT'|]. split; [exact Hgone|].
  split; [eexists; exact Hthere|]. split; [exact Hfiled|].
  split; [exact HcS'|exact HcT'].
Defined.
